(** * NiceGrow / Sandy bot: the email-to-scheduled-task pipeline

    A shallow embedding of [sandybot/email_utils.py] (text normalizer,
    regex extractor, identifier filter and resolver, date parsing, the
    pipeline [procesar_correo_a_tarea]) and of the task upsert of
    [sandybot/database.py] ([crear_tarea_programada]); then of the
    recipients of a client, the cameras and claims, the service upsert, the
    task queries and the removal of duplicated tasks.

    Text.  A Python [str] is modelled by [string]; the 256 values of
    [ascii] are the code points U+0000 to U+00FF.  On them white space
    ([str.isspace], [str.strip], [str.split], the class [\s]), the line
    boundaries of [str.splitlines], decimal digits ([\d]), word characters
    ([\w], [\b]) and the case of letters ([str.lower], [str.upper], re.I)
    are those of CPython; what is left out is said at [isdigit] and
    [upper_c].  Texts with characters beyond U+00FF are not covered. *)

From Stdlib Require Import Bool Arith ZArith List Ascii String Lia.
Import ListNotations.

Open Scope string_scope.
Open Scope list_scope.
Open Scope nat_scope.

Set Implicit Arguments.

(** ** Characters and the [str] methods the code uses *)

Module Py.

Definition ord (c : ascii) : nat := nat_of_ascii c.

Definition entre (lo hi : nat) (c : ascii) : bool :=
  (lo <=? ord c) && (ord c <=? hi).

(** [str.isspace], which is also the class [\s]: TAB LF VT FF CR, FS GS RS
    US, the blank, NEL (U+0085) and the no-break space (U+00A0). *)
Definition isspace (c : ascii) : bool :=
  entre 9 13 c || entre 28 32 c || (ord c =? 133) || (ord c =? 160).

(** Decimal digits: the class [\d]. *)
Definition isdigit_c (c : ascii) : bool := entre 48 57 c.

(** The letters A to Z and a to z. *)
Definition isupper_c (c : ascii) : bool := entre 65 90 c.
Definition islower_c (c : ascii) : bool := entre 97 122 c.
Definition isalpha_c (c : ascii) : bool := isupper_c c || islower_c c.

(** The letters and numbers beyond U+007F: the ordinal indicators, the
    superscripts 1 to 3, the micro sign, the fractions, and the letters from
    U+00C0 on, which leaves out the signs of multiplication and division. *)
Definition isalnum_alto (c : ascii) : bool :=
  (ord c =? 170) || entre 178 179 c || (ord c =? 181) || entre 185 186 c
  || entre 188 190 c || entre 192 214 c || entre 216 246 c
  || entre 248 255 c.

(** [\w]: alphanumeric or underscore. *)
Definition isword_c (c : ascii) : bool :=
  isalpha_c c || isdigit_c c || (ord c =? 95) || isalnum_alto c.

(** Line boundaries of [str.splitlines]: LF VT FF CR, FS GS RS and NEL. *)
Definition es_salto (c : ascii) : bool :=
  entre 10 13 c || entre 28 30 c || (ord c =? 133).

(** Capital letters beyond U+007F, and the small ones that have a capital
    within these code points. *)
Definition isupper_alto (c : ascii) : bool :=
  entre 192 214 c || entre 216 222 c.
Definition islower_alto (c : ascii) : bool :=
  entre 224 246 c || entre 248 254 c.

Definition lower_c (c : ascii) : ascii :=
  if isupper_c c || isupper_alto c then ascii_of_nat (ord c + 32) else c.
(** The capitals of the micro sign, of the sharp s and of y with diaeresis
    lie beyond U+00FF (or are two letters); these three are left as they
    are.  The code upper-cases a text only to compare it with "TELXIUS" or
    to look for "EMERGENCY" in it, and no capital of the three is in those
    words. *)
Definition upper_c (c : ascii) : ascii :=
  if islower_c c || islower_alto c then ascii_of_nat (ord c - 32) else c.

Fixpoint smap (f : ascii -> ascii) (s : string) : string :=
  match s with
  | EmptyString => EmptyString
  | String c s' => String (f c) (smap f s')
  end.

Definition lower : string -> string := smap lower_c.
Definition upper : string -> string := smap upper_c.

Fixpoint forallb_s (p : ascii -> bool) (s : string) : bool :=
  match s with
  | EmptyString => true
  | String c s' => p c && forallb_s p s'
  end.

Definition vacia (s : string) : bool :=
  match s with EmptyString => true | _ => false end.

(** [str.isdigit]: at least one character, all of them digits.  Left out:
    [str.isdigit] accepts the superscripts 1 to 3 (U+00B2, U+00B3, U+00B9)
    as well, and [int] then raises ValueError; the model covers the texts
    without these three in a run of digits. *)
Definition isdigit (s : string) : bool :=
  negb (vacia s) && forallb_s isdigit_c s.

Fixpoint lstrip (s : string) : string :=
  match s with
  | EmptyString => EmptyString
  | String c s' => if isspace c then lstrip s' else s
  end.

Fixpoint rstrip (s : string) : string :=
  match s with
  | EmptyString => EmptyString
  | String c s' =>
      let r := rstrip s' in
      if vacia r && isspace c then EmptyString else String c r
  end.

(** [str.strip()] *)
Definition strip (s : string) : string := rstrip (lstrip s).

(** [str.splitlines()]: CR LF is one boundary, and a final boundary opens
    no empty last line. *)
Fixpoint splitlines_aux (tras_cr : bool) (cur s : string) : list string :=
  match s with
  | EmptyString => if vacia cur then [] else [cur]
  | String c s' =>
      if tras_cr && (ord c =? 10) then splitlines_aux false cur s'
      else if es_salto c then cur :: splitlines_aux (ord c =? 13) EmptyString s'
      else splitlines_aux false (cur ++ String c EmptyString)%string s'
  end.

Definition splitlines (s : string) : list string :=
  splitlines_aux false EmptyString s.

(** [sep.join(xs)] *)
Fixpoint join (sep : string) (xs : list string) : string :=
  match xs with
  | [] => EmptyString
  | [x] => x
  | x :: resto => (x ++ sep ++ join sep resto)%string
  end.

(** [str.split(sep)] for a one-character separator: every occurrence cuts,
    empty pieces are kept. *)
Fixpoint split_c (sep : ascii) (cur s : string) : list string :=
  match s with
  | EmptyString => [cur]
  | String c s' =>
      if Ascii.eqb c sep then cur :: split_c sep EmptyString s'
      else split_c sep (cur ++ String c EmptyString)%string s'
  end.

(** [str.split()] without argument: cuts at runs of white space, no empty
    piece. *)
Fixpoint split_ws (cur s : string) : list string :=
  match s with
  | EmptyString => if vacia cur then [] else [cur]
  | String c s' =>
      if isspace c then
        (if vacia cur then split_ws EmptyString s'
         else cur :: split_ws EmptyString s')
      else split_ws (cur ++ String c EmptyString)%string s'
  end.

Fixpoint filter_s (p : ascii -> bool) (s : string) : string :=
  match s with
  | EmptyString => EmptyString
  | String c s' => if p c then String c (filter_s p s') else filter_s p s'
  end.

(** [int(s)] for a string of decimal digits. *)
Fixpoint int_aux (acc : Z) (s : string) : Z :=
  match s with
  | EmptyString => acc
  | String c s' => int_aux (10 * acc + Z.of_nat (ord c - 48)) s'
  end.

Definition int (s : string) : Z := int_aux 0 s.

(** [s.startswith(x)] *)
Fixpoint startswith (x s : string) : bool :=
  match x, s with
  | EmptyString, _ => true
  | String _ _, EmptyString => false
  | String a x', String b s' => Ascii.eqb a b && startswith x' s'
  end.

(** [x in s] for strings: [x] occurs in [s]. *)
Fixpoint contiene (x s : string) : bool :=
  startswith x s ||
  match s with
  | EmptyString => false
  | String _ s' => contiene x s'
  end.

End Py.

(** ** Regular expressions, as Python's [re] matches them

    The patterns of the code are kept as data.  A match is searched by
    backtracking in the order of [re]: alternatives from left to right,
    quantifiers greedy.  [alcances r prev s] lists, in that order, every
    way [r] matches a prefix of [s] ([prev] is the character before [s],
    for word boundaries); the match [re] reports is the first of the list.
    Quantifiers other than [?] apply to character classes only, as in every
    pattern of the code. *)

Module Re.

Inductive regex : Type :=
| Lit (ci : bool) (s : string)        (* literal text; [ci]: under re.I *)
| Cls (p : ascii -> bool)             (* one character of a class *)
| Cat (r1 r2 : regex)                 (* r1 r2 *)
| Alt (r1 r2 : regex)                 (* r1|r2 *)
| Opt (r : regex)                     (* (?:r)? *)
| Star (p : ascii -> bool)            (* [p]* *)
| Plus (p : ascii -> bool)            (* [p]+ *)
| Rep (n : nat) (p : ascii -> bool)   (* [p]{n} *)
| Grp (r : regex)                     (* (r) *)
| Bnd.                                (* \b *)

Record alcance : Type := Alcance
  { consumido : string; resto : string; grupos : list string }.

Definition eq_c (ci : bool) (a b : ascii) : bool :=
  if ci then Ascii.eqb (Py.lower_c a) (Py.lower_c b) else Ascii.eqb a b.

Fixpoint lit_m (ci : bool) (lit s : string) : option (string * string) :=
  match lit, s with
  | EmptyString, _ => Some (EmptyString, s)
  | String _ _, EmptyString => None
  | String a lit', String b s' =>
      if eq_c ci a b then
        match lit_m ci lit' s' with
        | Some (c, r) => Some (String b c, r)
        | None => None
        end
      else None
  end.

Definition ante (c : ascii) (x : string * string) : string * string :=
  (String c (fst x), snd x).

(** Longest run first, then one character less, down to the empty run. *)
Fixpoint star_m (p : ascii -> bool) (s : string) : list (string * string) :=
  match s with
  | EmptyString => [(EmptyString, EmptyString)]
  | String c s' =>
      if p c then map (ante c) (star_m p s') ++ [(EmptyString, s)]
      else [(EmptyString, s)]
  end.

Definition plus_m (p : ascii -> bool) (s : string) : list (string * string) :=
  match s with
  | EmptyString => []
  | String c s' => if p c then map (ante c) (star_m p s') else []
  end.

Fixpoint rep_m (n : nat) (p : ascii -> bool) (s : string)
  : option (string * string) :=
  match n with
  | O => Some (EmptyString, s)
  | S n' =>
      match s with
      | EmptyString => None
      | String c s' =>
          if p c then option_map (ante c) (rep_m n' p s') else None
      end
  end.

Definition simple (x : string * string) : alcance :=
  Alcance (fst x) (snd x) [].

Definition de_option (o : option (string * string)) : list alcance :=
  match o with Some x => [simple x] | None => [] end.

(** The character before the position reached after [c] was consumed. *)
Fixpoint ultimo (prev : option ascii) (c : string) : option ascii :=
  match c with
  | EmptyString => prev
  | String a c' => ultimo (Some a) c'
  end.

Definition es_palabra (o : option ascii) : bool :=
  match o with Some c => Py.isword_c c | None => false end.

Definition primero (s : string) : option ascii :=
  match s with EmptyString => None | String c _ => Some c end.

Definition seguir (h1 h2 : alcance) : alcance :=
  Alcance (consumido h1 ++ consumido h2)%string (resto h2)
          (grupos h1 ++ grupos h2).

Fixpoint alcances (r : regex) (prev : option ascii) (s : string)
  : list alcance :=
  match r with
  | Lit ci l => de_option (lit_m ci l s)
  | Cls p =>
      match s with
      | String c s' => if p c then [Alcance (String c EmptyString) s' []] else []
      | EmptyString => []
      end
  | Cat r1 r2 =>
      flat_map
        (fun h1 =>
           map (seguir h1)
               (alcances r2 (ultimo prev (consumido h1)) (resto h1)))
        (alcances r1 prev s)
  | Alt r1 r2 => alcances r1 prev s ++ alcances r2 prev s
  | Opt r1 => alcances r1 prev s ++ [Alcance EmptyString s []]
  | Star p => map simple (star_m p s)
  | Plus p => map simple (plus_m p s)
  | Rep n p => de_option (rep_m n p s)
  | Grp r1 =>
      map (fun h => Alcance (consumido h) (resto h) (consumido h :: grupos h))
          (alcances r1 prev s)
  | Bnd =>
      if xorb (es_palabra prev) (es_palabra (primero s))
      then [Alcance EmptyString s []] else []
  end.

(** [re.search]: the first match at the leftmost position that has one. *)
Fixpoint search_desde (r : regex) (prev : option ascii) (s : string)
  : option alcance :=
  match alcances r prev s with
  | h :: _ => Some h
  | [] =>
      match s with
      | EmptyString => None
      | String c s' => search_desde r (Some c) s'
      end
  end.

Definition search (r : regex) (s : string) : option alcance :=
  search_desde r None s.

(** [re.match]: a match at the start. *)
Definition match_ (r : regex) (s : string) : option alcance :=
  hd_error (alcances r None s).

(** [re.fullmatch]: the first way to match that uses the whole string. *)
Definition fullmatch (r : regex) (s : string) : option alcance :=
  find (fun h => Py.vacia (resto h)) (alcances r None s).

(** [re.findall] for a pattern without group: the matches from left to
    right, each search resuming where the previous match ended (one
    character further after an empty match). *)
Fixpoint findall_n (n : nat) (r : regex) (prev : option ascii) (s : string)
  : list string :=
  match n with
  | O => []
  | S n' =>
      match alcances r prev s with
      | h :: _ =>
          if Py.vacia (consumido h) then
            match s with
            | EmptyString => [EmptyString]
            | String c s' => EmptyString :: findall_n n' r (Some c) s'
            end
          else
            consumido h
              :: findall_n n' r (ultimo prev (consumido h)) (resto h)
      | [] =>
          match s with
          | EmptyString => []
          | String c s' => findall_n n' r (Some c) s'
          end
      end
  end.

Definition findall (r : regex) (s : string) : list string :=
  findall_n (S (String.length s)) r None s.

(** group(1) of a match *)
Definition grupo1 (h : alcance) : string := hd EmptyString (grupos h).

Definition hay (o : option alcance) : bool :=
  match o with Some _ => true | None => false end.

Definition cualquiera (_ : ascii) : bool := true.
Definition es (n : nat) (c : ascii) : bool := Py.ord c =? n.
Definition una_de (p q : ascii -> bool) (c : ascii) : bool := p c || q c.

End Re.

Declare Scope re_scope.
Delimit Scope re_scope with re.
Bind Scope re_scope with Re.regex.
Infix ">>" := Re.Cat (at level 41, right associativity) : re_scope.
Infix "<|>" := Re.Alt (at level 51, right associativity) : re_scope.


(** ** Exceptions and effects

    A function that works on a state [S] and may raise is a function from
    the state to the new state and either the exception or the value: a
    commit that was done before the exception stays done. *)

Inductive error : Type :=
| ValueError (msg : string)
| IndexError
| IntegrityError
| TypeError.

Definition M (S A : Type) : Type := S -> S * (error + A).

Definition ret {S A : Type} (a : A) : M S A := fun s => (s, inr a).
Definition raise {S A : Type} (e : error) : M S A := fun s => (s, inl e).
Definition bind {S A B : Type} (m : M S A) (k : A -> M S B) : M S B :=
  fun s =>
    match m s with
    | (s', inr a) => k a s'
    | (s', inl e) => (s', inl e)
    end.
Definition get {S : Type} : M S S := fun s => (s, inr s).
Definition put {S : Type} (s' : S) : M S unit := fun _ => (s', inr tt).

Declare Scope m_scope.
Delimit Scope m_scope with m.
Notation "x <- m ;; k" := (bind m (fun x => k))
  (at level 61, m at next level, right associativity) : m_scope.
Notation "' p <- m ;; k" := (bind m (fun x => let p := x in k))
  (at level 61, p pattern, m at next level, right associativity) : m_scope.
Notation "m ;;; k" := (bind m (fun _ => k))
  (at level 61, right associativity) : m_scope.

(** ** [sandybot/email_utils.py]: text normalizer, extractors, filter *)

Module EmailUtils.
Import Py Re.

Definition nl : string := String (ascii_of_nat 10) EmptyString.

(** [[:\s-]] *)
Definition c_sep (c : ascii) : bool := es 58 c || isspace c || es 45 c.
(** [[^\n\r]] *)
Definition c_no_nl_cr (c : ascii) : bool := negb (es 10 c || es 13 c).
(** [[^\n]], which is also [.] without re.S *)
Definition c_no_nl (c : ascii) : bool := negb (es 10 c).
(** [[A-Z0-9,\- ]] under re.I *)
Definition c_ids (c : ascii) : bool :=
  isalpha_c c || isdigit_c c || es 44 c || es 45 c || es 32 c.
(** [[^\-]] *)
Definition c_no_guion (c : ascii) : bool := negb (es 45 c).

(** r"disclaimer|confidencial|aviso legal|confidentiality notice|"
    r"correo(?:\s+electronico)?\s*(?:es\s+)?privado", re.I *)
Definition patron_privado : regex :=
  (Lit true "correo"
   >> Opt (Plus isspace >> Lit true "electronico")
   >> Star isspace
   >> Opt (Lit true "es" >> Plus isspace)
   >> Lit true "privado")%re.

Definition patron_aviso : regex :=
  (Lit true "disclaimer"
   <|> Lit true "confidencial"
   <|> Lit true "aviso legal"
   <|> Lit true "confidentiality notice"
   <|> patron_privado)%re.

(** The loop of [_limpiar_correo] over the lines: blank lines are skipped,
    the first line with the legal notice ends the loop. *)
Fixpoint limpiar_lineas (lineas : list string) : list string :=
  match lineas with
  | [] => []
  | linea :: siguientes =>
      let l := strip linea in
      if vacia l then limpiar_lineas siguientes
      else if hay (search patron_aviso l) then []
      else l :: limpiar_lineas siguientes
  end.

Definition _limpiar_correo (texto : string) : string :=
  join nl (limpiar_lineas (splitlines texto)).

(** The dictionary both extractors produce. *)
Record datos : Type := Datos
  { inicio : string;
    fin : string;
    tipo : option string;
    afectacion : option string;
    descripcion : option string;
    ids : list string }.

(** r"inicio[:\s-]+([^\n\r]+)", re.I *)
Definition patron_inicio : regex :=
  (Lit true "inicio" >> Plus c_sep >> Grp (Plus c_no_nl_cr))%re.
(** r"fin[:\s-]+([^\n\r]+)", re.I *)
Definition patron_fin : regex :=
  (Lit true "fin" >> Plus c_sep >> Grp (Plus c_no_nl_cr))%re.
(** r"servicios?(?:\s+afectados)?[:\s-]+([A-Z0-9,\- ]+)", re.I *)
Definition patron_ids : regex :=
  (Lit true "servicio" >> Opt (Lit true "s")
   >> Opt (Plus isspace >> Lit true "afectados")
   >> Plus c_sep >> Grp (Plus c_ids))%re.

(** [[i.strip() for i in g.split(",") if i.strip()]] *)
Definition partir_ids (g : string) : list string :=
  filter (fun i => negb (vacia i))
         (map strip (split_c (ascii_of_nat 44) EmptyString g)).

Definition _extraer_por_regex (texto : string) : option datos :=
  match search patron_inicio texto,
        search patron_fin texto,
        search patron_ids texto with
  | Some inicio_m, Some fin_m, Some ids_m =>
      Some (Datos (strip (grupo1 inicio_m))
                  (strip (grupo1 fin_m))
                  (Some "Mantenimiento")
                  None
                  None
                  (partir_ids (grupo1 ids_m)))
  | _, _, _ => None
  end.

(** *** The sniffer [_detectar_datos_correo] *)

Record detectados : Type := Detectados
  { d_carrier : option string;
    d_id_interno : option string;
    d_ids : list string;
    d_tipo : string }.

(** Python truth of an optional string: neither [None] nor empty. *)
Definition cierto (x : option string) : bool :=
  match x with Some s => negb (vacia s) | None => false end.

(** carrier_map = {r".*telxius.*": "TELXIUS"} *)
Definition carrier_map : list (regex * string) :=
  [ ((Star c_no_nl >> Lit false "telxius" >> Star c_no_nl)%re, "TELXIUS") ].

Fixpoint primer_patron (m : list (regex * string)) (rem : string)
  : option string :=
  match m with
  | [] => None
  | (patron, nombre) :: m' =>
      if hay (search patron rem) then Some nombre else primer_patron m' rem
  end.

Definition detectar_carrier_por_remitente (remitente : string)
  : option string :=
  primer_patron carrier_map (lower remitente).

Fixpoint lstrip_c (p : ascii -> bool) (s : string) : string :=
  match s with
  | EmptyString => EmptyString
  | String c s' => if p c then lstrip_c p s' else s
  end.

Fixpoint rstrip_c (p : ascii -> bool) (s : string) : string :=
  match s with
  | EmptyString => EmptyString
  | String c s' =>
      let r := rstrip_c p s' in
      if vacia r && p c then EmptyString else String c r
  end.

(** [s.strip("<>")] *)
Definition strip_angulos (s : string) : string :=
  let p := una_de (es 60) (es 62) in rstrip_c p (lstrip_c p s).

(** [s.split(sep, 1)[1]] when [sep] occurs in [s]. *)
Fixpoint tras_primero (sep : ascii) (s : string) : string :=
  match s with
  | EmptyString => EmptyString
  | String c s' => if Ascii.eqb c sep then s' else tras_primero sep s'
  end.

(** [s.split(sep)[0]] *)
Fixpoint hasta_primero (sep : ascii) (s : string) : string :=
  match s with
  | EmptyString => EmptyString
  | String c s' =>
      if Ascii.eqb c sep then EmptyString
      else String c (hasta_primero sep s')
  end.

(** [xs[0]] and [xs[-1]], which raise IndexError on the empty list. *)
Definition elem_0 (xs : list string) : error + string :=
  match xs with x :: _ => inr x | [] => inl IndexError end.
Definition elem_m1 (xs : list string) : error + string :=
  match rev xs with x :: _ => inr x | [] => inl IndexError end.

Definition asunto_de (lineas : list string) : string :=
  match lineas with
  | [] => EmptyString
  | l0 :: _ =>
      if startswith "subject:" (lower l0)
      then strip (tras_primero (ascii_of_nat 58) l0)
      else strip l0
  end.

(** r"From:\s*([^\n]+)" and r"Name:\s*([^\n]+)", re.I *)
Definition patron_from : regex :=
  (Lit true "From:" >> Star isspace >> Grp (Plus c_no_nl))%re.
Definition patron_name : regex :=
  (Lit true "Name:" >> Star isspace >> Grp (Plus c_no_nl))%re.
(** r"([^\-]+)-\s*METROTEL", re.I *)
Definition patron_metrotel : regex :=
  (Grp (Plus c_no_guion) >> Lit true "-" >> Star isspace
   >> Lit true "METROTEL")%re.
(** r"SWX\d{7}", r"CRT-\d{6}", r"ID\w+", r"\b\d+\b" *)
Definition patron_swx : regex := (Lit false "SWX" >> Rep 7 isdigit_c)%re.
Definition patron_crt : regex := (Lit false "CRT-" >> Rep 6 isdigit_c)%re.
Definition patron_id : regex := (Lit false "ID" >> Plus isword_c)%re.
Definition patron_num : regex := (Bnd >> Plus isdigit_c >> Bnd)%re.

(** The carrier read from the sender line, if there is one. *)
Definition carrier_de_remitente (texto : string) : error + option string :=
  let m :=
    match search patron_from texto with
    | Some h => Some h
    | None => search patron_name texto
    end in
  match m with
  | None => inr None
  | Some h =>
      let parte := strip (grupo1 h) in
      match elem_m1 (split_ws EmptyString parte) with
      | inl e => inl e
      | inr ult =>
          let correo := strip_angulos ult in
          match detectar_carrier_por_remitente correo with
          | Some carrier_rem => inr (Some carrier_rem)
          | None =>
              if contiene "@" correo then
                match elem_0 (split_ws EmptyString
                                (hasta_primero (ascii_of_nat 64) correo)) with
                | inl e => inl e
                | inr c => inr (Some c)
                end
              else inr None
          end
      end
  end.

Definition carrier_de_asunto (asunto : string) : error + option string :=
  match match_ patron_metrotel asunto with
  | None => inr None
  | Some h =>
      match elem_0 (split_ws EmptyString (strip (grupo1 h))) with
      | inl e => inl e
      | inr c => inr (Some c)
      end
  end.

Definition _detectar_datos_correo (texto : string) : error + detectados :=
  let asunto := asunto_de (splitlines texto) in
  match carrier_de_remitente texto with
  | inl e => inl e
  | inr c1 =>
      let r :=
        if negb (cierto c1) && negb (vacia asunto) then
          match carrier_de_asunto asunto with
          | inl e => inl e
          | inr (Some c) => inr (Some c)
          | inr None => inr c1
          end
        else inr c1 in
      match r with
      | inl e => inl e
      | inr carrier =>
          let carrier_norm :=
            upper (match carrier with Some c => c | None => EmptyString end) in
          let '(id_pat, srv_pat) :=
            if String.eqb carrier_norm "TELXIUS"
            then (patron_swx, patron_crt)
            else (patron_id, patron_num) in
          inr (Detectados
                 carrier
                 (option_map consumido (search id_pat texto))
                 (findall srv_pat texto)
                 (if contiene "EMERGENCY" (upper asunto)
                  then "Emergencia" else "Programada"))
      end
  end.

(** *** Identifier filter of [procesar_correo_a_tarea] *)

(** r"\d{4}" *)
Definition patron_4 : regex := Rep 4 isdigit_c.

(** The loop of the TELXIUS branch. *)
Fixpoint filtrar_telxius (ids_brutos : list string)
  : list string * list string :=
  match ids_brutos with
  | [] => ([], [])
  | i :: r =>
      let '(ids_filtrados, descartados) := filtrar_telxius r in
      if hay (fullmatch patron_crt i)
      then (i :: ids_filtrados, descartados)
      else (ids_filtrados, i :: descartados)
  end.

(** The loop of the other branch. *)
Fixpoint filtrar_general (ids_brutos : list string)
  : list string * list string :=
  match ids_brutos with
  | [] => ([], [])
  | i :: r =>
      let '(ids_filtrados, descartados) := filtrar_general r in
      if hay (fullmatch patron_4 i) then (ids_filtrados, i :: descartados)
      else if isdigit i && (String.length i <? 6)
           then (ids_filtrados, i :: descartados)
           else (i :: ids_filtrados, descartados)
  end.

(** [carrier_nombre and carrier_nombre.upper() == "TELXIUS"] *)
Definition es_telxius (carrier_nombre : option string) : bool :=
  match carrier_nombre with
  | Some c => negb (vacia c) && String.eqb (upper c) "TELXIUS"
  | None => false
  end.

(** Returns [(ids_filtrados, descartados)]. *)
Definition filtrar_ids (carrier_nombre : option string)
           (ids_brutos : list string) : list string * list string :=
  if es_telxius carrier_nombre then filtrar_telxius ids_brutos
  else filtrar_general ids_brutos.

End EmailUtils.

(** ** Dates: [datetime.strptime] on the formats of [_parse_fecha]

    [strptime] turns the format into a pattern (a run of white space
    becomes [\s+], a directive becomes a group, the rest is literal, all
    under re.I), takes the first match at the start of the text, refuses it
    when text remains, and builds the date, which refuses a day the month
    does not have. *)

Module Fechas.
Import Py Re.

(** The fields of a [datetime] apart from [tzinfo]: a naive [datetime],
    and what a column without time zone holds. *)
Record datetime : Type := Datetime
  { year : Z; month : Z; day : Z;
    hour : Z; minute : Z; second : Z; microsecond : Z }.

(** A [datetime] with its [tzinfo]: [utcoffset] is [None] for a naive value
    and, for an aware one, the offset from UTC of its fixed time zone, in
    microseconds.  [strptime] with the formats of the code gives naive
    values; [fromisoformat] gives an aware one when the text ends in an
    offset. *)
Record fechahora : Type := FechaHora
  { campos : datetime; utcoffset : option Z }.

Definition naive (dt : datetime) : fechahora := FechaHora dt None.

Definition rango (a b : nat) : ascii -> bool := entre (48 + a) (48 + b).
Definition dig : ascii -> bool := isdigit_c.

(** The patterns of the directives. *)
Definition directiva (d : ascii) : regex :=
  (if es 100 d then      (* %d   3[0-1]|[1-2]\d|0[1-9]|[1-9]| [1-9] *)
     (Lit false "3" >> Cls (rango 0 1)) <|> (Cls (rango 1 2) >> Cls dig)
     <|> (Lit false "0" >> Cls (rango 1 9)) <|> Cls (rango 1 9)
     <|> (Lit false " " >> Cls (rango 1 9))
   else if es 72 d then  (* %H   2[0-3]|[0-1]\d|\d *)
     (Lit false "2" >> Cls (rango 0 3)) <|> (Cls (rango 0 1) >> Cls dig)
     <|> Cls dig
   else if es 77 d then  (* %M   [0-5]\d|\d *)
     (Cls (rango 0 5) >> Cls dig) <|> Cls dig
   else if es 83 d then  (* %S   6[0-1]|[0-5]\d|\d *)
     (Lit false "6" >> Cls (rango 0 1)) <|> (Cls (rango 0 5) >> Cls dig)
     <|> Cls dig
   else if es 109 d then (* %m   1[0-2]|0[1-9]|[1-9] *)
     (Lit false "1" >> Cls (rango 0 2)) <|> (Lit false "0" >> Cls (rango 1 9))
     <|> Cls (rango 1 9)
   else if es 89 d then  (* %Y   \d\d\d\d *)
     Rep 4 dig
   else Cls (fun _ => false))%re.

(** The pattern of a format, and its directives from left to right. *)
Fixpoint patron_de_formato (tras_blanco : bool) (fmt : string) : regex :=
  match fmt with
  | EmptyString => Lit false EmptyString
  | String c fmt' =>
      if es 37 c then
        match fmt' with
        | EmptyString => Cls (fun _ => false)
        | String d fmt'' =>
            (Grp (directiva d) >> patron_de_formato false fmt'')%re
        end
      else if isspace c then
        if tras_blanco then patron_de_formato true fmt'
        else (Plus isspace >> patron_de_formato true fmt')%re
      else (Lit true (String c EmptyString) >> patron_de_formato false fmt')%re
  end.

Fixpoint directivas (fmt : string) : list ascii :=
  match fmt with
  | EmptyString => []
  | String c fmt' =>
      if es 37 c then
        match fmt' with
        | EmptyString => []
        | String d fmt'' => d :: directivas fmt''
        end
      else directivas fmt'
  end.

(** The value found for a directive, or the default. *)
Fixpoint valor_de (d : nat) (ds : list ascii) (gs : list string) (def : Z)
  : Z :=
  match ds, gs with
  | d' :: ds', g :: gs' =>
      if es d d' then int (strip g) else valor_de d ds' gs' def
  | _, _ => def
  end.

Definition bisiesto (y : Z) : bool :=
  ((y mod 4 =? 0) && (negb (y mod 100 =? 0) || (y mod 400 =? 0)))%Z.

Definition dias_del_mes (y m : Z) : Z :=
  (if m =? 2 then (if bisiesto y then 29 else 28)
   else if (m =? 4) || (m =? 6) || (m =? 9) || (m =? 11) then 30
   else 31)%Z.

(** The checks of the [datetime] constructor. *)
Definition valida (dt : datetime) : bool :=
  ((1 <=? year dt) && (year dt <=? 9999)
   && (1 <=? month dt) && (month dt <=? 12)
   && (1 <=? day dt) && (day dt <=? dias_del_mes (year dt) (month dt))
   && (0 <=? hour dt) && (hour dt <=? 23)
   && (0 <=? minute dt) && (minute dt <=? 59)
   && (0 <=? second dt) && (second dt <=? 59)
   && (0 <=? microsecond dt) && (microsecond dt <=? 999999))%Z.

(** [datetime.strptime(valor, fmt)]; [None] is ValueError. *)
Definition strptime (valor fmt : string) : option datetime :=
  match match_ (patron_de_formato false fmt) valor with
  | None => None
  | Some h =>
      if negb (vacia (resto h)) then None
      else
        let ds := directivas fmt in
        let gs := grupos h in
        let dt := Datetime (valor_de 89 ds gs 1900) (valor_de 109 ds gs 1)
                           (valor_de 100 ds gs 1) (valor_de 72 ds gs 0)
                           (valor_de 77 ds gs 0) (valor_de 83 ds gs 0) 0 in
        if valida dt then Some dt else None
  end.

(** [dt.replace(year=y)]; [None] is ValueError. *)
Definition replace_year (dt : datetime) (y : Z) : option datetime :=
  let dt' := Datetime y (month dt) (day dt) (hour dt) (minute dt)
                      (second dt) (microsecond dt) in
  if valida dt' then Some dt' else None.

Definition formatos : list string :=
  [ "%Y-%m-%d %H:%M";
    "%Y-%m-%d %H:%M:%S";
    "%d/%m/%Y %H:%M";
    "%d/%m/%Y %H:%M:%S";
    "%d/%m %H:%M";
    "%d/%m %H:%M:%S" ].

(** [valor.replace("T", " ")] *)
Definition t_a_blanco (c : ascii) : ascii :=
  if es 84 c then ascii_of_nat 32 else c.

(** Comparison of naive datetimes: field by field. *)
Definition tupla (dt : datetime) : list Z :=
  [year dt; month dt; day dt; hour dt; minute dt; second dt; microsecond dt].

Fixpoint lex_ltb (a b : list Z) : bool :=
  match a, b with
  | x :: a', y :: b' => (x <? y)%Z || ((x =? y)%Z && lex_ltb a' b')
  | [], _ :: _ => true
  | _, [] => false
  end.

Definition dt_ltb (a b : datetime) : bool := lex_ltb (tupla a) (tupla b).
(** [a >= b] *)
Definition dt_geb (a b : datetime) : bool := negb (dt_ltb a b).

(** The days before the first of January of the year [y], and before the
    first of the month [m] within it. *)
Definition dias_antes_del_anio (y : Z) : Z :=
  (let a := y - 1 in a * 365 + a / 4 - a / 100 + a / 400)%Z.

Definition dias_antes_del_mes (y m : Z) : Z :=
  fold_right (fun k n => (dias_del_mes y (Z.of_nat k) + n)%Z) 0%Z
             (seq 1 (Z.to_nat (m - 1))).

(** The microseconds from the start of the calendar to the wall-clock time
    [dt]. *)
Definition micros (dt : datetime) : Z :=
  (((((dias_antes_del_anio (year dt) + dias_antes_del_mes (year dt) (month dt)
       + day dt) * 24 + hour dt) * 60 + minute dt) * 60 + second dt)
   * 1000000 + microsecond dt)%Z.

(** [a >= b].  Two naive values are compared field by field, and so are
    two aware ones with the same offset; two aware ones with different
    offsets are compared as instants (the wall-clock time less the offset);
    a naive value against an aware one raises TypeError, which is [None]. *)
Definition ge (a b : fechahora) : option bool :=
  match utcoffset a, utcoffset b with
  | None, None => Some (dt_geb (campos a) (campos b))
  | Some oa, Some ob =>
      if (oa =? ob)%Z then Some (dt_geb (campos a) (campos b))
      else Some (micros (campos b) - ob <=? micros (campos a) - oa)%Z
  | _, _ => None
  end.

Section ParseFecha.

(** [datetime.fromisoformat], of the standard library, taken as given;
    [None] is its ValueError. *)
Variable fromisoformat : string -> option fechahora.
(** [datetime.now().year] *)
Variable anio_actual : Z.

(** The loop of [_parse_fecha] over the formats. *)
Fixpoint probar_formatos (fmts : list string) (valor : string)
  : option fechahora :=
  match fmts with
  | [] => fromisoformat valor
  | fmt :: fmts' =>
      match strptime valor fmt with
      | Some dt =>
          if negb (contiene "%Y" fmt) then
            match replace_year dt anio_actual with
            | Some dt' => Some (naive dt')
            | None => probar_formatos fmts' valor
            end
          else Some (naive dt)
      | None => probar_formatos fmts' valor
      end
  end.

Definition _parse_fecha (valor : string) : option fechahora :=
  probar_formatos formatos (strip (smap t_a_blanco valor)).

End ParseFecha.

End Fechas.

(** ** [sandybot/database.py]: the tables and the task upsert

    A table is the list of its rows in the order the store returns them
    to a query without ORDER BY, with the sequence that numbers new rows.
    The constraints declared by the models (the unique constraints
    [uix_carrier_interno] and [uix_tarea_servicio], the foreign keys) are
    checked when a row is inserted and raise IntegrityError; the
    transaction is then rolled back.  For the tables of this module the
    sequence values used by a rolled back insert are not tracked. *)

Module Database.
Import Py Fechas.

Record Cliente : Type := MkCliente
  { cli_id : Z; cli_nombre : string }.

Record Carrier : Type := MkCarrier
  { car_id : Z; car_nombre : string }.

(** Of [Servicio], the columns the pipeline reads or writes. *)
Record Servicio : Type := MkServicio
  { srv_id : Z;
    srv_carrier : option string;
    srv_id_carrier : option string;
    srv_carrier_id : option Z }.

Record TareaProgramada : Type := MkTarea
  { tp_id : Z;
    fecha_inicio : datetime;
    fecha_fin : datetime;
    tipo_tarea : string;
    tiempo_afectacion : option string;
    descripcion : option string;
    carrier_id : option Z;
    id_interno : option string }.

Record TareaServicio : Type := MkTareaServicio
  { ts_id : Z; tarea_id : Z; servicio_id : Z }.

Record ServicioPendiente : Type := MkPendiente
  { sp_id : Z; sp_tarea_id : Z; sp_id_carrier : string }.

Record base : Type := MkBase
  { clientes : list Cliente;
    carriers : list Carrier;
    servicios : list Servicio;
    tareas_programadas : list TareaProgramada;
    tareas_servicio : list TareaServicio;
    servicios_pendientes : list ServicioPendiente;
    sec_clientes : Z;
    sec_carriers : Z;
    sec_tareas : Z;
    sec_tareas_servicio : Z;
    sec_pendientes : Z }.

Definition con_clientes (b : base) (x : list Cliente) (n : Z) : base :=
  MkBase x (carriers b) (servicios b) (tareas_programadas b)
         (tareas_servicio b) (servicios_pendientes b)
         n (sec_carriers b) (sec_tareas b) (sec_tareas_servicio b)
         (sec_pendientes b).
Definition con_carriers (b : base) (x : list Carrier) (n : Z) : base :=
  MkBase (clientes b) x (servicios b) (tareas_programadas b)
         (tareas_servicio b) (servicios_pendientes b)
         (sec_clientes b) n (sec_tareas b) (sec_tareas_servicio b)
         (sec_pendientes b).
Definition con_servicios (b : base) (x : list Servicio) : base :=
  MkBase (clientes b) (carriers b) x (tareas_programadas b)
         (tareas_servicio b) (servicios_pendientes b)
         (sec_clientes b) (sec_carriers b) (sec_tareas b)
         (sec_tareas_servicio b) (sec_pendientes b).
Definition con_tareas (b : base) (x : list TareaProgramada) (n : Z) : base :=
  MkBase (clientes b) (carriers b) (servicios b) x
         (tareas_servicio b) (servicios_pendientes b)
         (sec_clientes b) (sec_carriers b) n (sec_tareas_servicio b)
         (sec_pendientes b).
Definition con_enlaces (b : base) (x : list TareaServicio) (n : Z) : base :=
  MkBase (clientes b) (carriers b) (servicios b) (tareas_programadas b)
         x (servicios_pendientes b)
         (sec_clientes b) (sec_carriers b) (sec_tareas b) n
         (sec_pendientes b).
Definition con_pendientes (b : base) (x : list ServicioPendiente) (n : Z)
  : base :=
  MkBase (clientes b) (carriers b) (servicios b) (tareas_programadas b)
         (tareas_servicio b) x
         (sec_clientes b) (sec_carriers b) (sec_tareas b)
         (sec_tareas_servicio b) n.

Definition eq_oZ (a b : option Z) : bool :=
  match a, b with
  | Some x, Some y => (x =? y)%Z
  | _, _ => false
  end.
Definition eq_os (a b : option string) : bool :=
  match a, b with
  | Some x, Some y => String.eqb x y
  | _, _ => false
  end.

(** Python truth of [int | None] and of [str | None]. *)
Definition cierto_Z (x : option Z) : bool :=
  match x with Some n => negb (n =? 0)%Z | None => false end.
Definition cierto_s (x : option string) : bool :=
  match x with Some s => negb (vacia s) | None => false end.

(** [session.get(Servicio, n)] *)
Definition get_servicio (b : base) (n : Z) : option Servicio :=
  find (fun s => (srv_id s =? n)%Z) (servicios b).

(** [session.query(Servicio).filter(Servicio.id_carrier == x).first()].
    The query has no ORDER BY and [id_carrier] is not unique: when several
    services have the code, the store chooses the row, and the order of
    the list stands for its choice at the time of the query.  After an
    UPDATE the store may choose otherwise; what is proved of two runs in a
    row is proved for every order of the services. *)
Definition servicio_por_id_carrier (b : base) (x : string)
  : option Servicio :=
  find (fun s => eq_os (srv_id_carrier s) (Some x)) (servicios b).

(** The rows [filter(carrier_id == c, id_interno == i)] selects. *)
Definition misma_clave (c : option Z) (i : option string)
           (t : TareaProgramada) : bool :=
  eq_oZ (carrier_id t) c && eq_os (id_interno t) i.

(** Foreign keys. *)
Definition existe_carrier (b : base) (c : option Z) : bool :=
  match c with
  | None => true
  | Some n => existsb (fun x => (car_id x =? n)%Z) (carriers b)
  end.
Definition existe_servicio (b : base) (n : Z) : bool :=
  existsb (fun s => (srv_id s =? n)%Z) (servicios b).
Definition existe_tarea (b : base) (n : Z) : bool :=
  existsb (fun t => (tp_id t =? n)%Z) (tareas_programadas b).

(** [list(dict.fromkeys(servicios))]: the keys of a dictionary filled from
    left to right; a key that is already there keeps its place. *)
Fixpoint fromkeys (claves : list Z) (xs : list Z) : list Z :=
  match xs with
  | [] => claves
  | x :: xs' =>
      fromkeys (if existsb (Z.eqb x) claves then claves else claves ++ [x]) xs'
  end.

Definition sin_repetir (servicios : list Z) : list Z := fromkeys [] servicios.

(** The lookup of the upsert: only when both parts of the key are true. *)
Definition buscar_tarea (carrier_id : option Z) (id_interno : option string)
           (b : base) : option TareaProgramada :=
  if cierto_Z carrier_id && cierto_s id_interno
  then find (misma_clave carrier_id id_interno) (tareas_programadas b)
  else None.

Section Upsert.

Variables (fecha_inicio' fecha_fin' : datetime) (tipo_tarea' : string)
          (servicios' : list Z) (carrier_id' : option Z)
          (tiempo_afectacion' descripcion' id_interno' : option string).

(** The assignments of the update branch. *)
Definition actualizada (t : TareaProgramada) : TareaProgramada :=
  MkTarea (tp_id t) fecha_inicio' fecha_fin' tipo_tarea' tiempo_afectacion'
          descripcion' (carrier_id t) (id_interno t).

(** First commit: the task row is updated or inserted. *)
Definition guardar_tarea (hallada : option TareaProgramada)
  : M base (TareaProgramada * bool) :=
  fun b =>
    match hallada with
    | Some tarea =>
        (con_tareas b
           (map (fun t => if (tp_id t =? tp_id tarea)%Z
                          then actualizada t else t)
                (tareas_programadas b))
           (sec_tareas b),
         inr (actualizada tarea, false))
    | None =>
        let tarea :=
          MkTarea (sec_tareas b) fecha_inicio' fecha_fin' tipo_tarea'
                  tiempo_afectacion' descripcion' carrier_id' id_interno' in
        if existe_carrier b carrier_id'
           && negb (existsb (misma_clave carrier_id' id_interno')
                            (tareas_programadas b))
        then (con_tareas b (tareas_programadas b ++ [tarea])
                         (sec_tareas b + 1)%Z,
              inr (tarea, true))
        else (b, inl IntegrityError)
    end.

(** The rows [bulk_save_objects] inserts, numbered from [n]. *)
Fixpoint relaciones (n : Z) (tarea : Z) (sids : list Z)
  : list TareaServicio :=
  match sids with
  | [] => []
  | sid :: sids' =>
      MkTareaServicio n tarea sid :: relaciones (n + 1)%Z tarea sids'
  end.

Definition choca_enlace (ls : list TareaServicio) (l : TareaServicio)
  : bool :=
  existsb (fun x => (tarea_id x =? tarea_id l)%Z
                    && (servicio_id x =? servicio_id l)%Z) ls.

(** Every row of [nuevas] can be added to [ls]. *)
Fixpoint admite (b : base) (ls nuevas : list TareaServicio) : bool :=
  match nuevas with
  | [] => true
  | l :: nuevas' =>
      existe_tarea b (tarea_id l) && existe_servicio b (servicio_id l)
      && negb (choca_enlace ls l) && admite b (ls ++ [l]) nuevas'
  end.

(** Second commit: the links of the task are replaced. *)
Definition reemplazar_enlaces (tarea : TareaProgramada) : M base unit :=
  fun b =>
    let sids := sin_repetir servicios' in
    let quedan :=
      filter (fun l => negb (tarea_id l =? tp_id tarea)%Z)
             (tareas_servicio b) in
    let nuevas := relaciones (sec_tareas_servicio b) (tp_id tarea) sids in
    if admite b quedan nuevas
    then (con_enlaces b (quedan ++ nuevas)
                      (sec_tareas_servicio b + Z.of_nat (List.length sids))%Z,
          inr tt)
    else (b, inl IntegrityError).

(** The part of [crear_tarea_programada] after the lookup. *)
Definition guardar (hallada : option TareaProgramada)
  : M base (TareaProgramada * bool) :=
  (r <- guardar_tarea hallada ;;
   reemplazar_enlaces (fst r) ;;;
   ret r)%m.

Definition crear_tarea_programada : M base (TareaProgramada * bool) :=
  fun b => guardar (buscar_tarea carrier_id' id_interno' b) b.

End Upsert.

Definition crear_servicio_pendiente (id_carrier : string) (tarea_id : Z)
  : M base ServicioPendiente :=
  fun b =>
    let pendiente := MkPendiente (sec_pendientes b) tarea_id id_carrier in
    if existe_tarea b tarea_id
    then (con_pendientes b (servicios_pendientes b ++ [pendiente])
                         (sec_pendientes b + 1)%Z,
          inr pendiente)
    else (b, inl IntegrityError).

Definition obtener_cliente_por_nombre (nombre : string) (b : base)
  : option Cliente :=
  find (fun c => String.eqb (cli_nombre c) nombre) (clientes b).

(** The links of a task, as service ids in the order of the table. *)
Definition enlaces_de (b : base) (tarea : Z) : list Z :=
  map servicio_id
      (filter (fun l => (tarea_id l =? tarea)%Z) (tareas_servicio b)).

Definition base_vacia : base :=
  MkBase [] [] [] [] [] [] 1 1 1 1 1.

End Database.

(** ** The completion service behind [gpt.consultar_gpt] *)

Module Gpt.

(** The handler's state: the number of requests sent to the external
    completion service, and the answers it keeps. *)
Record estado : Type := MkEstado
  { llamadas : nat; cache : list (string * string) }.

Definition inicial : estado := MkEstado 0 [].

Fixpoint en_cache (prompt : string) (c : list (string * string))
  : option string :=
  match c with
  | [] => None
  | (p, r) :: c' => if String.eqb p prompt then Some r else en_cache prompt c'
  end.

Section Handler.

(** The external completion service: what it answers to the request
    number [n] with the given prompt; [None] when the request fails. *)
Variable servicio : nat -> string -> option string.

(** Modelled from the spec: [gpt_handler.consultar_gpt] is not among the
    sources.  The boundary is [complete(prompt, cache) -> string]; with the
    cache on, a prompt answered before is answered from the cache without a
    request (what tests/test_gpt_cache.py checks); with the cache off every
    call sends a request and the answer is not kept. *)
Definition consultar_gpt (prompt : string) (usar_cache : bool) (g : estado)
  : estado * option string :=
  let pedir (guardar : bool) :=
    let r := servicio (llamadas g) prompt in
    (MkEstado (S (llamadas g))
              (match r with
               | Some x => if guardar then (prompt, x) :: cache g else cache g
               | None => cache g
               end),
     r) in
  if usar_cache then
    match en_cache prompt (cache g) with
    | Some r => (g, Some r)
    | None => pedir true
    end
  else pedir false.

End Handler.

End Gpt.

(** ** [procesar_correo_a_tarea] *)

Module Pipeline.
Import Py Re EmailUtils Fechas Database.

Record mundo : Type := MkMundo { bd : base; gpt : Gpt.estado }.

(** What the function returns without [generar_msg]: the task, the flag
    [creada_nueva] and the pending identifiers. *)
Definition resultado : Type := (TareaProgramada * bool * list string)%type.

Definition ch (n : nat) : string := String (ascii_of_nat n) EmptyString.
Definition comillas : string := ch 34.

Definition err_extraccion : error :=
  ValueError "No se pudo extraer la tarea del correo".
Definition err_formato : error :=
  ValueError ("Fechas con formato inv" ++ ch 225 ++ "lido").
Definition err_rango : error :=
  ValueError "La fecha de inicio debe ser anterior al fin".

Definition q (s : string) : string := (comillas ++ s ++ comillas)%string.

Definition ejemplo : string :=
  ("Ejemplo correo:" ++ nl
   ++ "Inicio: 02/01/2024 08:00" ++ nl
   ++ "Fin: 02/01/2024 10:00" ++ nl
   ++ "Trabajo: Actualizaci" ++ ch 243 ++ "n de equipos" ++ nl
   ++ "Servicios: 76208, 78333" ++ nl
   ++ nl ++ "Respuesta esperada:" ++ nl
   ++ "{" ++ q "inicio" ++ ": " ++ q "2024-01-02 08:00" ++ ", "
   ++ q "fin" ++ ": " ++ q "2024-01-02 10:00" ++ ", "
   ++ q "tipo" ++ ": " ++ q ("Actualizaci" ++ ch 243 ++ "n de equipos")
   ++ ", " ++ q "afectacion" ++ ": null, "
   ++ q "descripcion" ++ ": null, " ++ q "ids" ++ ": ["
   ++ q "76208" ++ ", " ++ q "78333" ++ "]}")%string.

Definition prompt (texto_limpio : string) : string :=
  ("Sos un analista que extrae datos de mantenimientos programados. "
   ++ "Devolv" ++ ch 233 ++ " " ++ ch 250
   ++ "nicamente un JSON con las claves inicio, fin, tipo, "
   ++ "afectacion, descripcion e ids (lista de servicios)." ++ nl ++ nl
   ++ ejemplo ++ nl ++ nl ++ "Correo:" ++ nl ++ texto_limpio)%string.

Definition prompt_2 (texto_limpio : string) : string :=
  ("Devuelveme " ++ ch 218
   ++ "NICAMENTE el JSON (sin ``` ni explicaciones) con las "
   ++ "claves inicio, fin, tipo, afectacion, descripcion, ids." ++ nl ++ nl
   ++ "Correo:" ++ nl ++ texto_limpio)%string.

(** r"\{.*\}", re.S *)
Definition patron_json : regex :=
  (Lit false "{" >> Star cualquiera >> Lit false "}")%re.

(** r"carrier[:\s-]+([^\n\r]+)", re.I *)
Definition patron_carrier : regex :=
  (Lit true "carrier" >> Plus c_sep >> Grp (Plus c_no_nl_cr))%re.

Section Entorno.

(** The external completion service (see [Gpt]). *)
Variable servicio : nat -> string -> option string.
(** [gpt.procesar_json_response(texto, esquema)], which is not among the
    sources: it decodes the JSON text and validates it against the schema
    (inicio, fin, tipo and ids required); [None] stands for a rejected text,
    whether the method returns nothing or raises. *)
Variable procesar_json_response : string -> option datos.
(** [datetime.fromisoformat] and [datetime.now().year]. *)
Variable fromisoformat : string -> option fechahora.
Variable anio_actual : Z.
(** The database session: the columns of the dates have no time zone, and
    of an aware value with the fields [dt] and the offset [o] they keep
    [hora_local dt o], the wall-clock time of that instant in the time zone
    of the session. *)
Variable hora_local : datetime -> Z -> datetime.

(** What the column keeps of a date, and what the refreshed row gives
    back. *)
Definition a_columna (x : fechahora) : datetime :=
  match utcoffset x with
  | None => campos x
  | Some o => hora_local (campos x) o
  end.

Definition validar (json : string) : error + datos :=
  match procesar_json_response json with
  | Some d => inr d
  | None => inl err_extraccion
  end.

(** The block [try: if not datos: ...] of the pipeline: the fallback
    extractor, which runs only when the regex extractor gave nothing. *)
Definition extraer (texto_limpio : string) (datos_regex : option datos)
  : M Gpt.estado datos :=
  fun g =>
    match datos_regex with
    | Some d => (g, inr d)
    | None =>
        match Gpt.consultar_gpt servicio (prompt texto_limpio) false g with
        | (g1, None) => (g1, inl err_extraccion)
        | (g1, Some respuesta) =>
            match search patron_json respuesta with
            | Some m => (g1, validar (consumido m))
            | None =>
                match Gpt.consultar_gpt servicio (prompt_2 texto_limpio)
                                        false g1 with
                | (g2, None) => (g2, inl err_extraccion)
                | (g2, Some respuesta_2) =>
                    match search patron_json respuesta_2 with
                    | Some m => (g2, validar (consumido m))
                    | None => (g2, inl err_extraccion)
                    end
                end
            end
        end
    end.

(** Parsing and validation of the two dates.  The comparison
    [inicio >= fin] stands outside the [try] blocks: its TypeError is not
    turned into a ValueError. *)
Definition fechas (d : datos) : error + (fechahora * fechahora) :=
  match _parse_fecha fromisoformat anio_actual (EmailUtils.inicio d),
        _parse_fecha fromisoformat anio_actual (EmailUtils.fin d) with
  | Some i, Some f =>
      match ge i f with
      | None => inl TypeError
      | Some true => inl err_rango
      | Some false => inr (i, f)
      end
  | _, _ => inl err_formato
  end.

(** One turn of the resolution loop. *)
Definition resolver_ident (b : base) (ident : string) : option Servicio :=
  let srv := if isdigit ident then get_servicio b (int ident) else None in
  let srv :=
    match srv with
    | Some s => Some s
    | None => servicio_por_id_carrier b ident
    end in
  match srv with
  | Some s => Some s
  | None =>
      let ident_dig := filter_s isdigit_c ident in
      if negb (vacia ident_dig) then
        let srv :=
          if isdigit ident_dig then get_servicio b (int ident_dig)
          else None in
        match srv with
        | Some s => Some s
        | None => servicio_por_id_carrier b ident_dig
        end
      else None
  end.

(** The resolution loop: [(servicios, ids_pendientes)]. *)
Fixpoint resolver (b : base) (ids_brutos : list string)
  : list Servicio * list string :=
  match ids_brutos with
  | [] => ([], [])
  | ident :: r =>
      let '(servicios, ids_pendientes) := resolver b r in
      match resolver_ident b ident with
      | Some srv => (srv :: servicios, ids_pendientes)
      | None => (servicios, ident :: ids_pendientes)
      end
  end.

Definition cliente_o_nuevo (cliente_nombre : string) : M base Cliente :=
  fun b =>
    match obtener_cliente_por_nombre cliente_nombre b with
    | Some c => (b, inr c)
    | None =>
        let c := MkCliente (sec_clientes b) cliente_nombre in
        (con_clientes b (clientes b ++ [c]) (sec_clientes b + 1)%Z, inr c)
    end.

Definition carrier_o_nuevo (carrier_nombre : option string)
  : M base (option Carrier) :=
  fun b =>
    match carrier_nombre with
    | Some nombre =>
        if vacia nombre then (b, inr None)
        else
          match find (fun c => String.eqb (car_nombre c) nombre)
                     (carriers b) with
          | Some c => (b, inr (Some c))
          | None =>
              let c := MkCarrier (sec_carriers b) nombre in
              (con_carriers b (carriers b ++ [c]) (sec_carriers b + 1)%Z,
               inr (Some c))
          end
    | None => (b, inr None)
    end.

(** [srv.carrier_id = carrier.id; srv.carrier = carrier.nombre] for every
    resolved service, then the commit. *)
Definition reasignar (carrier : option Carrier) (resueltos : list Servicio)
  : M base unit :=
  fun b =>
    match carrier with
    | None => (b, inr tt)
    | Some c =>
        (con_servicios b
           (map (fun s =>
                   if existsb (fun r => (srv_id r =? srv_id s)%Z) resueltos
                   then MkServicio (srv_id s) (Some (car_nombre c))
                                   (srv_id_carrier s) (Some (car_id c))
                   else s)
                (servicios b)),
         inr tt)
    end.

Fixpoint crear_pendientes (tokens : list string) (tarea : Z) : M base unit :=
  match tokens with
  | [] => ret tt
  | token :: r =>
      (crear_servicio_pendiente token tarea ;;;
       crear_pendientes r tarea)%m
  end.

(** The block [with SessionLocal() as session:] of the pipeline. *)
Definition registrar (cliente_nombre : string)
           (carrier_nombre : option string) (inicio fin : datetime)
           (tipo : string) (ids_brutos : list string)
           (id_interno afectacion descripcion : option string)
  : M base resultado :=
  (_ <- cliente_o_nuevo cliente_nombre ;;
   carrier <- carrier_o_nuevo carrier_nombre ;;
   b <- get ;;
   let '(servicios, ids_pendientes) := resolver b ids_brutos in
   r <- crear_tarea_programada inicio fin tipo (map srv_id servicios)
          (option_map car_id carrier) afectacion descripcion id_interno ;;
   reasignar carrier servicios ;;;
   crear_pendientes ids_pendientes (tp_id (fst r)) ;;;
   ret (fst r, snd r, ids_pendientes))%m.

Definition o_si_no (a b : option string) : option string :=
  if cierto a then a else b.

Definition en_gpt {A : Type} (m : M Gpt.estado A) : M mundo A :=
  fun w =>
    let '(g, r) := m (gpt w) in (MkMundo (bd w) g, r).

Definition en_bd {A : Type} (m : M base A) : M mundo A :=
  fun w =>
    let '(b, r) := m (bd w) in (MkMundo b (gpt w), r).

Definition elevar {A : Type} (r : error + A) : M mundo A :=
  fun w => (w, r).

Definition procesar_correo_a_tarea (texto cliente_nombre : string)
           (carrier_nombre : option string) : M mundo resultado :=
  let texto_limpio := _limpiar_correo texto in
  (datos_detectados <- elevar (_detectar_datos_correo texto_limpio) ;;
   let carrier_nombre :=
     if cierto carrier_nombre then carrier_nombre
     else d_carrier datos_detectados in
   let datos_regex := _extraer_por_regex texto_limpio in
   let carrier_nombre :=
     if cierto carrier_nombre then carrier_nombre
     else
       match search patron_carrier texto_limpio with
       | Some m => Some (strip (grupo1 m))
       | None => carrier_nombre
       end in
   datos <- en_gpt (extraer texto_limpio datos_regex) ;;
   ' (inicio, fin) <- elevar (fechas datos) ;;
   let tipo :=
     match o_si_no (EmailUtils.tipo datos) (Some (d_tipo datos_detectados)) with
     | Some t => if vacia t then "Programada" else t
     | None => "Programada"
     end in
   let ids_brutos := EmailUtils.ids datos in
   let ids_brutos :=
     ids_brutos
       ++ filter (fun s => negb (existsb (String.eqb s) ids_brutos))
                 (d_ids datos_detectados) in
   let ids_brutos := fst (filtrar_ids carrier_nombre ids_brutos) in
   en_bd (registrar cliente_nombre carrier_nombre (a_columna inicio)
                    (a_columna fin) tipo ids_brutos
                    (d_id_interno datos_detectados)
                    (EmailUtils.afectacion datos)
                    (EmailUtils.descripcion datos)))%m.

End Entorno.

End Pipeline.

(** ** The contracts, in the words of the specification

    Definitions that follow the specification rather than the code; the
    theorems below compare them with the code. *)

Module Spec.
Import Py Re EmailUtils Fechas Database Pipeline.

(** The lines before the first one that satisfies [p]. *)
Fixpoint hasta (p : string -> bool) (ls : list string) : list string :=
  match ls with
  | [] => []
  | l :: r => if p l then [] else l :: hasta p r
  end.

(** A line is blank when nothing but white space is on it. *)
Definition en_blanco (l : string) : bool := vacia (strip l).

(** [frase] occurs in [linea], whatever the case of the letters. *)
Definition contiene_ci (frase linea : string) : bool :=
  contiene (lower frase) (lower linea).

(** The normalizer as the specification states it: the non-blank lines of
    the input before the first line with one of these phrases. *)
Definition frases_dichas : list string :=
  [ "disclaimer"; "confidential"; "aviso legal"; "confidentiality notice" ].

Definition es_aviso_dicho (l : string) : bool :=
  existsb (fun f => contiene_ci f l) frases_dichas
  || hay (search patron_privado l).

Definition normalizador_dicho (texto : string) : string :=
  join nl (hasta es_aviso_dicho
                 (filter (fun l => negb (en_blanco l)) (splitlines texto))).

(** The normalizer as the code has it: the phrase is the Spanish
    "confidencial", and the lines are kept trimmed. *)
Definition frases : list string :=
  [ "disclaimer"; "confidencial"; "aviso legal"; "confidentiality notice" ].

Definition es_aviso (l : string) : bool :=
  existsb (fun f => contiene_ci f l) frases || hay (search patron_privado l).

Definition normalizador (texto : string) : string :=
  join nl (hasta es_aviso
                 (filter (fun l => negb (vacia l))
                         (map strip (splitlines texto)))).

(** The identifier filter as the specification states it. *)

Fixpoint quitar (n : nat) (s : string) : string :=
  match n, s with
  | O, _ => s
  | S _, EmptyString => EmptyString
  | S n', String _ s' => quitar n' s'
  end.

(** "CRT", a dash and six digits, and nothing else. *)
Definition es_crt (i : string) : bool :=
  startswith "CRT-" i && (String.length i =? 10)
  && forallb_s isdigit_c (quitar 4 i).




(** Order-preserving removal of duplicates: the first occurrence of every
    value is kept, at its place. *)
Fixpoint primeras (xs : list Z) : list Z :=
  match xs with
  | [] => []
  | x :: r => x :: filter (fun y => negb (y =? x)%Z) (primeras r)
  end.



(** The resolution of one identifier, step by step as the specification
    lists it. *)




(** What it means for a pattern to match, said without the search: [casa r
    prev c rest] holds when [r] can consume exactly [c] in front of [rest],
    the character before [c] being [prev]. *)
Fixpoint igual (ci : bool) (l c : string) : bool :=
  match l, c with
  | EmptyString, EmptyString => true
  | String a l', String b c' => eq_c ci a b && igual ci l' c'
  | _, _ => false
  end.

Fixpoint casa (r : regex) (prev : option ascii) (c rest : string) : Prop :=
  match r with
  | Lit ci l => igual ci l c = true
  | Cls p => exists a, c = String a EmptyString /\ p a = true
  | Cat r1 r2 =>
      exists c1 c2,
        c = (c1 ++ c2)%string
        /\ casa r1 prev c1 (c2 ++ rest)%string
        /\ casa r2 (ultimo prev c1) c2 rest
  | Alt r1 r2 => casa r1 prev c rest \/ casa r2 prev c rest
  | Opt r1 => casa r1 prev c rest \/ c = EmptyString
  | Star p => forallb_s p c = true
  | Plus p => c <> EmptyString /\ forallb_s p c = true
  | Rep n p => String.length c = n /\ forallb_s p c = true
  | Grp r1 => casa r1 prev c rest
  | Bnd =>
      c = EmptyString
      /\ xorb (es_palabra prev) (es_palabra (primero rest)) = true
  end.

(** The pattern [r] matches somewhere in the text: the well-formed field
    of the fast path is a place where its pattern matches. *)
Definition casa_en (r : regex) (texto : string) : Prop :=
  exists antes c despues : string,
    texto = (antes ++ c ++ despues)%string
    /\ casa r (ultimo None antes) c despues.

(** An identifier of the list: not empty, no white space around it, no
    comma in it. *)
Definition id_limpio (i : string) : Prop :=
  i <> EmptyString /\ strip i = i
  /\ forallb_s (fun c => negb (es 44 c)) i = true.


(** A mail of a run: text, client name, carrier name. *)
Definition correo : Type := (string * string * option string)%type.

(** The run of such a mail reaches the fallback extractor. *)
Definition llega_al_respaldo (c : correo) : Prop :=
  let tl := _limpiar_correo (fst (fst c)) in
  (exists dd, _detectar_datos_correo tl = inr dd)
  /\ _extraer_por_regex tl = None.

Section Seguidos.

Variable servicio : nat -> string -> option string.
Variable procesar_json_response : string -> option datos.
Variable fromisoformat : string -> option fechahora.
Variable anio_actual : Z.
Variable hora_local : datetime -> Z -> datetime.

(** Runs of the pipeline one after the other, whatever each one returns. *)
Fixpoint procesar_seguidos (correos : list correo) (w : mundo) : mundo :=
  match correos with
  | [] => w
  | c :: r =>
      procesar_seguidos r
        (fst (procesar_correo_a_tarea servicio procesar_json_response
                fromisoformat anio_actual hora_local (fst (fst c))
                (snd (fst c))
                (snd c) w))
  end.

End Seguidos.



End Spec.

(** ** Data of the examples *)

Module Ejemplos.
Import Py Re EmailUtils Fechas Database.

Definition nl : string := EmailUtils.nl.

(** One carrier and the services 1 to 4. *)
Definition base_ejemplo : base :=
  MkBase [] [MkCarrier 1 "TELXIUS"]
         [MkServicio 1 None None None; MkServicio 2 None None None;
          MkServicio 3 None None None; MkServicio 4 None None None]
         [] [] [] 1 2 1 1 1.

(** A mail with the three fields of the fast path. *)
Definition correo_campos : string :=
  ("Inicio: 02/01/2024 08:00" ++ nl ++ "Fin: 02/01/2024 10:00" ++ nl
   ++ "Servicios: 76208, 78333")%string.


(** Characters beyond U+007F: NEL, the no-break space, the masculine
    ordinal indicator and n with tilde. *)
Definition nel : string := Pipeline.ch 133.
Definition nbsp : string := Pipeline.ch 160.
Definition ordinal_o : string := Pipeline.ch 186.
Definition enie : string := Pipeline.ch 241.

(** Four lines, cut by LF and by NEL, with a no-break space at the end of
    the first and a line that is only a no-break space. *)
Definition correo_blancos : string :=
  ("a" ++ nbsp ++ nl ++ "b" ++ nel ++ "c" ++ nl ++ nbsp ++ nl ++ "d")%string.

(** The mail with the three fields, a no-break space after "Servicios:". *)
Definition correo_campos_nbsp : string :=
  ("Inicio: 02/01/2024 08:00" ++ nl ++ "Fin: 02/01/2024 10:00" ++ nl
   ++ "Servicios:" ++ nbsp ++ "76208, 78333")%string.

(** A number after the ordinal indicator, and an id with a letter that is
    not of ASCII. *)
Definition correo_letras : string :=
  ("N" ++ ordinal_o ++ "123456 ID" ++ enie ++ "a")%string.

(** A mail without any field. *)
Definition correo_libre : string := "Hola, les avisamos de un trabajo.".

Definition mundo_ejemplo : Pipeline.mundo :=
  Pipeline.MkMundo base_ejemplo Gpt.inicial.

(** Completion services: one that never gives a text between braces, one
    that always gives the same one. *)
Definition servicio_mudo (_ : nat) (_ : string) : option string :=
  Some "No encuentro datos en el correo.".
Definition servicio_fijo (_ : nat) (_ : string) : option string :=
  Some "{}".

Definition sin_json (_ : string) : option datos := None.
Definition sin_iso (_ : string) : option fechahora := None.
(** The examples store naive dates only, so that the conversion of the
    session is never applied; this stands in for it. *)
Definition sin_zona (dt : datetime) (_ : Z) : datetime := dt.

(** [datetime.fromisoformat] at the text "2025-01-02 10:00-03:00": the
    aware date with the offset of three hours west, in microseconds.  The
    examples give it no other text. *)
Definition menos_3h : Z := (-10800000000)%Z.
Definition d_con_zona : fechahora :=
  FechaHora (Datetime 2025 1 2 10 0 0 0) (Some menos_3h).
Definition iso_ejemplo (valor : string) : option fechahora :=
  if String.eqb valor "2025-01-02 10:00-03:00" then Some d_con_zona else None.

(** A mail whose start carries an offset from UTC and whose end does not;
    the start is a year after the end. *)
Definition correo_con_zona : string :=
  ("Inicio: 2025-01-02 10:00-03:00" ++ nl ++ "Fin: 2024-01-02 08:00" ++ nl
   ++ "Servicios: 76208, 78333")%string.

Definition d_0800 : datetime := Datetime 2024 1 2 8 0 0 0.
Definition d_1000 : datetime := Datetime 2024 1 2 10 0 0 0.


End Ejemplos.

(** [.*\}] under re.S: the tail of the pattern of the JSON text. *)
Definition patron_cierre : Re.regex :=
  (Re.Star Re.cualquiera >> Re.Lit false "}")%re.



Definition alguno (l : list Re.alcance) : bool :=
  match l with [] => false | _ :: _ => true end.

(** A text that does not start with white space. *)
Definition no_inicia_blanco (s : string) : Prop :=
  match s with
  | EmptyString => True
  | String c _ => Py.isspace c = false
  end.


(** ** [sandybot/email_utils.py]: the recipients of a client

    Of [Cliente], the columns these functions read or write: the name,
    the list [destinatarios] and the dictionary [destinatarios_carrier],
    both JSON columns that may be NULL.  A dictionary is the list of its entries in
    insertion order. *)

Module Destinatarios.
Import Py.

Definition dict : Type := list (string * list string).

(** [d.get(k)] *)
Fixpoint dict_get (k : string) (d : dict) : option (list string) :=
  match d with
  | [] => None
  | (k', v) :: d' => if String.eqb k' k then Some v else dict_get k d'
  end.

(** [d.pop(k, None)] *)
Fixpoint dict_pop (k : string) (d : dict) : dict :=
  match d with
  | [] => []
  | (k', v) :: d' =>
      if String.eqb k' k then dict_pop k d' else (k', v) :: dict_pop k d'
  end.

(** [d[k] = v]: a key that is there keeps its place. *)
Fixpoint dict_set (k : string) (v : list string) (d : dict) : dict :=
  match d with
  | [] => [(k, v)]
  | (k', v') :: d' =>
      if String.eqb k' k then (k, v) :: d'
      else (k', v') :: dict_set k v d'
  end.

Record Cliente : Type := MkCliente
  { id : Z;
    nombre_cliente : option string;
    destinatarios : option (list string);
    destinatarios_carrier : option dict }.

(** The table [clientes]. *)
Definition tabla : Type := list Cliente.

(** [session.get(Cliente, cliente_id)] *)
Definition get (t : tabla) (cliente_id : Z) : option Cliente :=
  find (fun c => (id c =? cliente_id)%Z) t.

(** Python truth of [str | None]. *)
Definition cierto (x : option string) : bool :=
  match x with Some s => negb (vacia s) | None => false end.

Definition nombre (x : option string) : string :=
  match x with Some s => s | None => EmptyString end.

Definition cargar_destinatarios (cliente_id : Z) (carrier : option string)
           (t : tabla) : list string :=
  match get t cliente_id with
  | None => []
  | Some cli =>
      if cierto carrier then
        match destinatarios_carrier cli with
        | Some (e :: d) =>
            match dict_get (nombre carrier) (e :: d) with
            | Some lista => lista
            | None => []
            end
        | _ => []
        end
      else
        match destinatarios cli with
        | Some (x :: l) => x :: l
        | _ => []
        end
  end.

(** [cli.destinatarios_carrier or {}] *)
Definition entradas (d : option dict) : dict :=
  match d with Some m => m | None => [] end.

Definition o_nada (x : option (list string)) : list string :=
  match x with Some l => l | None => [] end.

(** The row after the assignment of [guardar_destinatarios]. *)
Definition asignar (destinatarios' : list string) (carrier : option string)
           (cli : Cliente) : Cliente :=
  if cierto carrier then
    let mapa := entradas (destinatarios_carrier cli) in
    MkCliente (id cli) (nombre_cliente cli) (destinatarios cli)
              (Some (match destinatarios' with
                     | [] => dict_pop (nombre carrier) mapa
                     | _ :: _ => dict_set (nombre carrier) destinatarios' mapa
                     end))
  else MkCliente (id cli) (nombre_cliente cli) (Some destinatarios')
                 (destinatarios_carrier cli).

(** Returns the table after the commit and the boolean of the function. *)
Definition guardar_destinatarios (destinatarios' : list string)
           (cliente_id : Z) (carrier : option string) (t : tabla)
  : tabla * bool :=
  match get t cliente_id with
  | None => (t, false)
  | Some cli =>
      (map (fun c => if (id c =? cliente_id)%Z
                     then asignar destinatarios' carrier c else c) t,
       true)
  end.

(** [x in lista] *)
Definition en (x : string) (lista : list string) : bool :=
  existsb (String.eqb x) lista.

(** [lista.remove(x)]: the first occurrence goes. *)
Fixpoint remove (x : string) (lista : list string) : list string :=
  match lista with
  | [] => []
  | y :: l => if String.eqb x y then l else y :: remove x l
  end.

Definition agregar_destinatario (correo : string) (cliente_id : Z)
           (carrier : option string) (t : tabla) : tabla * bool :=
  let lista := cargar_destinatarios cliente_id carrier t in
  let lista := if en correo lista then lista else lista ++ [correo] in
  guardar_destinatarios lista cliente_id carrier t.

Definition eliminar_destinatario (correo : string) (cliente_id : Z)
           (carrier : option string) (t : tabla) : tabla * bool :=
  let lista := cargar_destinatarios cliente_id carrier t in
  if negb (en correo lista) then (t, false)
  else guardar_destinatarios (remove correo lista) cliente_id carrier t.

(** *** [sandybot/database.py]: [obtener_destinatarios_servicio]

    Of [Servicio], the columns it reads. *)
Record Servicio : Type := MkServicio
  { srv_id : Z;
    srv_cliente : option string;
    srv_cliente_id : option Z;
    srv_carrier : option string }.

(** Python truth of [int | None]. *)
Definition cierto_id (x : option Z) : bool :=
  match x with Some n => negb (n =? 0)%Z | None => false end.

Definition eq_nombre (a b : option string) : bool :=
  match a, b with
  | Some x, Some y => String.eqb x y
  | _, _ => false
  end.

Definition obtener_destinatarios_servicio (id_servicio : Z)
           (servicios : list Servicio) (t : tabla) : list string :=
  match find (fun s => (srv_id s =? id_servicio)%Z) servicios with
  | None => []
  | Some servicio =>
      let cliente :=
        if cierto_id (srv_cliente_id servicio) then
          match srv_cliente_id servicio with
          | Some n => get t n
          | None => None
          end
        else if cierto (srv_cliente servicio) then
          find (fun c => eq_nombre (nombre_cliente c) (srv_cliente servicio))
               t
        else None in
      match cliente with
      | None => []
      | Some cli =>
          let general :=
            match destinatarios cli with
            | Some (x :: l) => x :: l
            | _ => []
            end in
          match destinatarios_carrier cli with
          | Some (e :: d) =>
              if cierto (srv_carrier servicio) then
                match dict_get (nombre (srv_carrier servicio)) (e :: d) with
                | Some (x :: l) => x :: l
                | _ => general
                end
              else general
          | _ => general
          end
      end
  end.

End Destinatarios.

(** ** [sandybot/database.py]: cameras and claims

    [crear_camara] and [crear_reclamo] insert a row and, when the commit
    raises IntegrityError, roll back and return the row that is there.  The
    insert takes the next value of the sequence of ids before the
    constraints are checked, and the rollback does not give it back: a
    refused insert leaves the rows as they were and the sequence one
    further. *)

Module Inventario.
Import Py Fechas Database.

Record Camara : Type := MkCamara
  { cam_id : Z; cam_nombre : option string; cam_id_servicio : option Z }.

Record Reclamo : Type := MkReclamo
  { rec_id : Z;
    rec_servicio_id : option Z;
    rec_numero : option string;
    rec_fecha_inicio : option datetime;
    rec_fecha_cierre : option datetime;
    rec_tipo_solucion : option string;
    rec_descripcion_solucion : option string;
    rec_descripcion : option string }.

Record tablas : Type := MkTablas
  { camaras : list Camara;
    sec_camaras : Z;
    reclamos : list Reclamo;
    sec_reclamos : Z }.

(** The rows [filter(Camara.id_servicio == s, Camara.nombre == n)] selects,
    which are also those the constraint [uix_camara_unica] forbids to
    repeat. *)
Definition misma_camara (nombre : string) (id_servicio : Z) (c : Camara)
  : bool :=
  eq_oZ (cam_id_servicio c) (Some id_servicio)
  && eq_os (cam_nombre c) (Some nombre).

Definition crear_camara (nombre : string) (id_servicio : Z) (t : tablas)
  : tablas * option Camara :=
  let camara := MkCamara (sec_camaras t) (Some nombre) (Some id_servicio) in
  if negb (existsb (misma_camara nombre id_servicio) (camaras t))
  then (MkTablas (camaras t ++ [camara]) (sec_camaras t + 1)%Z
                 (reclamos t) (sec_reclamos t),
        Some camara)
  else (MkTablas (camaras t) (sec_camaras t + 1)%Z
                 (reclamos t) (sec_reclamos t),
        find (misma_camara nombre id_servicio) (camaras t)).

(** The rows of [uix_reclamo_unico]. *)
Definition mismo_reclamo (servicio_id : Z) (numero : string) (r : Reclamo)
  : bool :=
  eq_oZ (rec_servicio_id r) (Some servicio_id)
  && eq_os (rec_numero r) (Some numero).

Section Reclamo.

(** The base with the services the foreign key of [reclamos] points to. *)
Variable b : base.

Definition crear_reclamo (servicio_id : Z) (numero : string)
           (fecha_inicio : option datetime) (descripcion : option string)
           (fecha_cierre : option datetime)
           (tipo_solucion descripcion_solucion : option string)
           (t : tablas) : tablas * option Reclamo :=
  let reclamo :=
    MkReclamo (sec_reclamos t) (Some servicio_id) (Some numero) fecha_inicio
              fecha_cierre tipo_solucion descripcion_solucion descripcion in
  if existe_servicio b servicio_id
     && negb (existsb (mismo_reclamo servicio_id numero) (reclamos t))
  then (MkTablas (camaras t) (sec_camaras t) (reclamos t ++ [reclamo])
                 (sec_reclamos t + 1)%Z,
        Some reclamo)
  else (MkTablas (camaras t) (sec_camaras t) (reclamos t)
                 (sec_reclamos t + 1)%Z,
        find (mismo_reclamo servicio_id numero) (reclamos t)).

End Reclamo.

(** [depurar_reclamos_duplicados]: of the claims with the same number, all
    but the one with the greatest id are deleted; returns the number of
    rows deleted.  [GROUP BY] puts the rows without number in one group and
    [Reclamo.numero == None] selects them. *)
Definition mismo_numero (numero : option string) (r : Reclamo) : bool :=
  match numero, rec_numero r with
  | Some x, Some y => String.eqb x y
  | None, None => true
  | _, _ => false
  end.

(** [ORDER BY id DESC]: insertion in a list kept in descending order. *)
Fixpoint insertar_desc (r : Reclamo) (l : list Reclamo) : list Reclamo :=
  match l with
  | [] => [r]
  | x :: l' =>
      if (rec_id x <=? rec_id r)%Z then r :: l
      else x :: insertar_desc r l'
  end.

Fixpoint ordenar_desc (l : list Reclamo) : list Reclamo :=
  match l with
  | [] => []
  | r :: l' => insertar_desc r (ordenar_desc l')
  end.

(** The numbers that more than one row has, each once. *)
Fixpoint repetidos (vistos : list (option string)) (pendientes todos
                    : list Reclamo) : list (option string) :=
  match pendientes with
  | [] => []
  | r :: l =>
      let numero := rec_numero r in
      if existsb (fun v => mismo_numero v r) vistos
      then repetidos vistos l todos
      else
        if (1 <? List.length (filter (mismo_numero numero) todos))
        then numero :: repetidos (numero :: vistos) l todos
        else repetidos (numero :: vistos) l todos
  end.

(** [session.delete(rec)] for every row of [filas[1:]]. *)
Definition borrar (victimas : list Reclamo) (l : list Reclamo)
  : list Reclamo :=
  filter (fun r => negb (existsb (fun v => (rec_id v =? rec_id r)%Z) victimas))
         l.

(** The loop over the repeated numbers: the rows left and the count. *)
Fixpoint depurar (numeros : list (option string)) (l : list Reclamo)
         (eliminados : nat) : list Reclamo * nat :=
  match numeros with
  | [] => (l, eliminados)
  | numero :: resto =>
      let filas := ordenar_desc (filter (mismo_numero numero) l) in
      let victimas := tl filas in
      depurar resto (borrar victimas l) (eliminados + List.length victimas)
  end.

Definition depurar_reclamos_duplicados (t : tablas) : tablas * nat :=
  let '(l, eliminados) :=
    depurar (repetidos [] (reclamos t) (reclamos t)) (reclamos t) 0 in
  (MkTablas (camaras t) (sec_camaras t) l (sec_reclamos t), eliminados).

End Inventario.
(** ** [sandybot/database.py]: the service upsert and the task queries *)

Module Consultas.
Import Py Fechas Database.

(** [session.merge] copies the attributes that were given to the
    constructor and leaves the others of the row as they are. *)
Definition o_la_de {A : Type} (dada : option A) (fila : option A)
  : option A :=
  match dada with Some x => Some x | None => fila end.

(** [registrar_servicio]: the row with that primary key is updated, or a
    row is inserted; the commit checks the foreign key of [carrier_id]. *)
Definition registrar_servicio (id_servicio : Z) (id_carrier : option string)
           (carrier_id : option Z) : M base Servicio :=
  fun b =>
    if negb (existe_carrier b carrier_id) then (b, inl IntegrityError)
    else
      let combinado (s : Servicio) :=
        MkServicio (srv_id s) (srv_carrier s)
                   (o_la_de id_carrier (srv_id_carrier s))
                   (o_la_de carrier_id (srv_carrier_id s)) in
      match get_servicio b id_servicio with
      | Some s =>
          (con_servicios b
             (map (fun x => if (srv_id x =? id_servicio)%Z
                            then combinado x else x)
                  (servicios b)),
           inr (combinado s))
      | None =>
          let s := MkServicio id_servicio None id_carrier carrier_id in
          (con_servicios b (servicios b ++ [s]), inr s)
      end.

(** [ORDER BY fecha_inicio] and [ORDER BY fecha_inicio DESC]: [va_antes
    desc a b] when [a] has to come before [b].  Rows with the same start
    are left in the order of the table. *)
Definition va_antes (desc : bool) (a b : datetime) : bool :=
  if desc then dt_ltb b a else dt_ltb a b.

Fixpoint insertar_por_inicio (desc : bool) (t : TareaProgramada)
         (l : list TareaProgramada) : list TareaProgramada :=
  match l with
  | [] => [t]
  | x :: l' =>
      if va_antes desc (fecha_inicio x) (fecha_inicio t)
      then x :: insertar_por_inicio desc t l'
      else t :: l
  end.

Fixpoint ordenar_por_inicio (desc : bool) (l : list TareaProgramada)
  : list TareaProgramada :=
  match l with
  | [] => []
  | t :: l' => insertar_por_inicio desc t (ordenar_por_inicio desc l')
  end.

(** [ORDER BY id] and [ORDER BY id DESC] on the links. *)
Fixpoint insertar_por_id (desc : bool) (r : TareaServicio)
         (l : list TareaServicio) : list TareaServicio :=
  match l with
  | [] => [r]
  | x :: l' =>
      if (if desc then ts_id r <? ts_id x else ts_id x <? ts_id r)%Z
      then x :: insertar_por_id desc r l'
      else r :: l
  end.

Fixpoint ordenar_por_id (desc : bool) (l : list TareaServicio)
  : list TareaServicio :=
  match l with
  | [] => []
  | r :: l' => insertar_por_id desc r (ordenar_por_id desc l')
  end.

(** The join of the tasks with their links to the service: one row for
    every pair of a task and a link of it to [servicio]. *)
Definition tareas_de_servicio (servicio : Z) (b : base)
  : list TareaProgramada :=
  flat_map
    (fun t =>
       map (fun _ => t)
           (filter (fun l => (tarea_id l =? tp_id t)%Z
                             && (servicio_id l =? servicio)%Z)
                   (tareas_servicio b)))
    (tareas_programadas b).

(** [obtener_tareas_servicio]: without service, the links by id; with a
    service, the tasks that affect it by start. *)
Definition obtener_tareas_servicio (servicio_id : option Z) (desc : bool)
           (b : base) : list TareaServicio + list TareaProgramada :=
  match servicio_id with
  | None => inl (ordenar_por_id desc (tareas_servicio b))
  | Some s => inr (ordenar_por_inicio desc (tareas_de_servicio s b))
  end.

Definition obtener_tareas_programadas (desc : bool) (b : base)
  : list TareaProgramada :=
  ordenar_por_inicio desc (tareas_programadas b).

(** [obtener_proxima_tarea], [ahora] being [datetime.utcnow()]. *)
Definition obtener_proxima_tarea (ahora : datetime) (b : base)
  : option TareaProgramada :=
  hd_error
    (ordenar_por_inicio false
       (filter (fun t => dt_geb (fecha_inicio t) ahora)
               (tareas_programadas b))).

End Consultas.
(** ** [sandybot/database.py]: [eliminar_duplicados_tareas]

    The migration step that runs before the unique constraint
    [uix_carrier_interno] is created.  It works on the connection of the
    caller: for every key (carrier, internal id) that several tasks have,
    the links and the pending services of those tasks are moved to the task
    with the smallest id and the other tasks are deleted.  A table that
    does not exist yet has no rows, so the tests on the table names make no
    difference here.  When the store already has the unique constraint
    [uix_tarea_servicio] (then no task has two links to one service), the
    UPDATE that moves the links raises IntegrityError if it brings two links
    of one service together. *)

Module Migracion.
Import Py Fechas Database.

Definition clave : Type := (Z * string)%type.

Definition clave_dec (a b : clave) : {a = b} + {a <> b}.
Proof. decide equality; [apply string_dec|apply Z.eq_dec]. Defined.

(** [WHERE carrier_id IS NOT NULL AND id_interno IS NOT NULL] *)
Definition clave_de (t : TareaProgramada) : list clave :=
  match carrier_id t, id_interno t with
  | Some c, Some i => [(c, i)]
  | _, _ => []
  end.

(** [GROUP BY carrier_id, id_interno]: every key once. *)
Definition claves (l : list TareaProgramada) : list clave :=
  nodup clave_dec (flat_map clave_de l).

Definition de_clave (k : clave) (t : TareaProgramada) : bool :=
  misma_clave (Some (fst k)) (Some (snd k)) t.

(** [MIN(id)] of the rows of a group. *)
Definition minimo (g : list TareaProgramada) : Z :=
  match g with
  | [] => 0%Z
  | t :: r => fold_left (fun m x => Z.min m (tp_id x)) r (tp_id t)
  end.

(** The rows of the first query: key and [keep_id] of the groups with
    more than one task. *)
Definition filas (l : list TareaProgramada) : list (clave * Z) :=
  flat_map
    (fun k =>
       let g := filter (de_clave k) l in
       if 1 <? List.length g then [(k, minimo g)] else [])
    (claves l).

(** [UPDATE tareas_servicio SET tarea_id = :k WHERE tarea_id = :d] *)
Definition mover_enlace (k d : Z) (l : TareaServicio) : TareaServicio :=
  if (tarea_id l =? d)%Z then MkTareaServicio (ts_id l) k (servicio_id l)
  else l.

(** [UPDATE servicios_pendientes SET tarea_id = :k WHERE tarea_id = :d] *)
Definition mover_pendiente (k d : Z) (p : ServicioPendiente)
  : ServicioPendiente :=
  if (sp_tarea_id p =? d)%Z then MkPendiente (sp_id p) k (sp_id_carrier p)
  else p.

(** A link of [d] meets a link of [k] to the same service. *)
Definition choca (k d : Z) (ls : list TareaServicio) : bool :=
  existsb
    (fun l =>
       (tarea_id l =? d)%Z
       && existsb (fun x => (tarea_id x =? k)%Z
                            && (servicio_id x =? servicio_id l)%Z) ls)
    ls.

Section Conexion.

(** Whether the store has the constraint [uix_tarea_servicio]. *)
Variable uix_tarea_servicio : bool.

(** The body of the inner loop, for one [dup_id]. *)
Definition quitar_duplicada (k d : Z) : M base unit :=
  fun b =>
    if uix_tarea_servicio && choca k d (tareas_servicio b)
    then (b, inl IntegrityError)
    else
      (MkBase (clientes b) (carriers b) (servicios b)
              (filter (fun t => negb (tp_id t =? d)%Z)
                      (tareas_programadas b))
              (map (mover_enlace k d) (tareas_servicio b))
              (map (mover_pendiente k d) (servicios_pendientes b))
              (sec_clientes b) (sec_carriers b) (sec_tareas b)
              (sec_tareas_servicio b) (sec_pendientes b),
       inr tt).

Fixpoint quitar_duplicadas (k : Z) (dup_ids : list Z) : M base unit :=
  match dup_ids with
  | [] => ret tt
  | d :: r => (quitar_duplicada k d ;;; quitar_duplicadas k r)%m
  end.

(** The body of the outer loop, for one row of the first query. *)
Definition depurar_clave (f : clave * Z) : M base unit :=
  fun b =>
    let dup_ids :=
      map tp_id
          (filter (fun t => de_clave (fst f) t && negb (tp_id t =? snd f)%Z)
                  (tareas_programadas b)) in
    quitar_duplicadas (snd f) dup_ids b.

Fixpoint depurar_claves (fs : list (clave * Z)) : M base unit :=
  match fs with
  | [] => ret tt
  | f :: r => (depurar_clave f ;;; depurar_claves r)%m
  end.

Definition eliminar_duplicados_tareas : M base unit :=
  fun b => depurar_claves (filas (tareas_programadas b)) b.

End Conexion.

End Migracion.
(** ** Notions used to state the further properties *)

Module Lectura.
Import Py Re EmailUtils Fechas Database Pipeline Inventario Migracion.

(** No line boundary of [str.splitlines] occurs in [l]. *)
Definition sin_salto (l : string) : bool :=
  forallb_s (fun c => negb (es_salto c)) l.

(** A line as the normalizer leaves it: not empty, trimmed, within one
    line, and without the legal notice. *)
Definition linea_limpia (l : string) : Prop :=
  vacia l = false
  /\ strip l = l
  /\ sin_salto l = true
  /\ hay (search patron_aviso l) = false.

(** The carriers are numbered as a serial key numbers them: the next id is
    positive and no carrier has the id 0. *)
Definition numerada (b : base) : Prop :=
  (0 < sec_carriers b)%Z
  /\ Forall (fun c => car_id c <> 0%Z) (carriers b).



(** The rows [crear_servicio_pendiente] adds for the tokens, numbered from
    [n]. *)
Fixpoint pendientes_de (n : Z) (tarea : Z) (tokens : list string)
  : list ServicioPendiente :=
  match tokens with
  | [] => []
  | token :: r => MkPendiente n tarea token :: pendientes_de (n + 1)%Z tarea r
  end.

(** The carrier row the pipeline works with, once the run is over. *)
Definition carrier_de (carrier_nombre : option string) (b : base)
  : option Carrier :=
  match carrier_nombre with
  | Some nombre =>
      if vacia nombre then None
      else find (fun c => String.eqb (car_nombre c) nombre) (carriers b)
  | None => None
  end.

(** What [reasignar] writes on a service. *)
Definition con_carrier (c : Carrier) (s : Servicio) : Servicio :=
  MkServicio (srv_id s) (Some (car_nombre c)) (srv_id_carrier s)
             (Some (car_id c)).

(** The services after [reasignar]: the resolved ones carry the carrier. *)
Definition reasignados (carrier : option Carrier) (resueltos : list Servicio)
           (l : list Servicio) : list Servicio :=
  match carrier with
  | None => l
  | Some c =>
      map (fun s =>
             if existsb (fun r => (srv_id r =? srv_id s)%Z) resueltos
             then con_carrier c s else s) l
  end.

(** The clients and the carriers after the rows the pipeline looks up by
    name, and adds when they are missing. *)
Definition clientes_con (cliente_nombre : string) (b : base)
  : list Cliente :=
  match obtener_cliente_por_nombre cliente_nombre b with
  | Some _ => clientes b
  | None => clientes b ++ [MkCliente (sec_clientes b) cliente_nombre]
  end.

Definition carriers_con (carrier_nombre : option string) (b : base)
  : list Carrier :=
  match carrier_nombre with
  | Some nombre =>
      if vacia nombre then carriers b
      else
        match find (fun c => String.eqb (car_nombre c) nombre)
                   (carriers b) with
        | Some _ => carriers b
        | None => carriers b ++ [MkCarrier (sec_carriers b) nombre]
        end
  | None => carriers b
  end.

(** A claim that another claim with the same number and a greater id
    makes redundant. *)
Definition superado (l : list Reclamo) (r : Reclamo) : bool :=
  existsb (fun x => mismo_numero (rec_numero r) x
                    && (rec_id r <? rec_id x)%Z) l.

(** A task that another task with the same key and a smaller id makes
    redundant; a key with a NULL part is the same as no other. *)
Definition sobra (l : list TareaProgramada) (t : TareaProgramada) : bool :=
  existsb (fun u => misma_clave (carrier_id t) (id_interno t) u
                    && (tp_id u <? tp_id t)%Z) l.

(** The task that stands for the task [n] once the redundant ones are
    gone: the one with the smallest id among those with its key. *)
Definition destino (l : list TareaProgramada) (n : Z) : Z :=
  match find (fun t => (tp_id t =? n)%Z) l with
  | Some t =>
      if sobra l t
      then minimo (filter (misma_clave (carrier_id t) (id_interno t)) l)
      else n
  | None => n
  end.

Definition llevar_enlace (l : list TareaProgramada) (e : TareaServicio)
  : TareaServicio :=
  MkTareaServicio (ts_id e) (destino l (tarea_id e)) (servicio_id e).

Definition llevar_pendiente (l : list TareaProgramada)
           (p : ServicioPendiente) : ServicioPendiente :=
  MkPendiente (sp_id p) (destino l (sp_tarea_id p)) (sp_id_carrier p).

(** Two links of different tasks to one service would end on the same
    task. *)
Definition se_juntan (l : list TareaProgramada) (ls : list TareaServicio)
  : bool :=
  existsb
    (fun e =>
       existsb (fun x => negb (tarea_id e =? tarea_id x)%Z
                         && (servicio_id e =? servicio_id x)%Z
                         && (destino l (tarea_id e)
                             =? destino l (tarea_id x))%Z) ls)
    ls.

(** The moves of a run, as pairs (kept id, deleted id), and the runs over
    a list of moves. *)
Definition movimientos_de (l : list TareaProgramada) (f : clave * Z)
  : list (Z * Z) :=
  map (fun t => (snd f, tp_id t))
      (filter (fun t => de_clave (fst f) t && negb (tp_id t =? snd f)%Z) l).

Definition movimientos (l : list TareaProgramada) : list (Z * Z) :=
  flat_map (movimientos_de l) (filas l).

Fixpoint correr (uix : bool) (ms : list (Z * Z)) : M base unit :=
  match ms with
  | [] => ret tt
  | m :: r => (quitar_duplicada uix (fst m) (snd m) ;;; correr uix r)%m
  end.

(** Where a list of moves takes a task id. *)
Fixpoint lleva (ms : list (Z * Z)) (n : Z) : Z :=
  match ms with
  | [] => n
  | m :: r => if (n =? snd m)%Z then fst m else lleva r n
  end.

(** No move takes a task to itself, nor to a task that a later move
    deletes. *)
Fixpoint en_orden (ms : list (Z * Z)) : Prop :=
  match ms with
  | [] => True
  | m :: r => fst m <> snd m /\ ~ In (fst m) (map snd r) /\ en_orden r
  end.

(** The base after the moves [ms], when none of them fails. *)
Definition tras (ms : list (Z * Z)) (b : base) : base :=
  MkBase (clientes b) (carriers b) (servicios b)
         (filter (fun t => negb (existsb (Z.eqb (tp_id t)) (map snd ms)))
                 (tareas_programadas b))
         (map (fun e => MkTareaServicio (ts_id e) (lleva ms (tarea_id e))
                                        (servicio_id e))
              (tareas_servicio b))
         (map (fun p => MkPendiente (sp_id p) (lleva ms (sp_tarea_id p))
                                    (sp_id_carrier p))
              (servicios_pendientes b))
         (sec_clientes b) (sec_carriers b) (sec_tareas b)
         (sec_tareas_servicio b) (sec_pendientes b).

Definition se_juntan_por (ms : list (Z * Z)) (ls : list TareaServicio)
  : bool :=
  existsb
    (fun e =>
       existsb (fun x => negb (tarea_id e =? tarea_id x)%Z
                         && (servicio_id e =? servicio_id x)%Z
                         && (lleva ms (tarea_id e)
                             =? lleva ms (tarea_id x))%Z) ls)
    ls.

(** The constraints the models declare on the tasks, their links and the
    pending services: primary keys, the unique constraints
    [uix_carrier_interno] and [uix_tarea_servicio], and the foreign keys. *)
Definition par (e : TareaServicio) : Z * Z := (tarea_id e, servicio_id e).

Definition integra (b : base) : Prop :=
  NoDup (map tp_id (tareas_programadas b))
  /\ Forall (fun t => (tp_id t < sec_tareas b)%Z) (tareas_programadas b)
  /\ (forall t u,
         In t (tareas_programadas b) -> In u (tareas_programadas b) ->
         misma_clave (carrier_id t) (id_interno t) u = true -> t = u)
  /\ Forall (fun t => existe_carrier b (carrier_id t) = true)
            (tareas_programadas b)
  /\ Forall (fun e => existe_tarea b (tarea_id e) = true
                      /\ existe_servicio b (servicio_id e) = true)
            (tareas_servicio b)
  /\ NoDup (map par (tareas_servicio b))
  /\ NoDup (map ts_id (tareas_servicio b))
  /\ Forall (fun e => (ts_id e < sec_tareas_servicio b)%Z)
            (tareas_servicio b)
  /\ Forall (fun p => existe_tarea b (sp_tarea_id p) = true)
            (servicios_pendientes b).

End Lectura.
(** ** Data of the further examples *)

Module Casos.
Import Py Fechas Database Inventario Ejemplos.

(** Two clients: the first with a general list and a list for TELXIUS. *)
Definition tabla_clientes : Destinatarios.tabla :=
  [ Destinatarios.MkCliente 1 (Some "Cliente") (Some ["ana@cliente.com"])
                            (Some [("TELXIUS", ["noc@telxius.com"])]);
    Destinatarios.MkCliente 2 (Some "Otro") None None ].

(** A service of the first client, reached through TELXIUS. *)
Definition servicios_clientes : list Destinatarios.Servicio :=
  [ Destinatarios.MkServicio 10 (Some "Cliente") (Some 1%Z)
                             (Some "TELXIUS") ].

(** Three claims, two of them with the number A. *)
Definition tablas_reclamos : tablas :=
  MkTablas []
           1
           [ MkReclamo 1 (Some 1%Z) (Some "A") None None None None None;
             MkReclamo 2 (Some 2%Z) (Some "A") None None None None None;
             MkReclamo 3 (Some 1%Z) (Some "B") None None None None None ]
           4.

(** The base of the examples after a task of TELXIUS on the services 1
    and 2. *)
Definition base_con_tarea : base :=
  fst (crear_tarea_programada d_0800 d_1000 "Mantenimiento" [1; 2]%Z
         (Some 1%Z) None None (Some "SWX0000001") base_ejemplo).

Definition tarea_swx : TareaProgramada :=
  MkTarea 1 d_0800 d_1000 "Mantenimiento" None None (Some 1%Z)
          (Some "SWX0000001").

(** A camera of the service 1. *)
Definition tablas_camara : tablas :=
  MkTablas [MkCamara 1 (Some "CAM-1") (Some 1%Z)] 2 [] 1.

(** Two tasks with the key of [tarea_swx], each linked to the service 1. *)
Definition base_duplicada : base :=
  MkBase [] [MkCarrier 1 "TELXIUS"]
         [MkServicio 1 None None None]
         [ tarea_swx;
           MkTarea 2 d_0800 d_1000 "Mantenimiento" None None (Some 1%Z)
                   (Some "SWX0000001") ]
         [MkTareaServicio 1 1 1; MkTareaServicio 2 2 1]
         [MkPendiente 1 2 "CRT-000123"]
         1 2 3 3 2.

End Casos.

(** * Properties *)

Unset Implicit Arguments.

Import Py Re EmailUtils Fechas Database Pipeline Ejemplos.

(** ** Strings *)

Lemma vacia_true (s : string) : vacia s = true <-> s = EmptyString.
Proof. destruct s; simpl; split; congruence. Qed.

Lemma lower_c_idem (c : ascii) : lower_c (lower_c c) = lower_c c.
Proof.
  destruct c as [[] [] [] [] [] [] [] []]; reflexivity.
Qed.

(** ** The search of a pattern *)

Lemma hay_search_desde (r : regex) (prev : option ascii) (s : string) :
  hay (search_desde r prev s)
  = alguno (alcances r prev s)
    || match s with
       | EmptyString => false
       | String c s' => hay (search_desde r (Some c) s')
       end.
Proof.
  destruct s; simpl; destruct (alcances r prev _); reflexivity.
Qed.

Lemma alguno_app (a b : list alcance) :
  alguno (a ++ b) = alguno a || alguno b.
Proof. destruct a; reflexivity. Qed.

(** Searching [r1|r2] finds something exactly when searching [r1] or
    searching [r2] does. *)
Lemma hay_search_Alt (r1 r2 : regex) (s : string) (prev : option ascii) :
  hay (search_desde (Alt r1 r2) prev s)
  = hay (search_desde r1 prev s) || hay (search_desde r2 prev s).
Proof.
  revert prev; induction s as [|c s IH]; intros prev;
    rewrite (hay_search_desde (Alt r1 r2)), (hay_search_desde r1 prev),
      (hay_search_desde r2 prev);
    cbn [alcances]; rewrite alguno_app.
  - now rewrite !orb_false_r.
  - rewrite IH.
    destruct (alguno (alcances r1 prev _)), (alguno (alcances r2 prev _)),
      (hay (search_desde r1 _ s)), (hay (search_desde r2 _ s)); reflexivity.
Qed.

Lemma lit_m_startswith (l s : string) :
  match lit_m true l s with Some _ => true | None => false end
  = startswith (lower l) (lower s).
Proof.
  unfold lower.
  revert s; induction l as [|a l IH]; intros s; simpl.
  - reflexivity.
  - destruct s as [|b s]; simpl; [reflexivity|].
    unfold eq_c. specialize (IH s).
    destruct (Ascii.eqb (lower_c a) (lower_c b)); [|reflexivity].
    destruct (lit_m true l s) as [[? ?]|]; exact IH.
Qed.

(** Searching a literal under re.I is looking for it, in lower case, in
    the line in lower case. *)
Lemma hay_search_Lit (l s : string) (prev : option ascii) :
  hay (search_desde (Lit true l) prev s) = Spec.contiene_ci l s.
Proof.
  unfold Spec.contiene_ci.
  revert prev; induction s as [|c s IH]; intros prev;
    rewrite hay_search_desde; cbn [alcances];
    pose proof (lit_m_startswith l) as H.
  - specialize (H EmptyString).
    change (lower EmptyString) with EmptyString in *. cbn [contiene].
    rewrite <- H.
    destruct (lit_m true l EmptyString) as [[? ?]|]; reflexivity.
  - specialize (H (String c s)). rewrite IH.
    change (lower (String c s)) with (String (lower_c c) (lower s)) in *.
    cbn [contiene]. rewrite <- H.
    destruct (lit_m true l (String c s)) as [[? ?]|]; reflexivity.
Qed.

Lemma es_aviso_search (l : string) :
  hay (search patron_aviso l) = Spec.es_aviso l.
Proof.
  unfold search, patron_aviso, Spec.es_aviso, Spec.frases.
  rewrite !hay_search_Alt, !hay_search_Lit. simpl.
  rewrite orb_false_r, !orb_assoc. reflexivity.
Qed.

(** ** C10: the text normalizer *)

Lemma limpiar_lineas_hasta (ls : list string) :
  limpiar_lineas ls
  = Spec.hasta Spec.es_aviso
      (filter (fun l => negb (vacia l)) (map strip ls)).
Proof.
  induction ls as [|l ls IH]; simpl; [reflexivity|].
  destruct (vacia (strip l)) eqn:E; simpl; [exact IH|].
  rewrite es_aviso_search.
  destruct (Spec.es_aviso (strip l)); [reflexivity|now rewrite IH].
Qed.

(** C10, as amended.  For every text the normalizer returns the lines of
    the input, each one trimmed and the blank ones left out, that stand
    before the first line which contains, whatever the case, "disclaimer",
    "confidencial", "aviso legal", "confidentiality notice" or the phrase
    "correo [electronico] [es] privado"; that line and all that follows are
    dropped.  It is a total function and maps the empty text to the empty
    text. *)
Theorem limpiar_correo_contrato :
  (forall texto, _limpiar_correo texto = Spec.normalizador texto)
  /\ _limpiar_correo EmptyString = EmptyString.
Proof.
  split; [|reflexivity].
  intros texto. unfold _limpiar_correo, Spec.normalizador.
  now rewrite limpiar_lineas_hasta.
Qed.

(** C10, as stated, fails: a line with the English word "confidential" does
    not stop the normalizer, and a kept line loses the white space around
    it. *)
Lemma limpiar_correo_no_es_lo_dicho :
  let texto := ("  hola" ++ nl ++ "Confidential" ++ nl ++ "chau")%string in
  _limpiar_correo texto = ("hola" ++ nl ++ "Confidential" ++ nl ++ "chau")%string
  /\ Spec.normalizador_dicho texto = "  hola"
  /\ _limpiar_correo texto <> Spec.normalizador_dicho texto.
Proof.
  vm_compute. repeat split; discriminate.
Qed.

(** White space and line boundaries beyond ASCII: NEL cuts a line as LF
    does, the no-break space is trimmed, and a line with nothing but a
    no-break space is blank. *)
Lemma limpiar_correo_blancos :
  _limpiar_correo correo_blancos
  = ("a" ++ nl ++ "b" ++ nl ++ "c" ++ nl ++ "d")%string.
Proof. vm_compute. reflexivity. Qed.

(** ** C4: the identifier filter *)














(** ** The task upsert *)

Section Primeras.

Lemma filter_filter_Z (p q : Z -> bool) (l : list Z) :
  filter p (filter q l) = filter q (filter p l).
Proof.
  induction l as [|x l IH]; simpl; [reflexivity|].
  destruct (p x) eqn:P, (q x) eqn:Q; simpl; rewrite ?P, ?Q, IH; reflexivity.
Qed.

Lemma filter_absorbe (p : Z -> bool) (y : Z) (l : list Z) :
  p y = false ->
  filter p (filter (fun z => negb (z =? y)%Z) l) = filter p l.
Proof.
  intros Py. induction l as [|x l IH]; simpl; [reflexivity|].
  destruct (Z.eqb_spec x y) as [->|]; simpl.
  - now rewrite Py.
  - now rewrite IH.
Qed.

Lemma primeras_filter (p : Z -> bool) (l : list Z) :
  Spec.primeras (filter p l) = filter p (Spec.primeras l).
Proof.
  induction l as [|y l IH]; simpl; [reflexivity|].
  destruct (p y) eqn:Py; simpl.
  - rewrite IH. f_equal. apply filter_filter_Z.
  - rewrite IH. symmetry. now apply filter_absorbe.
Qed.

Lemma existsb_eqb_app (x : Z) (acc : list Z) (y : Z) :
  existsb (Z.eqb x) (acc ++ [y]) = existsb (Z.eqb x) acc || (x =? y)%Z.
Proof. rewrite existsb_app. simpl. now rewrite orb_false_r. Qed.

Lemma fromkeys_primeras (acc xs : list Z) :
  fromkeys acc xs
  = acc ++ Spec.primeras (filter (fun x => negb (existsb (Z.eqb x) acc)) xs).
Proof.
  revert acc; induction xs as [|x xs IH]; intros acc; simpl.
  - now rewrite app_nil_r.
  - destruct (existsb (Z.eqb x) acc) eqn:E; simpl; [apply IH|].
    rewrite IH, <- app_assoc. simpl. do 2 f_equal.
    rewrite <- primeras_filter, filter_filter_Z.
    f_equal.
    clear. induction xs as [|z xs IH]; simpl; [reflexivity|].
    rewrite existsb_eqb_app, negb_orb.
    destruct (existsb (Z.eqb z) acc) eqn:A, (z =? x)%Z eqn:B; simpl;
      rewrite ?A; simpl; now rewrite IH.
Qed.

(** [list(dict.fromkeys(xs))] keeps the first occurrence of every value. *)
Lemma sin_repetir_primeras (xs : list Z) :
  sin_repetir xs = Spec.primeras xs.
Proof.
  unfold sin_repetir. rewrite fromkeys_primeras. simpl.
  f_equal. induction xs; simpl; congruence.
Qed.

Lemma In_primeras (x : Z) (xs : list Z) :
  In x (Spec.primeras xs) <-> In x xs.
Proof.
  induction xs as [|y xs IH]; simpl; [tauto|].
  rewrite filter_In, IH.
  destruct (Z.eqb_spec x y) as [->|N]; simpl; intuition congruence.
Qed.

Lemma NoDup_primeras (xs : list Z) : NoDup (Spec.primeras xs).
Proof.
  induction xs as [|y xs IH]; simpl; constructor.
  - rewrite filter_In, Z.eqb_refl. simpl. intros [_ H]; discriminate.
  - now apply NoDup_filter.
Qed.

End Primeras.

Lemma map_servicio_relaciones (n t : Z) (l : list Z) :
  map servicio_id (relaciones n t l) = l.
Proof.
  revert n; induction l as [|x l IH]; intros n; simpl;
    [reflexivity|now rewrite IH].
Qed.

Lemma filter_relaciones_misma (n t : Z) (l : list Z) :
  filter (fun x => (tarea_id x =? t)%Z) (relaciones n t l) = relaciones n t l.
Proof.
  revert n; induction l as [|x l IH]; intros n; simpl; [reflexivity|].
  now rewrite Z.eqb_refl, IH.
Qed.

Lemma filter_relaciones_otra (n t u : Z) (l : list Z) :
  u <> t ->
  filter (fun x => (tarea_id x =? u)%Z) (relaciones n t l) = [].
Proof.
  intros N. revert n; induction l as [|x l IH]; intros n; simpl;
    [reflexivity|].
  destruct (Z.eqb_spec t u); [congruence|apply IH].
Qed.

Lemma filter_quedan_misma (t : Z) (ls : list TareaServicio) :
  filter (fun x => (tarea_id x =? t)%Z)
         (filter (fun l => negb (tarea_id l =? t)%Z) ls) = [].
Proof.
  induction ls as [|l ls IH]; simpl; [reflexivity|].
  destruct (tarea_id l =? t)%Z eqn:E; simpl; [exact IH|].
  now rewrite E.
Qed.

Lemma filter_quedan_otra (t u : Z) (ls : list TareaServicio) :
  u <> t ->
  filter (fun x => (tarea_id x =? u)%Z)
         (filter (fun l => negb (tarea_id l =? t)%Z) ls)
  = filter (fun x => (tarea_id x =? u)%Z) ls.
Proof.
  intros N. induction ls as [|l ls IH]; simpl; [reflexivity|].
  destruct (Z.eqb_spec (tarea_id l) t) as [E|E]; simpl.
  - destruct (Z.eqb_spec (tarea_id l) u); [congruence|exact IH].
  - now rewrite IH.
Qed.

(** The unique constraint on links cannot refuse rows without duplicates
    for a task that has no link left. *)
Lemma admite_relaciones (b : base) (t : Z) (sids : list Z) :
  existe_tarea b t = true ->
  Forall (fun s => existe_servicio b s = true) sids ->
  NoDup sids ->
  forall (ls : list TareaServicio) (n : Z),
    (forall l, In l ls -> tarea_id l = t -> ~ In (servicio_id l) sids) ->
    admite b ls (relaciones n t sids) = true.
Proof.
  intros Ht Hs Hn. induction sids as [|s sids IH]; intros ls n Hls;
    [reflexivity|].
  inversion Hs as [|? ? Hs1 Hs2]; subst.
  inversion Hn as [|? ? Hn1 Hn2]; subst.
  cbn [relaciones admite tarea_id servicio_id]. rewrite Ht, Hs1. cbn [andb].
  assert (choca_enlace ls (MkTareaServicio n t s) = false) as ->.
  { unfold choca_enlace. apply not_true_is_false. intros E.
    apply existsb_exists in E as (x & Hx & E). cbn in E.
    apply andb_prop in E as [E1 E2].
    apply Z.eqb_eq in E1, E2. apply (Hls x Hx E1). left. now symmetry. }
  cbn [negb andb]. apply IH; auto.
  intros l Hl Et Hin. apply in_app_or in Hl as [Hl|[<-|[]]].
  - apply (Hls l Hl Et). now right.
  - now apply Hn1.
Qed.

Section UpsertProps.

Variables (fi ff : datetime) (tipo : string) (sids : list Z) (c : option Z)
          (ta desc i : option string).

Lemma reemplazar_enlaces_hecho (t : TareaProgramada) (b b' : base) :
  reemplazar_enlaces sids t b = (b', inr tt) ->
  tareas_programadas b' = tareas_programadas b
  /\ carriers b' = carriers b
  /\ servicios b' = servicios b
  /\ enlaces_de b' (tp_id t) = Spec.primeras sids
  /\ (forall u, u <> tp_id t -> enlaces_de b' u = enlaces_de b u).
Proof.
  unfold reemplazar_enlaces. destruct (admite _ _ _); [|discriminate].
  intros [= <-]. repeat split; unfold enlaces_de; cbn.
  - rewrite filter_app, filter_quedan_misma, filter_relaciones_misma.
    cbn. now rewrite map_servicio_relaciones, sin_repetir_primeras.
  - intros u N.
    now rewrite filter_app, filter_quedan_otra, filter_relaciones_otra,
      app_nil_r.
Qed.

Lemma reemplazar_enlaces_pasa (t : TareaProgramada) (b : base) :
  existe_tarea b (tp_id t) = true ->
  Forall (fun s => existe_servicio b s = true) sids ->
  exists b', reemplazar_enlaces sids t b = (b', inr tt).
Proof.
  intros Ht Hs. unfold reemplazar_enlaces.
  rewrite admite_relaciones; eauto.
  - rewrite sin_repetir_primeras. apply Forall_forall. intros x Hx.
    apply (proj1 (In_primeras _ _)) in Hx.
    rewrite Forall_forall in Hs. now apply Hs.
  - rewrite sin_repetir_primeras. apply NoDup_primeras.
  - intros l Hl E. apply filter_In in Hl as [_ Hl].
    rewrite E, Z.eqb_refl in Hl. discriminate.
Qed.

Lemma guardar_resultado (h : option TareaProgramada) (b b' : base)
      (r : TareaProgramada * bool) :
  guardar fi ff tipo sids c ta desc i h b = (b', inr r) ->
  exists b1,
    guardar_tarea fi ff tipo c ta desc i h b = (b1, inr r)
    /\ reemplazar_enlaces sids (fst r) b1 = (b', inr tt).
Proof.
  unfold guardar, bind, ret.
  destruct (guardar_tarea _ _ _ _ _ _ _ h b) as [b1 [e|r1]]; [discriminate|].
  destruct (reemplazar_enlaces sids (fst r1) b1) as [b2 [e|[]]] eqn:R;
    [discriminate|].
  intros [= <- <-]. now exists b1.
Qed.

Lemma guardar_tarea_enlaces (h : option TareaProgramada) (b b1 : base)
      (r : TareaProgramada * bool) :
  guardar_tarea fi ff tipo c ta desc i h b = (b1, inr r) ->
  tareas_servicio b1 = tareas_servicio b
  /\ servicios b1 = servicios b
  /\ carriers b1 = carriers b.
Proof.
  unfold guardar_tarea. destruct h as [t|].
  - intros [= <- <-]. now repeat split.
  - destruct (_ && _); [|discriminate]. intros [= <- <-]. now repeat split.
Qed.

Lemma existsb_map_id (f : TareaProgramada -> TareaProgramada) (n : Z)
      (l : list TareaProgramada) :
  (forall t, tp_id (f t) = tp_id t) ->
  existsb (fun t => (tp_id t =? n)%Z) (map f l)
  = existsb (fun t => (tp_id t =? n)%Z) l.
Proof.
  intros Hf. induction l as [|t l IH]; simpl; [reflexivity|].
  now rewrite Hf, IH.
Qed.

(** After the first commit the task is in the table. *)
Lemma guardar_tarea_existe (h : option TareaProgramada) (b b1 : base)
      (r : TareaProgramada * bool) :
  (forall t, h = Some t -> In t (tareas_programadas b)) ->
  guardar_tarea fi ff tipo c ta desc i h b = (b1, inr r) ->
  existe_tarea b1 (tp_id (fst r)) = true.
Proof.
  unfold guardar_tarea, existe_tarea. intros Hh. destruct h as [t|].
  - intros [= <- <-]. cbn.
    rewrite existsb_map_id.
    + apply existsb_exists. exists t. split; [now apply Hh|apply Z.eqb_refl].
    + intros x. now destruct (tp_id x =? tp_id t)%Z.
  - destruct (_ && _); [|discriminate]. intros [= <- <-]. cbn.
    rewrite existsb_app. cbn. now rewrite Z.eqb_refl, orb_true_r.
Qed.

Lemma buscar_tarea_In (b : base) (t : TareaProgramada) :
  buscar_tarea c i b = Some t -> In t (tareas_programadas b).
Proof.
  unfold buscar_tarea. destruct (_ && _); [|discriminate].
  intros H. now apply find_some in H.
Qed.

Lemma find_none_existsb {A : Type} (p : A -> bool) (l : list A) :
  find p l = None -> existsb p l = false.
Proof.
  induction l as [|x l IH]; simpl; [reflexivity|].
  destruct (p x); [discriminate|exact IH].
Qed.

(** C2.  Every upsert that returns a task leaves that task with exactly one
    link per service id of the call, duplicates removed with the first
    occurrence kept and the order preserved, whatever its links were
    before, and leaves the links of the other tasks as they were; and the
    upsert does return a task when the carrier and the services exist and
    the key can be looked up or is not taken.  So after linking [1;2;3] and
    then [2;3;4] the links of the task are 2, 3 and 4. *)
Theorem enlaces_reemplazados (b : base) :
  (forall b' t creada,
      crear_tarea_programada fi ff tipo sids c ta desc i b
      = (b', inr (t, creada)) ->
      enlaces_de b' (tp_id t) = Spec.primeras sids
      /\ (forall u, u <> tp_id t -> enlaces_de b' u = enlaces_de b u))
  /\ (existe_carrier b c = true ->
      Forall (fun s => existe_servicio b s = true) sids ->
      cierto_Z c && cierto_s i = true
      \/ existsb (misma_clave c i) (tareas_programadas b) = false ->
      exists b' t creada,
        crear_tarea_programada fi ff tipo sids c ta desc i b
        = (b', inr (t, creada))).
Proof.
  split.
  - intros b' t creada H. unfold crear_tarea_programada in H.
    apply guardar_resultado in H as (b1 & H1 & H2).
    apply guardar_tarea_enlaces in H1 as (E & _ & _).
    apply reemplazar_enlaces_hecho in H2 as (_ & _ & _ & L1 & L2).
    split; [exact L1|].
    intros u N. rewrite (L2 u N). unfold enlaces_de. now rewrite E.
  - intros Hc Hs Hk. unfold crear_tarea_programada.
    assert (exists b1 r,
               guardar_tarea fi ff tipo c ta desc i (buscar_tarea c i b) b
               = (b1, inr r)) as (b1 & r & H1).
    { destruct (buscar_tarea c i b) as [t|] eqn:B; cbn.
      - eauto.
      - rewrite Hc.
        assert (existsb (misma_clave c i) (tareas_programadas b) = false)
          as ->.
        { destruct Hk as [Hk|Hk]; [|exact Hk].
          unfold buscar_tarea in B. rewrite Hk in B.
          now apply find_none_existsb. }
        cbn. eauto. }
    pose proof (guardar_tarea_existe _ _ _ _ (buscar_tarea_In b) H1) as Ht.
    pose proof (guardar_tarea_enlaces _ _ _ _ H1) as (_ & Es & _).
    destruct (reemplazar_enlaces_pasa (fst r) b1 Ht) as (b' & H2).
    { eapply Forall_impl; [|exact Hs]. intros s. unfold existe_servicio.
      now rewrite Es. }
    exists b', (fst r), (snd r). unfold guardar, bind, ret.
    rewrite H1, H2. now destruct r.
Qed.

End UpsertProps.

Lemma existsb_false_find {A : Type} (p : A -> bool) (l : list A) :
  existsb p l = false -> find p l = None.
Proof.
  induction l as [|x l IH]; simpl; [reflexivity|].
  destruct (p x); [discriminate|exact IH].
Qed.

Lemma existsb_false_filter {A : Type} (p : A -> bool) (l : list A) :
  existsb p l = false -> filter p l = [].
Proof.
  induction l as [|x l IH]; simpl; [reflexivity|].
  destruct (p x); [discriminate|exact IH].
Qed.

Lemma find_app_ultimo {A : Type} (p : A -> bool) (l : list A) (x : A) :
  existsb p l = false -> p x = true -> find p (l ++ [x]) = Some x.
Proof.
  induction l as [|y l IH]; simpl; intros H Hx.
  - now rewrite Hx.
  - destruct (p y); [discriminate|now apply IH].
Qed.

Lemma map_fuera_de_rango (f : TareaProgramada -> TareaProgramada) (n : Z)
      (l : list TareaProgramada) :
  Forall (fun t => (tp_id t < n)%Z) l ->
  map (fun t => if (tp_id t =? n)%Z then f t else t) l = l.
Proof.
  induction 1 as [|t l Ht _ IH]; simpl; [reflexivity|].
  destruct (Z.eqb_spec (tp_id t) n); [lia|now rewrite IH].
Qed.

Section Idempotencia.

Variables (fi1 ff1 fi2 ff2 : datetime) (tipo1 tipo2 : string)
          (sids1 sids2 : list Z) (ta1 ta2 desc1 desc2 : option string)
          (c : Z) (i : string).

(** C1, as amended.  When the carrier id is not zero and the internal id
    is not empty, the carrier and the services exist and no task has the
    key yet, two calls of the upsert with that key, whatever their other
    arguments, leave exactly one task with the key, and one task more than
    before in the table: the first call inserts it and returns [True], the
    second finds it, returns [False] and leaves it with the description of
    the second call. *)
Theorem upsert_idempotente (b : base) :
  c <> 0%Z ->
  i <> EmptyString ->
  existe_carrier b (Some c) = true ->
  Forall (fun s => existe_servicio b s = true) sids1 ->
  Forall (fun s => existe_servicio b s = true) sids2 ->
  Forall (fun t => (tp_id t < sec_tareas b)%Z) (tareas_programadas b) ->
  existsb (misma_clave (Some c) (Some i)) (tareas_programadas b) = false ->
  exists b1 t1 b2 t2,
    crear_tarea_programada fi1 ff1 tipo1 sids1 (Some c) ta1 desc1 (Some i) b
    = (b1, inr (t1, true))
    /\ crear_tarea_programada fi2 ff2 tipo2 sids2 (Some c) ta2 desc2 (Some i)
                              b1
       = (b2, inr (t2, false))
    /\ filter (misma_clave (Some c) (Some i)) (tareas_programadas b2) = [t2]
    /\ descripcion t2 = desc2
    /\ tp_id t2 = tp_id t1
    /\ List.length (tareas_programadas b2)
       = S (List.length (tareas_programadas b)).
Proof.
  intros Hc Hi Hcar Hs1 Hs2 Hfresh Hk.
  assert (cierto_Z (Some c) && cierto_s (Some i) = true) as Hg.
  { cbn. destruct (Z.eqb_spec c 0); [contradiction|].
    destruct i; [contradiction|reflexivity]. }
  set (t1 := MkTarea (sec_tareas b) fi1 ff1 tipo1 ta1 desc1 (Some c) (Some i)).
  set (bA := con_tareas b (tareas_programadas b ++ [t1]) (sec_tareas b + 1)%Z).
  assert (guardar_tarea fi1 ff1 tipo1 (Some c) ta1 desc1 (Some i) None b
          = (bA, inr (t1, true))) as G1.
  { unfold guardar_tarea. now rewrite Hcar, Hk. }
  destruct (reemplazar_enlaces_pasa sids1 t1 bA) as (b1 & R1).
  { refine (guardar_tarea_existe _ _ _ _ _ _ _ None b bA (t1, true) _ G1).
    discriminate. }
  { exact Hs1. }
  destruct (reemplazar_enlaces_hecho _ _ _ _ R1) as (T1 & C1 & S1 & _).
  cbn in T1, C1, S1.
  assert (misma_clave (Some c) (Some i) t1 = true) as Hm.
  { unfold misma_clave. cbn. now rewrite Z.eqb_refl, String.eqb_refl. }
  set (t2 := actualizada fi2 ff2 tipo2 ta2 desc2 t1).
  set (bB := con_tareas b1 (tareas_programadas b ++ [t2]) (sec_tareas b1)).
  assert (guardar_tarea fi2 ff2 tipo2 (Some c) ta2 desc2 (Some i) (Some t1) b1
          = (bB, inr (t2, false))) as G2.
  { unfold guardar_tarea, bB. rewrite T1, map_app. cbn [map tp_id t1].
    rewrite Z.eqb_refl, map_fuera_de_rango by exact Hfresh. reflexivity. }
  destruct (reemplazar_enlaces_pasa sids2 t2 bB) as (b2 & R2).
  { refine (guardar_tarea_existe _ _ _ _ _ _ _ (Some t1) b1 bB (t2, false)
                                  _ G2).
    intros t [= <-]. rewrite T1. apply in_or_app. right. now left. }
  { unfold existe_servicio. cbn. rewrite S1. exact Hs2. }
  destruct (reemplazar_enlaces_hecho _ _ _ _ R2) as (T2 & _).
  cbn in T2.
  exists b1, t1, b2, t2. repeat split.
  - unfold crear_tarea_programada, buscar_tarea. rewrite Hg.
    rewrite (existsb_false_find _ _ Hk).
    unfold guardar, bind, ret. rewrite G1. cbn [fst]. now rewrite R1.
  - unfold crear_tarea_programada, buscar_tarea. rewrite Hg, T1.
    rewrite (find_app_ultimo _ _ _ Hk Hm).
    unfold guardar, bind, ret. rewrite G2. cbn [fst]. now rewrite R2.
  - rewrite T2, filter_app, (existsb_false_filter _ _ Hk). cbn.
    fold t1. change (misma_clave (Some c) (Some i) t2)
      with (misma_clave (Some c) (Some i) t1).
    now rewrite Hm.
  - rewrite T2, length_app. cbn. lia.
Qed.

End Idempotencia.

(** The two calls on the base of the examples, with the key (1, "SWX0000001"). *)
Lemma upsert_idempotente_ejemplo :
  exists b1 t1 b2 t2,
    crear_tarea_programada d_0800 d_1000 "Mantenimiento" [1; 2]%Z (Some 1%Z)
                           None (Some "primera") (Some "SWX0000001")
                           base_ejemplo
    = (b1, inr (t1, true))
    /\ crear_tarea_programada d_0800 d_1000 "Mantenimiento" [1; 2]%Z
                              (Some 1%Z) None (Some "segunda")
                              (Some "SWX0000001") b1
       = (b2, inr (t2, false))
    /\ filter (misma_clave (Some 1%Z) (Some "SWX0000001"))
              (tareas_programadas b2) = [t2]
    /\ descripcion t2 = Some "segunda"
    /\ tp_id t2 = tp_id t1
    /\ List.length (tareas_programadas b2)
       = S (List.length (tareas_programadas base_ejemplo)).
Proof.
  apply (upsert_idempotente d_0800 d_1000 d_0800 d_1000
           "Mantenimiento" "Mantenimiento" [1; 2]%Z [1; 2]%Z None None
           (Some "primera") (Some "segunda") 1%Z "SWX0000001" base_ejemplo).
  - discriminate.
  - discriminate.
  - reflexivity.
  - repeat constructor.
  - repeat constructor.
  - constructor.
  - reflexivity.
Defined.

(** C1, as stated, fails for a key that is not null but that the code
    takes for absent: with the empty internal id the second call skips the
    lookup, inserts again and is refused by the unique constraint. *)
Lemma upsert_clave_vacia :
  exists b1 t1,
    crear_tarea_programada d_0800 d_1000 "Mantenimiento" [1; 2]%Z (Some 1%Z)
                           None (Some "primera") (Some EmptyString)
                           base_ejemplo
    = (b1, inr (t1, true))
    /\ crear_tarea_programada d_0800 d_1000 "Mantenimiento" [1; 2]%Z
                              (Some 1%Z) None (Some "segunda")
                              (Some EmptyString) b1
       = (b1, inl IntegrityError)
    /\ map descripcion (tareas_programadas b1) = [Some "primera"].
Proof.
  eexists. eexists. split; [reflexivity|]. split; reflexivity.
Qed.

(** The services 1, 2, 3 and then 2, 3, 4 linked to the same task. *)
Lemma enlaces_reemplazados_ejemplo :
  let b1 :=
    fst (crear_tarea_programada d_0800 d_1000 "Mantenimiento" [1; 2; 3]%Z
           (Some 1%Z) None None (Some "SWX0000001") base_ejemplo) in
  exists b2 t creada,
    crear_tarea_programada d_0800 d_1000 "Mantenimiento" [2; 3; 4]%Z
                           (Some 1%Z) None None (Some "SWX0000001") b1
    = (b2, inr (t, creada))
    /\ enlaces_de b1 (tp_id t) = [1; 2; 3]%Z
    /\ enlaces_de b2 (tp_id t) = [2; 3; 4]%Z.
Proof.
  intros b1.
  pose proof (enlaces_reemplazados d_0800 d_1000 "Mantenimiento" [2; 3; 4]%Z
                (Some 1%Z) None None (Some "SWX0000001") b1) as [A B].
  destruct B as (b2 & t & creada & E).
  - reflexivity.
  - repeat constructor.
  - left. reflexivity.
  - exists b2, t, creada. split; [exact E|].
    destruct (A b2 t creada E) as [L _].
    split; [|exact L].
    vm_compute in E. injection E as _ <- _. reflexivity.
Defined.

(** C9 fails on the code.  Two writers look the key up in the same base and
    find nothing; the first one commits its task; the insert of the second
    is refused by the unique constraint and the upsert raises
    IntegrityError: nothing catches it, looks the row up again and updates
    it. *)
Lemma carrera_no_recuperada :
  let hallada := buscar_tarea (Some 1%Z) (Some "SWX0000001") base_ejemplo in
  let b1 :=
    fst (guardar d_0800 d_1000 "Mantenimiento" [1]%Z (Some 1%Z) None
                 (Some "rival") (Some "SWX0000001") hallada base_ejemplo) in
  hallada = None
  /\ guardar d_0800 d_1000 "Mantenimiento" [2]%Z (Some 1%Z) None
             (Some "propia") (Some "SWX0000001") hallada b1
     = (b1, inl IntegrityError)
  /\ map descripcion (tareas_programadas b1) = [Some "rival"].
Proof.
  repeat split.
Qed.

(** ** C3: the resolution of the identifiers *)

Lemma get_servicio_clave (b : base) (n : Z) (s : Servicio) :
  get_servicio b n = Some s -> In s (servicios b) /\ srv_id s = n.
Proof.
  unfold get_servicio. intros H. apply find_some in H as [H1 H2].
  split; [exact H1|now apply Z.eqb_eq].
Qed.





(** ** The scan of [re.search] *)

Lemma alguno_true (l : list alcance) : alguno l = true <-> l <> [].
Proof. destruct l; simpl; split; congruence. Qed.

(** [re.search] finds a match exactly when the pattern matches at some
    position. *)
Lemma search_desde_completo (r : regex) (s : string) (prev : option ascii) :
  hay (search_desde r prev s) = true
  <-> exists antes desde,
        s = (antes ++ desde)%string
        /\ alcances r (ultimo prev antes) desde <> [].
Proof.
  revert prev; induction s as [|c s IH]; intros prev;
    rewrite hay_search_desde.
  - rewrite orb_false_r, alguno_true. split.
    + intros H. now exists EmptyString, EmptyString.
    + intros (a & d & E & H). destruct a; [|discriminate].
      simpl in E. now subst d.
  - rewrite orb_true_iff, alguno_true, IH. split.
    + intros [H|(a & d & E & H)].
      * now exists EmptyString, (String c s).
      * exists (String c a), d. split; [simpl; now rewrite E|exact H].
    + intros (a & d & E & H). destruct a as [|c' a]; simpl in E.
      * left. now subst d.
      * injection E as -> ->. right. now exists a, d.
Qed.

(** *** The search is sound and complete for [Spec.casa] *)

Lemma append_assoc (a b c : string) :
  ((a ++ b) ++ c = a ++ (b ++ c))%string.
Proof. induction a as [|x a IH]; simpl; [reflexivity|now rewrite IH]. Qed.

Lemma append_vacia (a : string) : (a ++ EmptyString)%string = a.
Proof. induction a as [|x a IH]; simpl; [reflexivity|now rewrite IH]. Qed.

Lemma lit_m_igual (ci : bool) (l s c r : string) :
  lit_m ci l s = Some (c, r)
  <-> s = (c ++ r)%string /\ Spec.igual ci l c = true.
Proof.
  revert s c r; induction l as [|a l IH]; intros s c r.
  - cbn [lit_m]. split.
    + intros [= <- <-]. now split.
    + intros [E H]. destruct c; [|discriminate]. now subst.
  - destruct s as [|b s]; cbn [lit_m].
    + split; [discriminate|]. intros [E H].
      destruct c; [discriminate|discriminate].
    + destruct (eq_c ci a b) eqn:Q.
      * destruct (lit_m ci l s) as [[c0 r0]|] eqn:L.
        -- apply IH in L as [-> I]. split.
           ++ intros [= <- <-]. split; [reflexivity|].
              cbn [Spec.igual]. now rewrite Q, I.
           ++ intros [E H]. destruct c as [|b' c]; [discriminate|].
              cbn [String.append] in E. injection E as <- E.
              cbn [Spec.igual] in H. apply andb_prop in H as [_ H].
              assert (lit_m ci l (c0 ++ r0)%string = Some (c, r)) as K
                  by (apply IH; now split).
              assert (lit_m ci l (c0 ++ r0)%string = Some (c0, r0)) as K'
                  by (apply IH; now split).
              congruence.
        -- split; [discriminate|]. intros [E H].
           destruct c as [|b' c]; [discriminate|].
           cbn [String.append] in E. injection E as <- E.
           cbn [Spec.igual] in H. apply andb_prop in H as [_ H].
           assert (lit_m ci l s = Some (c, r)) as K by (apply IH; now split).
           congruence.
      * split; [discriminate|]. intros [E H].
        destruct c as [|b' c]; [discriminate|].
        cbn [String.append] in E. injection E as <- E.
        cbn [Spec.igual] in H. rewrite Q in H. discriminate.
Qed.

Lemma star_m_In (p : ascii -> bool) (s c r : string) :
  In (c, r) (star_m p s) <-> s = (c ++ r)%string /\ forallb_s p c = true.
Proof.
  revert c r; induction s as [|a s IH]; intros c r; cbn [star_m].
  - split.
    + intros [[= <- <-]|[]]. now split.
    + intros [E H]. destruct c; [|discriminate]. cbn in E. subst r.
      now left.
  - assert (In (c, r) [(EmptyString, String a s)]
            <-> c = EmptyString /\ r = String a s) as V.
    { split; [intros [[= <- <-]|[]]; now split|intros [-> ->]; now left]. }
    destruct (p a) eqn:Pa.
    + rewrite in_app_iff, in_map_iff, V. split.
      * intros [([c0 r0] & [= <- <-] & H)|[-> ->]].
        -- apply IH in H as [-> H]. cbn. now rewrite Pa, H.
        -- now split.
      * intros [E H]. destruct c as [|b c].
        -- right. cbn in E. now subst.
        -- left. cbn [String.append] in E. injection E as <- ->.
           cbn in H. apply andb_prop in H as [_ H].
           exists (c, r). split; [reflexivity|]. apply IH. now split.
    + rewrite V. split.
      * intros [-> ->]. now split.
      * intros [E H]. destruct c as [|b c].
        -- cbn in E. now subst.
        -- cbn [String.append] in E. injection E as <- ->.
           cbn in H. rewrite Pa in H. discriminate.
Qed.

Lemma plus_m_In (p : ascii -> bool) (s c r : string) :
  In (c, r) (plus_m p s)
  <-> s = (c ++ r)%string /\ c <> EmptyString /\ forallb_s p c = true.
Proof.
  destruct s as [|a s]; cbn [plus_m].
  - split; [intros []|]. intros (E & N & _). destruct c; [contradiction|].
    discriminate.
  - destruct (p a) eqn:Pa.
    + rewrite in_map_iff. split.
      * intros ([c0 r0] & [= <- <-] & H). apply star_m_In in H as [-> H].
        repeat split; [discriminate|]. cbn. now rewrite Pa, H.
      * intros (E & N & H). destruct c as [|b c]; [contradiction|].
        cbn [String.append] in E. injection E as <- ->.
        cbn in H. apply andb_prop in H as [_ H].
        exists (c, r). split; [reflexivity|]. apply star_m_In. now split.
    + split; [intros []|]. intros (E & N & H).
      destruct c as [|b c]; [contradiction|].
      cbn [String.append] in E. injection E as <- ->.
      cbn in H. rewrite Pa in H. discriminate.
Qed.

Lemma rep_m_In (n : nat) (p : ascii -> bool) (s c r : string) :
  rep_m n p s = Some (c, r)
  <-> s = (c ++ r)%string /\ String.length c = n /\ forallb_s p c = true.
Proof.
  revert s c r; induction n as [|n IH]; intros s c r; cbn [rep_m].
  - split.
    + intros [= <- <-]. now repeat split.
    + intros (E & L & _). destruct c; [|discriminate]. cbn in E. now subst.
  - destruct s as [|a s].
    + split; [discriminate|]. intros (E & L & _).
      destruct c; discriminate.
    + destruct (p a) eqn:Pa.
      * destruct (rep_m n p s) as [[c0 r0]|] eqn:R; cbn [option_map];
          unfold ante; cbn [fst snd].
        -- apply IH in R as (-> & L & F). split.
           ++ intros [= <- <-]. repeat split; cbn; [now rewrite L|].
              now rewrite Pa, F.
           ++ intros (E & L' & F'). destruct c as [|b c]; [discriminate|].
              cbn [String.append] in E. injection E as <- E.
              cbn in L', F'. apply andb_prop in F' as [_ F'].
              assert (rep_m n p (c0 ++ r0)%string = Some (c, r)) as K
                  by (apply IH; repeat split; auto).
              assert (rep_m n p (c0 ++ r0)%string = Some (c0, r0)) as K'
                  by (apply IH; repeat split; auto).
              congruence.
        -- split; [discriminate|]. intros (E & L' & F').
           destruct c as [|b c]; [discriminate|].
           cbn [String.append] in E. injection E as <- E.
           cbn in L', F'. apply andb_prop in F' as [_ F'].
           assert (rep_m n p s = Some (c, r)) as K
               by (apply IH; repeat split; auto).
           congruence.
      * split; [discriminate|]. intros (E & L' & F').
        destruct c as [|b c]; [discriminate|].
        cbn [String.append] in E. injection E as <- E.
        cbn in F'. rewrite Pa in F'. discriminate.
Qed.

Lemma In_de_option (x : option (string * string)) (h : alcance) :
  In h (de_option x)
  <-> x = Some (consumido h, resto h) /\ grupos h = [].
Proof.
  destruct x as [[c r]|]; cbn.
  - split.
    + intros [<-|[]]. now split.
    + intros [[= -> ->] G]. left. destruct h; cbn in *. now subst.
  - split; [intros []|intros [? _]; discriminate].
Qed.

Lemma In_map_simple (l : list (string * string)) (h : alcance) :
  In h (map simple l) <-> In (consumido h, resto h) l /\ grupos h = [].
Proof.
  rewrite in_map_iff. split.
  - intros ([c r] & <- & H). now split.
  - intros [H G]. exists (consumido h, resto h). split; [|exact H].
    destruct h; cbn in *. now subst.
Qed.

(** Every match the search lists is a match, and the text it leaves is
    what follows it. *)
Lemma alcances_correcto (r : regex) (prev : option ascii) (s : string)
      (h : alcance) :
  In h (alcances r prev s) ->
  s = (consumido h ++ resto h)%string
  /\ Spec.casa r prev (consumido h) (resto h).
Proof.
  revert prev s h; induction r as [ci l|p|r1 IH1 r2 IH2|r1 IH1 r2 IH2|r1 IH1
                                  |p|p|n p|r1 IH1|]; intros prev s h;
    cbn [alcances Spec.casa].
  - rewrite In_de_option, lit_m_igual. tauto.
  - destruct s as [|a s]; [intros []|].
    destruct (p a) eqn:Pa; [|intros []].
    intros [<-|[]]. cbn. split; [reflexivity|now exists a].
  - rewrite in_flat_map. intros (h1 & H1 & H).
    apply in_map_iff in H as (h2 & <- & H2).
    apply IH1 in H1 as [E1 C1]. apply IH2 in H2 as [E2 C2].
    cbn [seguir consumido resto]. split.
    + now rewrite append_assoc, <- E2.
    + exists (consumido h1), (consumido h2). rewrite <- E2. now repeat split.
  - rewrite in_app_iff. intros [H|H]; [apply IH1 in H|apply IH2 in H]; tauto.
  - rewrite in_app_iff. intros [H|[<-|[]]]; [apply IH1 in H; tauto|].
    cbn. split; [reflexivity|now right].
  - rewrite In_map_simple, star_m_In. tauto.
  - rewrite In_map_simple, plus_m_In. tauto.
  - rewrite In_de_option, rep_m_In. tauto.
  - rewrite in_map_iff. intros (h1 & <- & H). apply IH1 in H. exact H.
  - destruct (xorb _ _) eqn:X; [|intros []]. intros [<-|[]]. cbn.
    now repeat split.
Qed.

(** Every match is among those the search lists. *)
Lemma alcances_completo (r : regex) (prev : option ascii) (c rest : string) :
  Spec.casa r prev c rest ->
  exists h, In h (alcances r prev (c ++ rest)%string)
            /\ consumido h = c /\ resto h = rest.
Proof.
  revert prev c rest; induction r as [ci l|p|r1 IH1 r2 IH2|r1 IH1 r2 IH2|r1 IH1
                                     |p|p|n p|r1 IH1|]; intros prev c rest;
    cbn [alcances Spec.casa].
  - intros H. exists (Alcance c rest []). split; [|now split].
    apply In_de_option. split; [|reflexivity]. apply lit_m_igual. now split.
  - intros (a & -> & Pa). cbn. rewrite Pa.
    exists (Alcance (String a EmptyString) rest []). split; [now left|now split].
  - intros (c1 & c2 & -> & C1 & C2).
    destruct (IH1 _ _ _ C1) as (h1 & H1 & E1 & R1).
    destruct (IH2 _ _ _ C2) as (h2 & H2 & E2 & R2).
    exists (seguir h1 h2). rewrite append_assoc. split.
    + apply in_flat_map. exists h1. split; [exact H1|].
      apply in_map. now rewrite E1, R1.
    + cbn. now rewrite E1, E2, R2.
  - intros [C|C]; [destruct (IH1 _ _ _ C) as (h & H & E)
                  |destruct (IH2 _ _ _ C) as (h & H & E)];
      exists h; (split; [apply in_or_app; auto|exact E]).
  - intros [C| ->].
    + destruct (IH1 _ _ _ C) as (h & H & E). exists h.
      split; [apply in_or_app; auto|exact E].
    + exists (Alcance EmptyString rest []). split; [|now split].
      apply in_or_app. right. now left.
  - intros H. exists (Alcance c rest []). split; [|now split].
    apply In_map_simple. split; [|reflexivity]. apply star_m_In. now split.
  - intros [N H]. exists (Alcance c rest []). split; [|now split].
    apply In_map_simple. split; [|reflexivity]. apply plus_m_In.
    now repeat split.
  - intros [L H]. exists (Alcance c rest []). split; [|now split].
    apply In_de_option. split; [|reflexivity]. apply rep_m_In.
    now repeat split.
  - intros C. destruct (IH1 _ _ _ C) as (h & H & E1 & E2).
    exists (Alcance (consumido h) (resto h) (consumido h :: grupos h)).
    split; [|now split].
    apply in_map_iff. now exists h.
  - intros [-> X]. cbn [String.append]. rewrite X.
    exists (Alcance EmptyString rest []). split; [now left|now split].
Qed.

(** [re.search] finds a match exactly where the pattern matches. *)
Lemma search_casa_en (r : regex) (texto : string) :
  hay (search r texto) = true <-> Spec.casa_en r texto.
Proof.
  unfold search, Spec.casa_en. rewrite search_desde_completo. split.
  - intros (antes & desde & E & H).
    destruct (alcances r (ultimo None antes) desde) as [|h l] eqn:A;
      [contradiction|].
    destruct (alcances_correcto r (ultimo None antes) desde h) as [E' C];
      [rewrite A; now left|].
    exists antes, (consumido h), (resto h). split; [|exact C].
    now rewrite <- E'.
  - intros (antes & c & despues & E & C).
    exists antes, (c ++ despues)%string. split; [exact E|].
    destruct (alcances_completo _ _ _ _ C) as (h & H & _).
    intros K. rewrite K in H. exact H.
Qed.

Lemma search_Some (r : regex) (texto : string) :
  Spec.casa_en r texto -> exists m, search r texto = Some m.
Proof.
  intros H. apply search_casa_en in H.
  destruct (search r texto) as [m|]; [now exists m|discriminate].
Qed.

Lemma search_None (r : regex) (texto : string) :
  ~ Spec.casa_en r texto -> search r texto = None.
Proof.
  intros H. destruct (search r texto) as [m|] eqn:E; [|reflexivity].
  exfalso. apply H, search_casa_en. now rewrite E.
Qed.

(** ** Trimming *)

Lemma lstrip_no_inicia (s : string) : no_inicia_blanco (lstrip s).
Proof.
  induction s as [|c s IH]; simpl; [exact I|].
  destruct (isspace c) eqn:E; [exact IH|exact E].
Qed.

Lemma lstrip_fijo (s : string) : no_inicia_blanco s -> lstrip s = s.
Proof. destruct s as [|c s]; simpl; [reflexivity|now intros ->]. Qed.

Lemma rstrip_no_inicia (s : string) :
  no_inicia_blanco s -> no_inicia_blanco (rstrip s).
Proof.
  destruct s as [|c s]; simpl; [trivial|]. intros E.
  now rewrite E, andb_false_r.
Qed.

Lemma rstrip_idem (s : string) : rstrip (rstrip s) = rstrip s.
Proof.
  induction s as [|c s IH]; simpl; [reflexivity|].
  destruct (vacia (rstrip s) && isspace c) eqn:E; [reflexivity|].
  simpl. now rewrite IH, E.
Qed.

Lemma strip_idem (s : string) : strip (strip s) = strip s.
Proof.
  unfold strip.
  rewrite (lstrip_fijo (rstrip (lstrip s))).
  - apply rstrip_idem.
  - apply rstrip_no_inicia, lstrip_no_inicia.
Qed.

Lemma forallb_lstrip (p : ascii -> bool) (s : string) :
  forallb_s p s = true -> forallb_s p (lstrip s) = true.
Proof.
  induction s as [|c s IH]; simpl; [trivial|]. intros H.
  destruct (isspace c); [|exact H].
  apply andb_prop in H as [_ H]. now apply IH.
Qed.

Lemma forallb_rstrip (p : ascii -> bool) (s : string) :
  forallb_s p s = true -> forallb_s p (rstrip s) = true.
Proof.
  induction s as [|c s IH]; simpl; [trivial|]. intros H.
  apply andb_prop in H as [H1 H2].
  destruct (vacia (rstrip s) && isspace c); [reflexivity|].
  simpl. now rewrite H1, IH.
Qed.

Lemma forallb_strip (p : ascii -> bool) (s : string) :
  forallb_s p s = true -> forallb_s p (strip s) = true.
Proof. intros H. now apply forallb_rstrip, forallb_lstrip. Qed.

Lemma forallb_s_app (p : ascii -> bool) (a b : string) :
  forallb_s p (a ++ b) = forallb_s p a && forallb_s p b.
Proof.
  induction a as [|c a IH]; simpl; [reflexivity|].
  now rewrite IH, andb_assoc.
Qed.

(** The pieces of [split] hold no separator. *)
Lemma split_c_sin_sep (sep : ascii) (s cur : string) :
  forallb_s (fun c => negb (Ascii.eqb c sep)) cur = true ->
  Forall (fun x => forallb_s (fun c => negb (Ascii.eqb c sep)) x = true)
         (split_c sep cur s).
Proof.
  revert cur; induction s as [|c s IH]; intros cur H; simpl.
  - now constructor.
  - destruct (Ascii.eqb c sep) eqn:E.
    + constructor; [exact H|]. now apply IH.
    + apply IH. rewrite forallb_s_app, H. simpl. now rewrite E.
Qed.

Lemma partir_ids_limpios (g : string) : Forall Spec.id_limpio (partir_ids g).
Proof.
  unfold partir_ids. apply Forall_forall. intros i Hi.
  apply filter_In in Hi as [Hi Hv].
  apply in_map_iff in Hi as (x & <- & Hx).
  repeat split.
  - intros E. rewrite E in Hv. discriminate.
  - apply strip_idem.
  - apply forallb_strip.
    pose proof (split_c_sin_sep (ascii_of_nat 44) g EmptyString eq_refl) as F.
    rewrite Forall_forall in F. specialize (F x Hx).
    erewrite <- F at 1. clear.
    induction x as [|c x IH]; simpl; [reflexivity|]. rewrite IH.
    f_equal. f_equal. unfold es.
    destruct (Ascii.eqb_spec c (ascii_of_nat 44)) as [->|N]; [reflexivity|].
    destruct (Nat.eqb_spec (ord c) 44) as [E|E]; [|reflexivity].
    exfalso. apply N. unfold ord in E.
    rewrite <- (ascii_nat_embedding c), E. reflexivity.
Qed.

(** ** The stages of the pipeline *)

Section Etapas.

Variable servicio : nat -> string -> option string.
Variable procesar_json_response : string -> option datos.
Variable fromisoformat : string -> option fechahora.
Variable anio_actual : Z.
Variable hora_local : datetime -> Z -> datetime.
Variables (texto cliente_nombre : string) (carrier_nombre : option string).
Variable w : mundo.

Let tl := _limpiar_correo texto.
Let correr :=
  procesar_correo_a_tarea servicio procesar_json_response fromisoformat
                          anio_actual hora_local texto cliente_nombre
                          carrier_nombre w.

Lemma etapa_sniffer (e : error) :
  _detectar_datos_correo tl = inl e -> correr = (w, inl e).
Proof.
  intros H. unfold correr, procesar_correo_a_tarea, bind, elevar.
  fold tl. now rewrite H.
Qed.



(** The requests to the completion service are those of the extraction
    stage. *)
Lemma etapa_gpt (dd : detectados) :
  _detectar_datos_correo tl = inr dd ->
  gpt (fst correr)
  = fst (extraer servicio procesar_json_response tl (_extraer_por_regex tl)
                 (gpt w)).
Proof.
  intros H1.
  unfold correr, procesar_correo_a_tarea, bind, elevar, en_gpt, en_bd.
  fold tl. rewrite H1.
  destruct (extraer _ _ _ _ _) as [g [e|d]]; [reflexivity|].
  destruct (fechas _ _ d) as [e|[i f]]; [reflexivity|].
  cbn [bd gpt fst].
  match goal with |- context [registrar ?a ?b ?c ?d ?e ?f ?g ?h ?i ?j] =>
    destruct (registrar a b c d e f g h i j) as [b' r] end.
  reflexivity.
Qed.

End Etapas.

(** ** C5: the fast path *)

Lemma extraer_por_regex_casa (texto : string) :
  Spec.casa_en patron_inicio texto ->
  Spec.casa_en patron_fin texto ->
  Spec.casa_en patron_ids texto ->
  exists m_i m_f m_s,
    search patron_inicio texto = Some m_i
    /\ search patron_fin texto = Some m_f
    /\ search patron_ids texto = Some m_s
    /\ _extraer_por_regex texto
       = Some (Datos (strip (grupo1 m_i)) (strip (grupo1 m_f))
                     (Some "Mantenimiento") None None
                     (partir_ids (grupo1 m_s))).
Proof.
  intros Hi Hf Hs.
  destruct (search_Some _ _ Hi) as (m_i & Ei).
  destruct (search_Some _ _ Hf) as (m_f & Ef).
  destruct (search_Some _ _ Hs) as (m_s & Es).
  exists m_i, m_f, m_s. unfold _extraer_por_regex.
  rewrite Ei, Ef, Es. now repeat split.
Qed.

(** C5.  When the patterns of "inicio", "fin" and "servicios" all match
    somewhere in the text, the regex extractor returns a record: the
    trimmed texts of the first two fields, the type "Mantenimiento", no
    affectation, no description, and the identifiers of the third field cut
    at the commas, trimmed, the empty ones left out.  When one of the three
    patterns matches nowhere it returns nothing.  And whenever it returns a
    record for the normalized text, the pipeline sends no request to the
    completion service, whatever else happens in the run. *)
Theorem via_rapida :
  (forall texto,
      Spec.casa_en patron_inicio texto ->
      Spec.casa_en patron_fin texto ->
      Spec.casa_en patron_ids texto ->
      exists m_i m_f m_s,
        search patron_inicio texto = Some m_i
        /\ search patron_fin texto = Some m_f
        /\ search patron_ids texto = Some m_s
        /\ _extraer_por_regex texto
           = Some (Datos (strip (grupo1 m_i)) (strip (grupo1 m_f))
                         (Some "Mantenimiento") None None
                         (partir_ids (grupo1 m_s)))
        /\ Forall Spec.id_limpio (partir_ids (grupo1 m_s)))
  /\ (forall texto,
         ~ (Spec.casa_en patron_inicio texto
            /\ Spec.casa_en patron_fin texto
            /\ Spec.casa_en patron_ids texto) ->
         _extraer_por_regex texto = None)
  /\ (forall servicio procesar_json_response fromisoformat anio_actual
             hora_local texto cliente_nombre carrier_nombre w,
         _extraer_por_regex (_limpiar_correo texto) <> None ->
         gpt (fst (procesar_correo_a_tarea
                     servicio procesar_json_response fromisoformat
                     anio_actual hora_local texto cliente_nombre
                     carrier_nombre w))
         = gpt w).
Proof.
  split; [|split].
  - intros texto Hi Hf Hs.
    destruct (extraer_por_regex_casa texto Hi Hf Hs)
      as (m_i & m_f & m_s & Ei & Ef & Es & E).
    exists m_i, m_f, m_s. repeat split; auto. apply partir_ids_limpios.
  - intros texto H. unfold _extraer_por_regex.
    destruct (search patron_inicio texto) as [m_i|] eqn:Ei; [|reflexivity].
    destruct (search patron_fin texto) as [m_f|] eqn:Ef; [|reflexivity].
    destruct (search patron_ids texto) as [m_s|] eqn:Es; [|reflexivity].
    exfalso. apply H. repeat split; apply search_casa_en.
    + now rewrite Ei.
    + now rewrite Ef.
    + now rewrite Es.
  - intros servicio pjr fiso anio hl texto cli car w H.
    destruct (_detectar_datos_correo (_limpiar_correo texto)) as [e|dd] eqn:D.
    + now rewrite (etapa_sniffer servicio pjr fiso anio hl texto cli car w
                                 e D).
    + rewrite (etapa_gpt servicio pjr fiso anio hl texto cli car w dd D).
      destruct (_extraer_por_regex (_limpiar_correo texto));
        [reflexivity|congruence].
Qed.

(** A mail with the three fields. *)
Lemma via_rapida_ejemplo :
  _extraer_por_regex correo_campos
  = Some (Datos "02/01/2024 08:00" "02/01/2024 10:00" (Some "Mantenimiento")
                None None ["76208"; "78333"]).
Proof.
  destruct (proj1 via_rapida correo_campos)
    as (m_i & m_f & m_s & Ei & Ef & Es & E & _).
  - apply search_casa_en. vm_compute. reflexivity.
  - apply search_casa_en. vm_compute. reflexivity.
  - apply search_casa_en. vm_compute. reflexivity.
  - rewrite E. vm_compute in Ei, Ef, Es.
    injection Ei as <-. injection Ef as <-. injection Es as <-.
    reflexivity.
Defined.

(** A no-break space separates the label from the identifiers as a blank
    does. *)
Lemma via_rapida_nbsp :
  _extraer_por_regex correo_campos_nbsp
  = Some (Datos "02/01/2024 08:00" "02/01/2024 10:00" (Some "Mantenimiento")
                None None ["76208"; "78333"]).
Proof. vm_compute. reflexivity. Qed.

(** ** C7: dates *)

Lemma replace_year_campos (dt dt' : datetime) (y : Z) :
  replace_year dt y = Some dt' ->
  year dt' = y /\ month dt' = month dt /\ day dt' = day dt
  /\ hour dt' = hour dt /\ minute dt' = minute dt
  /\ second dt' = second dt /\ microsecond dt' = microsecond dt.
Proof.
  unfold replace_year. destruct (valida _); [|discriminate].
  intros [= <-]. now repeat split.
Qed.

Section FechasProps.

Variable fromisoformat : string -> option fechahora.
Variable anio_actual : Z.

(** Where a parsed date comes from: a format with the year, a format
    without the year and then the current year, or the generic parser.
    Only the generic parser gives aware dates. *)
Lemma probar_formatos_origen (fmts : list string) (v : string)
      (x : fechahora) :
  probar_formatos fromisoformat anio_actual fmts v = Some x ->
  (exists fmt, In fmt fmts /\ contiene "%Y" fmt = true
               /\ strptime v fmt = Some (campos x) /\ utcoffset x = None)
  \/ (exists fmt dt0, In fmt fmts /\ contiene "%Y" fmt = false
                      /\ strptime v fmt = Some dt0
                      /\ replace_year dt0 anio_actual = Some (campos x)
                      /\ utcoffset x = None)
  \/ fromisoformat v = Some x.
Proof.
  induction fmts as [|fmt fmts IH]; cbn [probar_formatos].
  - intros H. now right; right.
  - assert (probar_formatos fromisoformat anio_actual fmts v = Some x ->
            (exists f, In f (fmt :: fmts) /\ contiene "%Y" f = true
                       /\ strptime v f = Some (campos x)
                       /\ utcoffset x = None)
            \/ (exists f dt0, In f (fmt :: fmts)
                              /\ contiene "%Y" f = false
                              /\ strptime v f = Some dt0
                              /\ replace_year dt0 anio_actual
                                 = Some (campos x)
                              /\ utcoffset x = None)
            \/ fromisoformat v = Some x) as Resto.
    { intros H. destruct (IH H) as [(f & I & R)|[(f & d0 & I & R)|C]].
      - left. exists f. split; [now right|exact R].
      - right; left. exists f, d0. split; [now right|exact R].
      - now right; right. }
    destruct (strptime v fmt) as [d0|] eqn:S; [|exact Resto].
    destruct (contiene "%Y" fmt) eqn:Y; cbn [negb].
    + intros [= <-]. left. exists fmt. cbn. repeat split; auto.
    + destruct (replace_year d0 anio_actual) as [d1|] eqn:R; [|exact Resto].
      intros [= <-]. right; left. exists fmt, d0. cbn. repeat split; auto.
Qed.



End FechasProps.

Lemma dt_ltb_irrefl (a : datetime) : dt_ltb a a = false.
Proof.
  unfold dt_ltb. induction (tupla a) as [|x l IH]; simpl; [reflexivity|].
  now rewrite Z.ltb_irrefl, Z.eqb_refl, IH.
Qed.

(** The comparison raises exactly when one date is naive and the other
    aware. *)
Lemma ge_TypeError (a b : fechahora) :
  ge a b = None
  <-> (utcoffset a = None /\ utcoffset b <> None)
      \/ (utcoffset a <> None /\ utcoffset b = None).
Proof.
  unfold ge. destruct (utcoffset a) as [oa|], (utcoffset b) as [ob|].
  - destruct (oa =? ob)%Z; split; try discriminate;
      intros [[H _]|[_ H]]; discriminate.
  - split; [intros _; right; split; [discriminate|reflexivity]|reflexivity].
  - split; [intros _; left; split; [reflexivity|discriminate]|reflexivity].
  - split; [discriminate|]. intros [[_ H]|[H _]]; now elim H.
Qed.


(** ** The JSON text in an answer: from the first ["{"] to the last ["}"] *)




Lemma alcances_cierre_vacia (prev : option ascii) :
  alcances patron_cierre prev EmptyString = [].
Proof. reflexivity. Qed.








(** ** C6 and C8: the fallback extractor *)

Section Respaldo.

Variable servicio : nat -> string -> option string.
Variable procesar_json_response : string -> option datos.

Let extraer' := extraer servicio procesar_json_response.

Lemma extraer_regex (tl : string) (d : datos) (g : Gpt.estado) :
  extraer' tl (Some d) g = (g, inr d).
Proof. reflexivity. Qed.

Lemma extraer_peticion_fallida (tl : string) (g : Gpt.estado) :
  servicio (Gpt.llamadas g) (prompt tl) = None ->
  extraer' tl None g
  = (Gpt.MkEstado (S (Gpt.llamadas g)) (Gpt.cache g), inl err_extraccion).
Proof.
  intros H. unfold extraer', extraer, Gpt.consultar_gpt. now rewrite H.
Qed.

Lemma extraer_primera (tl : string) (g : Gpt.estado) (r1 : string)
      (m : alcance) :
  servicio (Gpt.llamadas g) (prompt tl) = Some r1 ->
  search patron_json r1 = Some m ->
  extraer' tl None g
  = (Gpt.MkEstado (S (Gpt.llamadas g)) (Gpt.cache g),
     validar procesar_json_response (consumido m)).
Proof.
  intros H1 H2. unfold extraer', extraer, Gpt.consultar_gpt.
  now rewrite H1, H2.
Qed.


Variable fromisoformat : string -> option fechahora.
Variable anio_actual : Z.
Variable hora_local : datetime -> Z -> datetime.


(** One run that reaches the fallback extractor and gets an answer with a
    text between braces sends exactly one request. *)
Lemma una_peticion (texto cliente_nombre : string)
      (carrier_nombre : option string) (w : mundo) (r : string) :
  Spec.llega_al_respaldo (texto, cliente_nombre, carrier_nombre) ->
  servicio (Gpt.llamadas (gpt w)) (prompt (_limpiar_correo texto)) = Some r ->
  hay (search patron_json r) = true ->
  let w' :=
    fst (procesar_correo_a_tarea servicio procesar_json_response
           fromisoformat anio_actual hora_local texto cliente_nombre
           carrier_nombre w) in
  Gpt.llamadas (gpt w') = S (Gpt.llamadas (gpt w))
  /\ Gpt.cache (gpt w') = Gpt.cache (gpt w).
Proof.
  intros [(dd & D) R] H1 H2 w'. cbn [fst snd] in D, R.
  unfold w'. rewrite (etapa_gpt _ _ _ _ _ _ _ _ _ dd D), R.
  destruct (search patron_json r) as [m|] eqn:E; [|discriminate].
  change (extraer servicio procesar_json_response) with extraer'.
  rewrite (extraer_primera _ (gpt w) r m H1 E). now split.
Qed.

End Respaldo.

(** C8.  The fallback extractor asks with the cache off: a run that
    reaches it and is answered with a text between braces sends exactly
    one request and keeps nothing in the cache; so, with a completion
    service that always gives the same such answer, the runs of N mails
    that reach the fallback extractor send exactly N requests. *)
Theorem sin_cache (servicio : nat -> string -> option string)
        (procesar_json_response : string -> option datos)
        (fromisoformat : string -> option fechahora) (anio_actual : Z)
        (hora_local : datetime -> Z -> datetime) :
  (forall texto cliente_nombre carrier_nombre w r,
      Spec.llega_al_respaldo (texto, cliente_nombre, carrier_nombre) ->
      servicio (Gpt.llamadas (gpt w)) (prompt (_limpiar_correo texto))
      = Some r ->
      hay (search patron_json r) = true ->
      let w' :=
        fst (procesar_correo_a_tarea servicio procesar_json_response
               fromisoformat anio_actual hora_local texto cliente_nombre
               carrier_nombre w) in
      Gpt.llamadas (gpt w') = S (Gpt.llamadas (gpt w))
      /\ Gpt.cache (gpt w') = Gpt.cache (gpt w))
  /\ (forall r correos w,
         (forall n p, servicio n p = Some r) ->
         hay (search patron_json r) = true ->
         Forall Spec.llega_al_respaldo correos ->
         Gpt.llamadas
           (gpt (Spec.procesar_seguidos servicio procesar_json_response
                   fromisoformat anio_actual hora_local correos w))
         = Gpt.llamadas (gpt w) + List.length correos).
Proof.
  split; [apply una_peticion|].
  intros r correos w Hs Hr Hc. revert w.
  induction Hc as [|[[t c] k] correos H _ IH]; intros w;
    cbn [Spec.procesar_seguidos List.length fst snd]; [lia|].
  rewrite IH.
  destruct (una_peticion servicio procesar_json_response fromisoformat
              anio_actual hora_local t c k w r H (Hs _ _) Hr) as [E _].
  rewrite E. lia.
Qed.

(** With the cache on, the handler answers a repeated prompt without a
    request, as tests/test_gpt_cache.py expects. *)
Lemma cache_activa_una_llamada (servicio : nat -> string -> option string)
      (p r : string) :
  servicio 0 p = Some r ->
  let '(g1, r1) := Gpt.consultar_gpt servicio p true Gpt.inicial in
  let '(g2, r2) := Gpt.consultar_gpt servicio p true g1 in
  r1 = Some r /\ r2 = Some r /\ Gpt.llamadas g1 = 1 /\ Gpt.llamadas g2 = 1.
Proof.
  intros H. unfold Gpt.consultar_gpt. cbn. rewrite H. cbn.
  now rewrite String.eqb_refl.
Qed.

(** ** The theorems at concrete mails *)




(** Three runs of the same mail, the same answer each time: three requests. *)
Lemma sin_cache_tres :
  Gpt.llamadas
    (gpt (Spec.procesar_seguidos servicio_fijo sin_json sin_iso 2026 sin_zona
            [ (correo_libre, "ACME", None); (correo_libre, "ACME", None);
              (correo_libre, "ACME", None) ]
            mundo_ejemplo))
  = 3.
Proof.
  refine (proj2 (sin_cache servicio_fijo sin_json sin_iso 2026 sin_zona) "{}" _
                mundo_ejemplo _ _ _).
  - reflexivity.
  - vm_compute. reflexivity.
  - assert (Spec.llega_al_respaldo (correo_libre, "ACME", None)) as L.
    { split.
      - exists (Detectados None None [] "Programada"). vm_compute. reflexivity.
      - vm_compute. reflexivity. }
    repeat (apply Forall_cons; [exact L|]). apply Forall_nil.
Defined.

(** ** The sequence of task ids stays ahead of the table *)

Lemma secuencia_por_delante (fi ff : datetime) (tipo : string)
      (sids : list Z) (c : option Z) (ta desc i : option string)
      (b b' : base) (r : error + TareaProgramada * bool) :
  Forall (fun t => (tp_id t < sec_tareas b)%Z) (tareas_programadas b) ->
  crear_tarea_programada fi ff tipo sids c ta desc i b = (b', r) ->
  Forall (fun t => (tp_id t < sec_tareas b')%Z) (tareas_programadas b').
Proof.
  intros F. unfold crear_tarea_programada, guardar, bind, ret.
  assert (forall h b1 x,
             guardar_tarea fi ff tipo c ta desc i h b = (b1, x) ->
             Forall (fun t => (tp_id t < sec_tareas b1)%Z)
                    (tareas_programadas b1)) as G.
  { intros h b1 x. unfold guardar_tarea. destruct h as [t|].
    - intros [= <- _]. cbn. apply Forall_forall. intros y Hy.
      apply in_map_iff in Hy as (z & <- & Hz).
      rewrite Forall_forall in F. specialize (F z Hz).
      now destruct (tp_id z =? tp_id t)%Z.
    - destruct (_ && _).
      + intros [= <- _]. cbn. apply Forall_app. split.
        * eapply Forall_impl; [|exact F]. cbn. intros; lia.
        * constructor; [cbn; lia|constructor].
      + now intros [= <- _]. }
  destruct (guardar_tarea fi ff tipo c ta desc i _ b) as [b1 [e|x]] eqn:E;
    apply G in E.
  - now intros [= <- _].
  - unfold reemplazar_enlaces. destruct (admite _ _ _); now intros [= <- _].
Qed.

(** ** Mails with the three fields in their usual shape *)

Lemma casa_campo (etiqueta_patron etiqueta valor despues : string)
      (prev : option ascii) :
  Spec.igual true etiqueta_patron etiqueta = true ->
  valor <> EmptyString ->
  forallb_s c_no_nl_cr valor = true ->
  Spec.casa (Lit true etiqueta_patron >> Plus c_sep >> Grp (Plus c_no_nl_cr))
            prev (etiqueta ++ ": " ++ valor) despues.
Proof.
  intros E N F. cbn [Spec.casa].
  exists etiqueta, (": " ++ valor)%string. split; [reflexivity|].
  split; [exact E|].
  exists ": ", valor. repeat split; auto. discriminate.
Qed.

(** A text with a line "Inicio: ...", a line "Fin: ..." and a line
    "Servicios: ..." always goes the fast way. *)
Lemma via_rapida_campos (a b c d vi vf vs : string) :
  vi <> EmptyString -> forallb_s c_no_nl_cr vi = true ->
  vf <> EmptyString -> forallb_s c_no_nl_cr vf = true ->
  vs <> EmptyString -> forallb_s c_ids vs = true ->
  _extraer_por_regex
    (a ++ ("Inicio: " ++ vi) ++ b ++ ("Fin: " ++ vf) ++ c
       ++ ("Servicios: " ++ vs) ++ d)
  <> None.
Proof.
  intros Ni Fi Nf Ff Ns Fs.
  destruct (extraer_por_regex_casa
              (a ++ ("Inicio: " ++ vi) ++ b ++ ("Fin: " ++ vf) ++ c
                 ++ ("Servicios: " ++ vs) ++ d)%string)
    as (m_i & m_f & m_s & _ & _ & _ & E).
  - exists a, ("Inicio: " ++ vi)%string,
      (b ++ ("Fin: " ++ vf) ++ c ++ ("Servicios: " ++ vs) ++ d)%string.
    split; [reflexivity|]. apply (casa_campo "inicio" "Inicio"); auto.
  - exists (a ++ ("Inicio: " ++ vi) ++ b)%string, ("Fin: " ++ vf)%string,
      (c ++ ("Servicios: " ++ vs) ++ d)%string.
    split; [now rewrite !append_assoc|].
    apply (casa_campo "fin" "Fin"); auto.
  - exists (a ++ ("Inicio: " ++ vi) ++ b ++ ("Fin: " ++ vf) ++ c)%string,
      ("Servicios: " ++ vs)%string, d.
    split; [now rewrite !append_assoc|].
    cbn [Spec.casa].
    exists "Servicio", ("s: " ++ vs)%string. split; [reflexivity|].
    split; [reflexivity|].
    exists "s", (": " ++ vs)%string. split; [reflexivity|].
    split; [left; reflexivity|].
    exists EmptyString, (": " ++ vs)%string. split; [reflexivity|].
    split; [right; reflexivity|].
    exists ": ", vs. repeat split; auto. discriminate.
  - rewrite E. discriminate.
Qed.

(** * Further properties of the code *)

(** ** The recipients of a client *)

From Stdlib Require Import Permutation.

Module DestinatariosProps.
Import Py Destinatarios.

Lemma cargar_forma (cliente_id : Z) (carrier : option string) (t : tabla) :
  cargar_destinatarios cliente_id carrier t
  = match get t cliente_id with
    | None => []
    | Some cli =>
        if cierto carrier
        then o_nada (dict_get (nombre carrier)
                              (entradas (destinatarios_carrier cli)))
        else o_nada (destinatarios cli)
    end.
Proof.
  unfold cargar_destinatarios. destruct (get t cliente_id) as [cli|];
    [|reflexivity].
  destruct (cierto carrier).
  - destruct (destinatarios_carrier cli) as [[|e d]|]; reflexivity.
  - destruct (destinatarios cli) as [[|x l]|]; reflexivity.
Qed.

Lemma dict_get_set (k : string) (v : list string) (d : dict) :
  dict_get k (dict_set k v d) = Some v.
Proof.
  induction d as [|[k' v'] d IH]; cbn.
  - now rewrite String.eqb_refl.
  - destruct (String.eqb k' k) eqn:E; cbn.
    + now rewrite String.eqb_refl.
    + now rewrite E.
Qed.

Lemma dict_get_pop (k : string) (d : dict) : dict_get k (dict_pop k d) = None.
Proof.
  induction d as [|[k' v'] d IH]; cbn; [reflexivity|].
  destruct (String.eqb k' k) eqn:E; cbn; [exact IH|now rewrite E].
Qed.

Lemma dict_get_set_otra (k k' : string) (v : list string) (d : dict) :
  k <> k' -> dict_get k' (dict_set k v d) = dict_get k' d.
Proof.
  intros N. induction d as [|[k0 v0] d IH]; cbn.
  - destruct (String.eqb_spec k k'); [contradiction|reflexivity].
  - destruct (String.eqb_spec k0 k) as [->|]; cbn.
    + destruct (String.eqb_spec k k'); [contradiction|reflexivity].
    + now rewrite IH.
Qed.

Lemma dict_get_pop_otra (k k' : string) (d : dict) :
  k <> k' -> dict_get k' (dict_pop k d) = dict_get k' d.
Proof.
  intros N. induction d as [|[k0 v0] d IH]; cbn; [reflexivity|].
  destruct (String.eqb_spec k0 k) as [->|]; cbn.
  - destruct (String.eqb_spec k k'); [contradiction|exact IH].
  - now rewrite IH.
Qed.

Lemma get_map (f : Cliente -> Cliente) (n m : Z) (t : tabla) :
  (forall c, id (f c) = id c) ->
  get (map (fun c => if (id c =? n)%Z then f c else c) t) m
  = if (m =? n)%Z then option_map f (get t m) else get t m.
Proof.
  intros Hf. unfold get. induction t as [|c t IH]; cbn.
  - now destruct (m =? n)%Z.
  - destruct (Z.eqb_spec (id c) n) as [E|E].
    + rewrite Hf. destruct (Z.eqb_spec (id c) m) as [F|F].
      * subst. now rewrite Z.eqb_refl.
      * exact IH.
    + destruct (Z.eqb_spec (id c) m) as [F|F]; [|exact IH].
      subst. destruct (Z.eqb_spec (id c) n); [contradiction|reflexivity].
Qed.

Lemma id_asignar (l : list string) (carrier : option string) (c : Cliente) :
  id (asignar l carrier c) = id c.
Proof. unfold asignar. now destruct (cierto carrier). Qed.

Lemma get_guardar (l : list string) (n m : Z) (carrier : option string)
      (t : tabla) :
  get (fst (guardar_destinatarios l n carrier t)) m
  = if (m =? n)%Z then option_map (asignar l carrier) (get t m)
    else get t m.
Proof.
  unfold guardar_destinatarios. destruct (get t n) as [cli|] eqn:G; cbn [fst].
  - apply get_map. intros c. apply id_asignar.
  - destruct (Z.eqb_spec m n) as [->|]; [now rewrite G|reflexivity].
Qed.

Lemma cargar_tras_guardar (l : list string) (n : Z)
      (carrier : option string) (t : tabla) :
  get t n <> None ->
  cargar_destinatarios n carrier (fst (guardar_destinatarios l n carrier t))
  = l.
Proof.
  intros H. rewrite cargar_forma, get_guardar, Z.eqb_refl.
  destruct (get t n) as [cli|]; [|contradiction]. cbn [option_map].
  unfold asignar. destruct (cierto carrier) eqn:C; cbn.
  - destruct l as [|x l]; cbn.
    + now rewrite dict_get_pop.
    + now rewrite dict_get_set.
  - reflexivity.
Qed.

(** What was saved for a client and a carrier is what is loaded for them,
    and saving reports [True] exactly when the client exists. *)
Theorem guardar_y_cargar (l : list string) (n : Z) (carrier : option string)
        (t : tabla) :
  (get t n <> None ->
   cargar_destinatarios n carrier (fst (guardar_destinatarios l n carrier t))
   = l)
  /\ (snd (guardar_destinatarios l n carrier t) = true <-> get t n <> None)
  /\ (get t n = None -> guardar_destinatarios l n carrier t = (t, false)).
Proof.
  split; [|split].
  - apply cargar_tras_guardar.
  - unfold guardar_destinatarios. destruct (get t n); cbn; split;
      congruence.
  - intros H. unfold guardar_destinatarios. now rewrite H.
Qed.

Lemma guardar_y_cargar_ejemplo :
  cargar_destinatarios 1 (Some "TELXIUS")
    (fst (guardar_destinatarios ["guardia@telxius.com"] 1 (Some "TELXIUS")
                                Casos.tabla_clientes))
  = ["guardia@telxius.com"].
Proof.
  apply (proj1 (guardar_y_cargar ["guardia@telxius.com"] 1 (Some "TELXIUS")
                                 Casos.tabla_clientes)).
  discriminate.
Defined.

Lemma cargar_tras_guardar_otro (l : list string) (n m : Z)
        (carrier carrier' : option string) (t : tabla) :
  m <> n
  \/ cierto carrier <> cierto carrier'
  \/ (cierto carrier = true /\ nombre carrier <> nombre carrier') ->
  cargar_destinatarios m carrier' (fst (guardar_destinatarios l n carrier t))
  = cargar_destinatarios m carrier' t.
Proof.
  intros H. rewrite !cargar_forma, get_guardar.
  destruct (Z.eqb_spec m n) as [->|N]; [|reflexivity].
  destruct (get t n) as [cli|]; [|reflexivity]. cbn [option_map].
  destruct H as [H|H]; [contradiction|].
  unfold asignar. destruct (cierto carrier) eqn:C, (cierto carrier') eqn:C';
    cbn; try reflexivity.
  - destruct H as [H|[_ H]]; [congruence|].
    destruct l; [now rewrite dict_get_pop_otra|now rewrite dict_get_set_otra].
  - destruct H as [H|[H _]]; congruence.
Qed.

(** Saving for one client and carrier leaves what is loaded for any other
    client, for any other carrier and, when a carrier is named, for the
    client's general list (and the other way round). *)
Theorem guardar_no_toca_otros (l : list string) (n m : Z)
        (carrier carrier' : option string) (t : tabla) :
  m <> n
  \/ cierto carrier <> cierto carrier'
  \/ (cierto carrier = true /\ nombre carrier <> nombre carrier') ->
  cargar_destinatarios m carrier' (fst (guardar_destinatarios l n carrier t))
  = cargar_destinatarios m carrier' t.
Proof. apply cargar_tras_guardar_otro. Qed.

Lemma guardar_no_toca_otros_ejemplo :
  cargar_destinatarios 1 None
    (fst (guardar_destinatarios [] 1 (Some "TELXIUS") Casos.tabla_clientes))
  = cargar_destinatarios 1 None Casos.tabla_clientes.
Proof.
  apply (guardar_no_toca_otros [] 1 1 (Some "TELXIUS") None
                               Casos.tabla_clientes).
  right. left. discriminate.
Defined.

Lemma dict_pop_idem (k : string) (d : dict) :
  dict_pop k (dict_pop k d) = dict_pop k d.
Proof.
  induction d as [|[k0 v0] d IH]; cbn; [reflexivity|].
  destruct (String.eqb k0 k) eqn:E; cbn; [exact IH|now rewrite E, IH].
Qed.

Lemma dict_set_idem (k : string) (v : list string) (d : dict) :
  dict_set k v (dict_set k v d) = dict_set k v d.
Proof.
  induction d as [|[k0 v0] d IH]; cbn.
  - now rewrite String.eqb_refl.
  - destruct (String.eqb k0 k) eqn:E; cbn.
    + now rewrite String.eqb_refl.
    + now rewrite E, IH.
Qed.

Lemma asignar_idem (l : list string) (carrier : option string)
      (c : Cliente) :
  asignar l carrier (asignar l carrier c) = asignar l carrier c.
Proof.
  unfold asignar. destruct (cierto carrier); cbn; [|reflexivity].
  do 2 f_equal. destruct l as [|x l];
    [apply dict_pop_idem|apply dict_set_idem].
Qed.

Lemma guardar_idem (l : list string) (n : Z) (carrier : option string)
      (t : tabla) :
  guardar_destinatarios l n carrier (fst (guardar_destinatarios l n carrier t))
  = guardar_destinatarios l n carrier t.
Proof.
  unfold guardar_destinatarios at 1. rewrite get_guardar, Z.eqb_refl.
  unfold guardar_destinatarios. destruct (get t n) as [cli|]; cbn;
    [|reflexivity].
  f_equal. rewrite map_map. apply map_ext. intros c.
  destruct (Z.eqb_spec (id c) n) as [E|E].
  - now rewrite id_asignar, <- E, Z.eqb_refl, asignar_idem.
  - destruct (Z.eqb_spec (id c) n); [contradiction|reflexivity].
Qed.

Lemma en_app (x : string) (l : list string) : en x (l ++ [x]) = true.
Proof.
  unfold en. rewrite existsb_app. cbn. now rewrite String.eqb_refl, orb_true_r.
Qed.

Lemma cargar_tras_agregar (correo : string) (n : Z)
      (carrier : option string) (t : tabla) :
  get t n <> None ->
  cargar_destinatarios n carrier
                       (fst (agregar_destinatario correo n carrier t))
  = (if en correo (cargar_destinatarios n carrier t)
     then cargar_destinatarios n carrier t
     else cargar_destinatarios n carrier t ++ [correo]).
Proof.
  intros H. unfold agregar_destinatario.
  rewrite cargar_forma at 1. rewrite get_guardar, Z.eqb_refl.
  destruct (get t n) as [cli|] eqn:G; [|contradiction]. cbn [option_map].
  set (l := if en correo (cargar_destinatarios n carrier t)
            then cargar_destinatarios n carrier t
            else cargar_destinatarios n carrier t ++ [correo]).
  unfold asignar. destruct (cierto carrier) eqn:C; cbn.
  - destruct l as [|x l']; cbn;
      [now rewrite dict_get_pop|now rewrite dict_get_set].
  - reflexivity.
Qed.

(** Adding a recipient to an existing client puts it in the list, after
    those that were there, unless it was there already; adding it again
    changes nothing. *)
Theorem agregar_una_vez (correo : string) (n : Z) (carrier : option string)
        (t : tabla) :
  get t n <> None ->
  let t' := fst (agregar_destinatario correo n carrier t) in
  let antes := cargar_destinatarios n carrier t in
  cargar_destinatarios n carrier t'
  = (if en correo antes then antes else antes ++ [correo])
  /\ en correo (cargar_destinatarios n carrier t') = true
  /\ agregar_destinatario correo n carrier t' = (t', true).
Proof.
  intros H t' antes.
  assert (cargar_destinatarios n carrier t'
          = if en correo antes then antes else antes ++ [correo]) as E
      by now apply cargar_tras_agregar.
  split; [exact E|]. split.
  - rewrite E. destruct (en correo antes) eqn:A; [exact A|apply en_app].
  - unfold agregar_destinatario at 1. rewrite E.
    assert (en correo (if en correo antes then antes else antes ++ [correo])
            = true) as ->
        by (destruct (en correo antes) eqn:A; [exact A|apply en_app]).
    unfold t', agregar_destinatario. fold antes.
    rewrite guardar_idem.
    unfold guardar_destinatarios.
    destruct (get t n); [reflexivity|contradiction].
Qed.

Lemma agregar_una_vez_ejemplo :
  let t' := fst (agregar_destinatario "luis@cliente.com" 1 None
                                      Casos.tabla_clientes) in
  let antes := cargar_destinatarios 1 None Casos.tabla_clientes in
  cargar_destinatarios 1 None t'
  = (if en "luis@cliente.com" antes then antes
     else antes ++ ["luis@cliente.com"])
  /\ en "luis@cliente.com" (cargar_destinatarios 1 None t') = true
  /\ agregar_destinatario "luis@cliente.com" 1 None t' = (t', true).
Proof.
  apply (agregar_una_vez "luis@cliente.com" 1 None Casos.tabla_clientes).
  discriminate.
Defined.

Lemma remove_app_final (x : string) (l : list string) :
  en x l = false -> remove x (l ++ [x]) = l.
Proof.
  unfold en. induction l as [|y l IH]; cbn.
  - now rewrite String.eqb_refl.
  - destruct (String.eqb x y); [discriminate|]. intros H. cbn in H.
    now rewrite IH.
Qed.

Lemma get_agregar (correo : string) (n : Z) (carrier : option string)
      (t : tabla) :
  get t n <> None -> get (fst (agregar_destinatario correo n carrier t)) n <> None.
Proof.
  intros H. unfold agregar_destinatario. rewrite get_guardar, Z.eqb_refl.
  now destruct (get t n).
Qed.

(** Removing a recipient that is not in the list reports [False] and
    changes nothing; removing one that is there takes its first occurrence
    out; and removing a recipient that was just added gives back the list
    that was loaded before. *)
Theorem eliminar_lo_agregado (correo : string) (n : Z)
        (carrier : option string) (t : tabla) :
  (en correo (cargar_destinatarios n carrier t) = false ->
   eliminar_destinatario correo n carrier t = (t, false))
  /\ (get t n <> None ->
      en correo (cargar_destinatarios n carrier t) = true ->
      cargar_destinatarios n carrier
                           (fst (eliminar_destinatario correo n carrier t))
      = remove correo (cargar_destinatarios n carrier t))
  /\ (get t n <> None ->
      en correo (cargar_destinatarios n carrier t) = false ->
      cargar_destinatarios n carrier
        (fst (eliminar_destinatario correo n carrier
                (fst (agregar_destinatario correo n carrier t))))
      = cargar_destinatarios n carrier t).
Proof.
  split; [|split].
  - intros H. unfold eliminar_destinatario. now rewrite H.
  - intros G H. unfold eliminar_destinatario. rewrite H. cbn [negb].
    now apply cargar_tras_guardar.
  - intros G H.
    pose proof (cargar_tras_agregar correo n carrier t G) as E.
    rewrite H in E.
    unfold eliminar_destinatario. rewrite E, en_app. cbn [negb].
    rewrite cargar_tras_guardar.
    + now apply remove_app_final.
    + now apply get_agregar.
Qed.

Lemma eliminar_lo_agregado_ejemplo :
  cargar_destinatarios 1 None
    (fst (eliminar_destinatario "luis@cliente.com" 1 None
            (fst (agregar_destinatario "luis@cliente.com" 1 None
                                       Casos.tabla_clientes))))
  = cargar_destinatarios 1 None Casos.tabla_clientes.
Proof.
  apply (proj2 (proj2 (eliminar_lo_agregado "luis@cliente.com" 1 None
                                            Casos.tabla_clientes))).
  - discriminate.
  - reflexivity.
Defined.

Lemma servicio_forma (id_servicio n : Z) (servicios : list Servicio)
      (s : Servicio) (t : tabla) :
  find (fun x => (srv_id x =? id_servicio)%Z) servicios = Some s ->
  cierto_id (srv_cliente_id s) = true ->
  srv_cliente_id s = Some n ->
  obtener_destinatarios_servicio id_servicio servicios t
  = match cargar_destinatarios n (srv_carrier s) t with
    | [] => cargar_destinatarios n None t
    | x :: l => x :: l
    end.
Proof.
  intros F C E. unfold obtener_destinatarios_servicio. rewrite F, C, E.
  unfold cargar_destinatarios.
  destruct (get t n) as [cli|]; [|reflexivity]. cbn [cierto].
  destruct (destinatarios_carrier cli) as [[|e d]|];
    destruct (cierto (srv_carrier s));
    try (now destruct (destinatarios cli) as [[|? ?]|]).
  destruct (dict_get _ _) as [[|x l]|]; reflexivity.
Qed.

(** The recipients of a service whose client is given by id are those
    loaded for that client and the carrier of the service, and the general
    list of the client when there are none for the carrier.  So a list
    saved for the client and that carrier, if not empty, is what the
    service gets, and saving the empty list for a carrier gives the
    service the general list. *)
Theorem destinatarios_de_servicio (id_servicio n : Z)
        (servicios : list Servicio) (s : Servicio) (t : tabla) :
  find (fun x => (srv_id x =? id_servicio)%Z) servicios = Some s ->
  cierto_id (srv_cliente_id s) = true ->
  srv_cliente_id s = Some n ->
  obtener_destinatarios_servicio id_servicio servicios t
  = match cargar_destinatarios n (srv_carrier s) t with
    | [] => cargar_destinatarios n None t
    | x :: l => x :: l
    end
  /\ (forall x l,
         get t n <> None ->
         obtener_destinatarios_servicio
           id_servicio servicios
           (fst (guardar_destinatarios (x :: l) n (srv_carrier s) t))
         = x :: l)
  /\ (cierto (srv_carrier s) = true ->
      obtener_destinatarios_servicio
        id_servicio servicios
        (fst (guardar_destinatarios [] n (srv_carrier s) t))
      = cargar_destinatarios n None t).
Proof.
  intros F C E. split; [now apply servicio_forma|]. split.
  - intros x l G. rewrite (servicio_forma _ n _ s _ F C E).
    now rewrite (cargar_tras_guardar _ _ _ _ G).
  - intros Cs. rewrite (servicio_forma _ n _ s _ F C E).
    rewrite (cargar_tras_guardar_otro [] n n (srv_carrier s) None t)
      by (right; left; rewrite Cs; discriminate).
    destruct (get t n) as [cli|] eqn:G.
    + rewrite cargar_tras_guardar by congruence. reflexivity.
    + unfold guardar_destinatarios. rewrite G. cbn [fst].
      unfold cargar_destinatarios. now rewrite G.
Qed.

Lemma destinatarios_de_servicio_ejemplo :
  obtener_destinatarios_servicio 10 Casos.servicios_clientes
                                 Casos.tabla_clientes
  = match cargar_destinatarios 1 (Some "TELXIUS") Casos.tabla_clientes with
    | [] => cargar_destinatarios 1 None Casos.tabla_clientes
    | x :: l => x :: l
    end.
Proof.
  apply (proj1 (destinatarios_de_servicio
                  10 1 Casos.servicios_clientes
                  (MkServicio 10 (Some "Cliente") (Some 1%Z) (Some "TELXIUS"))
                  Casos.tabla_clientes eq_refl eq_refl eq_refl)).
Defined.

End DestinatariosProps.

(** ** Cameras and claims: insert, or return what is there *)

Module InventarioProps.
Import Py Fechas Database Inventario.

Lemma existsb_find_some {A : Type} (p : A -> bool) (l : list A) :
  existsb p l = true -> exists x, find p l = Some x /\ In x l /\ p x = true.
Proof.
  induction l as [|y l IH]; cbn; [discriminate|].
  destruct (p y) eqn:E.
  - intros _. exists y. auto.
  - intros H. destruct (IH H) as (x & F & I & P). exists x. auto.
Qed.

(** [crear_camara] always returns a camera with the name and the service
    asked for, which is in the table afterwards.  It adds a row only when
    no row has that pair; when one has it, the rows stay as they are.
    Either way the call uses one value of the sequence of camera ids and
    touches nothing of the claims.  A second call with the same arguments
    returns the same row, leaves the rows as they are and uses one more
    value of the sequence. *)
Theorem crear_camara_o_existente (nombre : string) (id_servicio : Z)
        (t : tablas) :
  let '(t1, r1) := crear_camara nombre id_servicio t in
  (exists c, r1 = Some c
             /\ misma_camara nombre id_servicio c = true
             /\ In c (camaras t1))
  /\ sec_camaras t1 = (sec_camaras t + 1)%Z
  /\ reclamos t1 = reclamos t /\ sec_reclamos t1 = sec_reclamos t
  /\ (existsb (misma_camara nombre id_servicio) (camaras t) = true ->
      camaras t1 = camaras t)
  /\ (let '(t2, r2) := crear_camara nombre id_servicio t1 in
      r2 = r1 /\ camaras t2 = camaras t1
      /\ sec_camaras t2 = (sec_camaras t + 2)%Z).
Proof.
  unfold crear_camara.
  destruct (existsb (misma_camara nombre id_servicio) (camaras t)) eqn:E;
    cbn [negb].
  - destruct (existsb_find_some _ _ E) as (c & F & I & P).
    cbn [camaras sec_camaras reclamos sec_reclamos]. rewrite E. cbn [negb].
    split; [exists c; auto|]. repeat split; cbn; lia.
  - assert (misma_camara nombre id_servicio
              (MkCamara (sec_camaras t) (Some nombre) (Some id_servicio))
            = true) as P.
    { unfold misma_camara. cbn. now rewrite Z.eqb_refl, String.eqb_refl. }
    cbn [camaras sec_camaras reclamos sec_reclamos].
    split.
    { eexists. repeat split; [exact P|]. apply in_or_app. right. now left. }
    split; [reflexivity|]. split; [reflexivity|]. split; [reflexivity|].
    split; [discriminate|].
    rewrite existsb_app. cbn [existsb]. rewrite P, orb_true_r. cbn [negb].
    rewrite (find_app_ultimo _ _ _ E P). repeat split; cbn; lia.
Qed.

(** The camera CAM-1 of the service 1 is there: the rows stay, the sequence
    goes from 2 to 3. *)
Lemma crear_camara_ejemplo :
  camaras (fst (crear_camara "CAM-1" 1 Casos.tablas_camara))
  = camaras Casos.tablas_camara
  /\ sec_camaras (fst (crear_camara "CAM-1" 1 Casos.tablas_camara)) = 3%Z.
Proof.
  pose proof (crear_camara_o_existente "CAM-1" 1 Casos.tablas_camara) as H.
  destruct (crear_camara "CAM-1" 1 Casos.tablas_camara) as [t1 r1].
  destruct H as (_ & S & _ & _ & H & _). cbn [fst].
  split; [apply H; reflexivity|exact S].
Defined.

(** [crear_reclamo] returns no row exactly when the service does not exist
    and no claim has the pair (service, number): the insert then breaks the
    foreign key and the query of the handler finds nothing.  In every other
    case the row returned has the pair and is in the table, and the fields
    of a claim that was already there are not overwritten.  Every call
    uses one value of the sequence of claim ids, also when the insert is
    refused, and touches nothing of the cameras.  A second call with the
    same arguments returns the same row and leaves the rows as they are. *)
Theorem crear_reclamo_o_existente (b : base) (servicio_id : Z)
        (numero : string) (fecha_inicio : option datetime)
        (descripcion : option string) (fecha_cierre : option datetime)
        (tipo_solucion descripcion_solucion : option string) (t : tablas) :
  let crear :=
    crear_reclamo b servicio_id numero fecha_inicio descripcion fecha_cierre
                  tipo_solucion descripcion_solucion in
  let hay := existsb (mismo_reclamo servicio_id numero) (reclamos t) in
  let '(t1, r1) := crear t in
  (r1 = None <-> existe_servicio b servicio_id = false /\ hay = false)
  /\ (forall r, r1 = Some r ->
                mismo_reclamo servicio_id numero r = true
                /\ In r (reclamos t1))
  /\ sec_reclamos t1 = (sec_reclamos t + 1)%Z
  /\ camaras t1 = camaras t /\ sec_camaras t1 = sec_camaras t
  /\ (hay = true \/ existe_servicio b servicio_id = false ->
      reclamos t1 = reclamos t
      /\ r1 = find (mismo_reclamo servicio_id numero) (reclamos t))
  /\ (let '(t2, r2) := crear t1 in
      r2 = r1 /\ reclamos t2 = reclamos t1
      /\ sec_reclamos t2 = (sec_reclamos t + 2)%Z).
Proof.
  cbv zeta. unfold crear_reclamo.
  assert (forall i, mismo_reclamo servicio_id numero
            (MkReclamo i (Some servicio_id) (Some numero) fecha_inicio
                       fecha_cierre tipo_solucion descripcion_solucion
                       descripcion) = true) as P.
  { intros i. unfold mismo_reclamo. cbn.
    now rewrite Z.eqb_refl, String.eqb_refl. }
  destruct (existsb (mismo_reclamo servicio_id numero) (reclamos t)) eqn:E.
  - rewrite andb_false_r.
    destruct (existsb_find_some _ _ E) as (r & F & I & Q).
    cbn [camaras sec_camaras reclamos sec_reclamos].
    rewrite E, andb_false_r, F.
    split; [split; [discriminate|intros [_ H]; discriminate]|].
    split; [intros r' H; injection H as <-; auto|].
    repeat split; cbn; lia.
  - destruct (existe_servicio b servicio_id) eqn:S; cbn [andb negb].
    + cbn [camaras sec_camaras reclamos sec_reclamos].
      rewrite existsb_app. cbn [existsb].
      rewrite P, orb_true_r. cbn [negb andb].
      rewrite (find_app_ultimo _ _ _ E (P _)).
      split; [split; [discriminate|intros [H _]; discriminate]|].
      split.
      { intros r H. injection H as <-. split; [apply P|].
        apply in_or_app. right. now left. }
      split; [reflexivity|]. split; [reflexivity|]. split; [reflexivity|].
      split; [intros [H|H]; discriminate|].
      repeat split; cbn; lia.
    + cbn [camaras sec_camaras reclamos sec_reclamos].
      rewrite (existsb_false_find _ _ E).
      split; [split; auto|]. split; [discriminate|].
      repeat split; cbn; lia.
Qed.

(** The service 99 does not exist: no row is returned, the rows stay, and
    the sequence is one further. *)
Lemma crear_reclamo_sin_servicio :
  snd (crear_reclamo Ejemplos.base_ejemplo 99 "R-1" None None None None None
                     Casos.tablas_reclamos)
  = None
  /\ reclamos (fst (crear_reclamo Ejemplos.base_ejemplo 99 "R-1" None None
                                  None None None Casos.tablas_reclamos))
     = reclamos Casos.tablas_reclamos
  /\ sec_reclamos (fst (crear_reclamo Ejemplos.base_ejemplo 99 "R-1" None
                                      None None None None
                                      Casos.tablas_reclamos))
     = (sec_reclamos Casos.tablas_reclamos + 1)%Z.
Proof.
  pose proof (crear_reclamo_o_existente Ejemplos.base_ejemplo 99 "R-1" None
                None None None None Casos.tablas_reclamos) as H.
  cbv zeta in H.
  destruct (crear_reclamo Ejemplos.base_ejemplo 99 "R-1" None None None None
                          None Casos.tablas_reclamos) as [t1 r1].
  destruct H as (H & _ & S & _ & _ & K & _). cbn [fst snd].
  split; [apply H; split; reflexivity|].
  split; [apply K; right; reflexivity|exact S].
Defined.

End InventarioProps.

(** ** The text normalizer and the carrier of a sender *)

Module EmailProps.
Import Py Re EmailUtils Spec Lectura.

Lemma splitlines_aux_sin_salto (s cur : string) (b : bool) :
  sin_salto cur = true ->
  Forall (fun l => sin_salto l = true) (splitlines_aux b cur s).
Proof.
  revert cur b. induction s as [|c s IH]; intros cur b Hc; cbn [splitlines_aux].
  - destruct (vacia cur); auto.
  - destruct (b && (ord c =? 10)); [now apply IH|].
    destruct (es_salto c) eqn:E.
    + constructor; [exact Hc|]. now apply IH.
    + apply IH. unfold sin_salto in *. rewrite forallb_s_app, Hc. cbn.
      now rewrite E.
Qed.

Lemma splitlines_aux_linea (x cur s : string) :
  sin_salto x = true ->
  splitlines_aux false cur (x ++ s)%string
  = splitlines_aux false (cur ++ x)%string s.
Proof.
  revert cur. induction x as [|c x IH]; intros cur H.
  - cbn. now rewrite append_vacia.
  - cbn in H. apply andb_prop in H as [Hc Hx].
    cbn [append splitlines_aux andb].
    apply negb_true_iff in Hc. rewrite Hc.
    rewrite (IH _ Hx), append_assoc. reflexivity.
Qed.

Lemma vacia_app (a b : string) :
  vacia a = false -> vacia (a ++ b)%string = false.
Proof. destruct a; [discriminate|reflexivity]. Qed.

Lemma splitlines_join (ls : list string) :
  Forall (fun l => vacia l = false /\ sin_salto l = true) ls ->
  splitlines (join nl ls) = ls.
Proof.
  unfold splitlines. induction 1 as [|x ls [Hv Hs] Hls IH]; [reflexivity|].
  destruct ls as [|y ls].
  - cbn [join]. rewrite <- (append_vacia x) at 1.
    rewrite (splitlines_aux_linea _ _ _ Hs). cbn. now rewrite Hv.
  - change (join nl (x :: y :: ls))
      with (x ++ nl ++ join nl (y :: ls))%string.
    rewrite (splitlines_aux_linea _ _ _ Hs). cbn [append].
    change (nl ++ join nl (y :: ls))%string
      with (String (ascii_of_nat 10) (join nl (y :: ls))).
    cbn [splitlines_aux andb]. 
    change (es_salto (ascii_of_nat 10)) with true. cbv iota.
    change (ord (ascii_of_nat 10) =? 13) with false.
    now rewrite IH.
Qed.

Lemma limpiar_lineas_limpias (ls : list string) :
  Forall (fun l => sin_salto l = true) ls ->
  Forall linea_limpia (limpiar_lineas ls).
Proof.
  induction 1 as [|l ls Hl Hls IH]; cbn [limpiar_lineas]; [constructor|].
  destruct (vacia (strip l)) eqn:V; [exact IH|].
  destruct (hay (search patron_aviso (strip l))) eqn:A; [constructor|].
  constructor; [|exact IH].
  repeat split; auto using strip_idem.
  now apply forallb_strip.
Qed.

Lemma limpiar_lineas_fijo (ls : list string) :
  Forall linea_limpia ls -> limpiar_lineas ls = ls.
Proof.
  induction 1 as [|l ls (V & S & _ & A) Hls IH]; [reflexivity|].
  cbn [limpiar_lineas]. rewrite S, V, A, IH. reflexivity.
Qed.

(** The normalizer is idempotent: on a text it has cleaned it changes
    nothing.  The lines of its output are exactly the lines it kept, and
    each of them is not empty, has no white space at either end and does
    not carry the legal notice. *)
Theorem limpiar_correo_idempotente (texto : string) :
  _limpiar_correo (_limpiar_correo texto) = _limpiar_correo texto
  /\ splitlines (_limpiar_correo texto) = limpiar_lineas (splitlines texto)
  /\ Forall linea_limpia (splitlines (_limpiar_correo texto)).
Proof.
  assert (Forall linea_limpia (limpiar_lineas (splitlines texto))) as L.
  { apply limpiar_lineas_limpias. now apply splitlines_aux_sin_salto. }
  assert (splitlines (_limpiar_correo texto)
          = limpiar_lineas (splitlines texto)) as E.
  { apply splitlines_join. revert L. apply Forall_impl.
    intros l (V & _ & S & _). auto. }
  split; [|split; [exact E|now rewrite E]].
  unfold _limpiar_correo at 1. rewrite E.
  now rewrite (limpiar_lineas_fijo _ L).
Qed.

Lemma startswith_partes (x s : string) :
  startswith x s = true <-> exists b, s = (x ++ b)%string.
Proof.
  revert s. induction x as [|a x IH]; intros s.
  - cbn. split; [intros _; now exists s|reflexivity].
  - destruct s as [|c s]; cbn.
    + split; [discriminate|intros [b H]; discriminate].
    + rewrite andb_true_iff, IH, Ascii.eqb_eq. split.
      * intros [-> [b ->]]. now exists b.
      * intros [b H]. injection H as -> ->. split; [reflexivity|now exists b].
Qed.

Lemma contiene_partes (x s : string) :
  contiene x s = true <-> exists a b, s = (a ++ x ++ b)%string.
Proof.
  induction s as [|c s IH].
  - cbn [contiene]. rewrite orb_false_r, startswith_partes. split.
    + intros [b H]. now exists EmptyString, b.
    + intros (a & b & H). destruct a; [now exists b|discriminate].
  - cbn [contiene]. rewrite orb_true_iff, startswith_partes, IH. split.
    + intros [[b H]|(a & b & H)].
      * now exists EmptyString, b.
      * exists (String c a), b. cbn. now rewrite H.
    + intros (a & b & H). destruct a as [|c' a].
      * left. now exists b.
      * right. injection H as _ H. now exists a, b.
Qed.

Lemma igual_exacto (l c : string) : igual false l c = true <-> c = l.
Proof.
  revert c. induction l as [|a l IH]; intros [|b c]; cbn;
    try (split; [discriminate|congruence]); [tauto|].
  rewrite andb_true_iff, IH, Ascii.eqb_eq. split.
  - now intros [-> ->].
  - intros H. now injection H as -> ->.
Qed.

Lemma search_telxius (s : string) :
  hay (search (Star c_no_nl >> Lit false "telxius" >> Star c_no_nl)%re s)
  = contiene "telxius" s.
Proof.
  apply eq_true_iff_eq. rewrite search_casa_en, contiene_partes. split.
  - intros (antes & c & despues & -> & c1 & c' & -> & _ & c2 & c3 & -> & H & _).
    cbn [casa] in H. apply igual_exacto in H as ->.
    exists (antes ++ c1)%string, (c3 ++ despues)%string.
    now rewrite !append_assoc.
  - intros (a & b & ->).
    exists a, "telxius", b. split; [reflexivity|].
    exists EmptyString, "telxius". repeat split.
    exists "telxius", EmptyString. repeat split.
Qed.

Lemma carrier_por_remitente_eq (remitente : string) :
  detectar_carrier_por_remitente remitente
  = if contiene "telxius" (lower remitente) then Some "TELXIUS" else None.
Proof.
  unfold detectar_carrier_por_remitente, carrier_map. cbn [primer_patron].
  now rewrite search_telxius.
Qed.

(** A sender is of TELXIUS exactly when the word "telxius" occurs in its
    address, in whatever case of the letters and wherever it stands; for
    every other sender no carrier is found. *)
Theorem carrier_por_remitente (remitente : string) :
  detectar_carrier_por_remitente remitente
  = if contiene "telxius" (lower remitente) then Some "TELXIUS" else None.
Proof.
  unfold detectar_carrier_por_remitente, carrier_map. cbn [primer_patron].
  now rewrite search_telxius.
Qed.

Lemma search_desde_casa (r : regex) (s : string) (prev : option ascii)
      (m : alcance) :
  search_desde r prev s = Some m ->
  exists antes,
    s = (antes ++ consumido m ++ resto m)%string
    /\ casa r (ultimo prev antes) (consumido m) (resto m).
Proof.
  revert prev. induction s as [|c s IH]; intros prev; cbn [search_desde].
  - destruct (alcances r prev EmptyString) as [|h l] eqn:A; [discriminate|].
    intros [= <-]. exists EmptyString.
    destruct (alcances_correcto r prev EmptyString h) as [E C].
    { rewrite A. now left. }
    split; [exact E|exact C].
  - destruct (alcances r prev (String c s)) as [|h l] eqn:A.
    + intros H. destruct (IH _ H) as (antes & E & C).
      exists (String c antes). cbn. now rewrite <- E.
    + intros [= <-]. exists EmptyString.
      destruct (alcances_correcto r prev (String c s) h) as [E C].
      { rewrite A. now left. }
      split; [exact E|exact C].
Qed.

Lemma elem_0_error (xs : list string) (e : error) :
  elem_0 xs = inl e -> e = IndexError.
Proof. destruct xs; [now intros [= <-]|discriminate]. Qed.

Lemma elem_m1_error (xs : list string) (e : error) :
  elem_m1 xs = inl e -> e = IndexError.
Proof. unfold elem_m1. destruct (rev xs); [now intros [= <-]|discriminate]. Qed.

Lemma carrier_de_remitente_error (texto : string) (e : error) :
  carrier_de_remitente texto = inl e -> e = IndexError.
Proof.
  unfold carrier_de_remitente.
  destruct (match search patron_from texto with
            | Some h => Some h
            | None => search patron_name texto
            end) as [h|]; [|discriminate].
  destruct (elem_m1 _) as [e'|ult] eqn:E1.
  - intros [= <-]. now apply elem_m1_error in E1.
  - destruct (detectar_carrier_por_remitente _); [discriminate|].
    destruct (contiene _ _); [|discriminate].
    destruct (elem_0 _) as [e'|x] eqn:E0; [|discriminate].
    intros [= <-]. now apply elem_0_error in E0.
Qed.

Lemma sniffer_error (texto : string) (e : error) :
  _detectar_datos_correo texto = inl e -> e = IndexError.
Proof.
  unfold _detectar_datos_correo.
  destruct (carrier_de_remitente texto) as [e'|c1] eqn:C1.
  - intros [= <-]. now apply carrier_de_remitente_error in C1.
  - destruct (negb (cierto c1) && _).
    + unfold carrier_de_asunto.
      destruct (match_ patron_metrotel _) as [h|].
      * destruct (elem_0 _) as [e'|x] eqn:E0.
        -- intros [= <-]. now apply elem_0_error in E0.
        -- destruct (String.eqb _ _); discriminate.
      * destruct (String.eqb _ _); discriminate.
    + destruct (String.eqb _ _); discriminate.
Qed.

Lemma sniffer_id_interno (texto : string) (dd : detectados) :
  _detectar_datos_correo texto = inr dd ->
  d_id_interno dd <> Some EmptyString.
Proof.
  unfold _detectar_datos_correo.
  destruct (carrier_de_remitente texto) as [e'|c1]; [discriminate|].
  set (r := if negb (cierto c1) && _ then _ else _).
  destruct r as [e'|carrier]; [discriminate|].
  set (cn := upper _).
  assert (forall p,
             (p = patron_swx \/ p = patron_id) ->
             option_map consumido (search p texto) <> Some EmptyString) as K.
  { intros p Hp. destruct (search p texto) as [m|] eqn:S; [|discriminate].
    cbn. apply search_desde_casa in S as (antes & _ & C).
    destruct Hp as [-> | ->]; cbn [patron_swx patron_id casa] in C;
      destruct C as (c1' & c2' & E & C1 & _); apply igual_exacto in C1;
      rewrite E, C1; discriminate. }
  destruct (String.eqb cn "TELXIUS"); intros [= <-]; cbn [d_id_interno];
    apply K; auto.
Qed.

Lemma findall_n_alcance (n : nat) (r : regex) (prev : option ascii)
      (s x : string) :
  In x (findall_n n r prev s) ->
  exists prev' s' h, In h (alcances r prev' s') /\ x = consumido h.
Proof.
  revert prev s. induction n as [|n IH]; intros prev s; [contradiction|].
  cbn [findall_n].
  destruct (alcances r prev s) as [|h l] eqn:A.
  - destruct s as [|c s]; [contradiction|]. apply IH.
  - assert (In h (alcances r prev s)) as Hh by (rewrite A; now left).
    destruct (vacia (consumido h)) eqn:V.
    + apply vacia_true in V.
      destruct s as [|c s].
      * intros [<-|[]]. exists prev, EmptyString, h. auto.
      * intros [<-|H]; [exists prev, (String c s), h; auto|].
        now apply IH in H.
    + intros [<-|H]; [exists prev, s, h; auto|]. now apply IH in H.
Qed.

Lemma split_ws_no_vacias (s cur : string) :
  Forall (fun x => vacia x = false) (split_ws cur s).
Proof.
  revert cur. induction s as [|c s IH]; intros cur; cbn [split_ws].
  - destruct (vacia cur) eqn:V; [constructor|].
    constructor; [exact V|constructor].
  - destruct (isspace c); [|apply IH].
    destruct (vacia cur) eqn:V; [apply IH|].
    constructor; [exact V|apply IH].
Qed.

Lemma elem_0_split_ws (s x : string) :
  elem_0 (split_ws EmptyString s) = inr x -> vacia x = false.
Proof.
  pose proof (split_ws_no_vacias s EmptyString) as H.
  destruct (split_ws EmptyString s) as [|y l]; [discriminate|].
  intros [= <-]. now inversion H.
Qed.

(** The sniffer can raise IndexError only.  When it returns, the carrier,
    if any, is not the empty text; the internal id, if any, is SWX and
    seven digits for TELXIUS and ID followed by word characters for the
    other carriers; and every service identifier is CRT-, six digits for
    TELXIUS and a run of digits for the others. *)
Theorem sniffer_forma (texto : string) :
  match _detectar_datos_correo texto with
  | inl e => e = IndexError
  | inr dd =>
      let telxius :=
        String.eqb (upper (match d_carrier dd with
                           | Some c => c
                           | None => EmptyString
                           end)) "TELXIUS" in
      d_carrier dd <> Some EmptyString
      /\ (d_tipo dd = "Emergencia" \/ d_tipo dd = "Programada")
      /\ (forall i,
             d_id_interno dd = Some i ->
             exists n,
               if telxius
               then i = ("SWX" ++ n)%string /\ String.length n = 7
                    /\ forallb_s isdigit_c n = true
               else i = ("ID" ++ n)%string /\ n <> EmptyString
                    /\ forallb_s isword_c n = true)
      /\ Forall (fun i =>
                   if telxius then es_crt i = true else isdigit i = true)
                (d_ids dd)
  end.
Proof.
  destruct (_detectar_datos_correo texto) as [e|dd] eqn:D;
    [now apply sniffer_error in D|].
  revert D. unfold _detectar_datos_correo.
  destruct (carrier_de_remitente texto) as [e'|c1] eqn:C1; [discriminate|].
  assert (c1 <> Some EmptyString) as N1.
  { revert C1. unfold carrier_de_remitente.
    destruct (match search patron_from texto with
              | Some h => Some h
              | None => search patron_name texto
              end) as [h|]; [|now intros [= <-]].
    destruct (elem_m1 _) as [e'|ult]; [discriminate|].
    destruct (detectar_carrier_por_remitente _) as [x|] eqn:X.
    - rewrite carrier_por_remitente_eq in X.
      destruct (contiene _ _); [|discriminate].
      injection X as <-. now intros [= <-].
    - destruct (contiene _ _); [|now intros [= <-]].
      destruct (elem_0 _) as [e'|x] eqn:E0; [discriminate|].
      apply elem_0_split_ws in E0. intros [= <-] [= ->]. discriminate. }
  set (r := if negb (cierto c1) && _ then _ else _).
  assert (forall carrier, r = inr carrier -> carrier <> Some EmptyString)
    as Nr.
  { unfold r. destruct (negb (cierto c1) && _); [|now intros c [= <-]].
    unfold carrier_de_asunto.
    destruct (match_ patron_metrotel _) as [h|]; [|now intros c [= <-]].
    destruct (elem_0 _) as [e'|x] eqn:E0; [discriminate|].
    apply elem_0_split_ws in E0. intros c [= <-] [= ->]. discriminate. }
  destruct r as [e'|carrier]; [discriminate|].
  specialize (Nr carrier eq_refl).
  set (cn := upper _).
  destruct (String.eqb cn "TELXIUS") eqn:T; intros [= <-];
    cbn [d_carrier d_tipo d_id_interno d_ids]; fold cn; rewrite T;
    (split; [exact Nr|]);
    (split; [destruct (contiene _ _); auto|]); split.
  - intros i Hi. destruct (search patron_swx texto) as [m|] eqn:S;
      [|discriminate].
    injection Hi as <-. apply search_desde_casa in S as (antes & _ & C).
    destruct C as (a & n & E & Ca & Cn). apply igual_exacto in Ca.
    exists n. rewrite E, Ca. cbn [casa] in Cn. tauto.
  - apply Forall_forall. intros x Hx. unfold findall in Hx.
    apply findall_n_alcance in Hx as (prev' & s' & h & Hh & ->).
    apply alcances_correcto in Hh as [_ C].
    destruct C as (a & n & E & Ca & Cn). apply igual_exacto in Ca.
    cbn [casa] in Cn. destruct Cn as [L Dg]. rewrite E, Ca.
    unfold es_crt. cbn [append startswith quitar andb String.length].
    rewrite !Ascii.eqb_refl, L, Dg. reflexivity.
  - intros i Hi. destruct (search patron_id texto) as [m|] eqn:S;
      [|discriminate].
    injection Hi as <-. apply search_desde_casa in S as (antes & _ & C).
    destruct C as (a & n & E & Ca & Cn). apply igual_exacto in Ca.
    exists n. rewrite E, Ca. cbn [casa] in Cn. tauto.
  - apply Forall_forall. intros x Hx. unfold findall in Hx.
    apply findall_n_alcance in Hx as (prev' & s' & h & Hh & ->).
    apply alcances_correcto in Hh as [_ C].
    destruct C as (a & n & E & Ca & n1 & n2 & E2 & (Nn & Dg) & Cb).
    cbn [casa] in Ca, Cb. destruct Ca as [-> _]. destruct Cb as [-> _].
    rewrite E, E2, append_vacia. cbn [append]. unfold isdigit.
    rewrite Dg. destruct n1; [congruence|reflexivity].
Qed.

(** Letters beyond ASCII are word characters: the number that follows the
    ordinal indicator does not stand at a word boundary and is no
    identifier, and the id goes on through the n with tilde. *)
Lemma sniffer_letras :
  _detectar_datos_correo Ejemplos.correo_letras
  = inr (Detectados None (Some ("ID" ++ Ejemplos.enie ++ "a")%string) []
                    "Programada").
Proof. vm_compute. reflexivity. Qed.

End EmailProps.

(** ** The database stage of the pipeline *)

Module RegistroProps.
Import Py Re EmailUtils Fechas Database Pipeline Spec Lectura.

Section Tarea.

Variables (fi ff : datetime) (tipo : string) (sids : list Z) (c : option Z)
          (ta desc i : option string).

Lemma crear_tarea_pasa (b : base) :
  existe_carrier b c = true ->
  Forall (fun s => existe_servicio b s = true) sids ->
  cierto_Z c && cierto_s i = true
  \/ existsb (misma_clave c i) (tareas_programadas b) = false ->
  exists b' t creada,
    crear_tarea_programada fi ff tipo sids c ta desc i b
    = (b', inr (t, creada)).
Proof.
  intros Hc Hs Hk. unfold crear_tarea_programada.
  assert (exists b1 r,
             guardar_tarea fi ff tipo c ta desc i (buscar_tarea c i b) b
             = (b1, inr r)) as (b1 & r & H1).
  { destruct (buscar_tarea c i b) as [t|] eqn:B; cbn.
    - eauto.
    - rewrite Hc.
      assert (existsb (misma_clave c i) (tareas_programadas b) = false)
        as ->.
      { destruct Hk as [Hk|Hk]; [|exact Hk].
        unfold buscar_tarea in B. rewrite Hk in B.
        now apply find_none_existsb. }
      cbn. eauto. }
  pose proof (guardar_tarea_existe _ _ _ _ _ _ _ _ _ _ _
                (buscar_tarea_In _ _ b) H1) as Ht.
  pose proof (guardar_tarea_enlaces _ _ _ _ _ _ _ _ _ _ _ H1) as (_ & Es & _).
  destruct (reemplazar_enlaces_pasa sids (fst r) b1 Ht) as (b' & H2).
  { eapply Forall_impl; [|exact Hs]. intros s. unfold existe_servicio.
    now rewrite Es. }
  exists b', (fst r), (snd r). unfold guardar, bind, ret.
  rewrite H1, H2. now destruct r.
Qed.

Lemma crear_tarea_forma (b b' : base) (t : TareaProgramada) (creada : bool) :
  crear_tarea_programada fi ff tipo sids c ta desc i b
  = (b', inr (t, creada)) ->
  (fecha_inicio t = fi /\ fecha_fin t = ff /\ tipo_tarea t = tipo
   /\ tiempo_afectacion t = ta /\ descripcion t = desc)
  /\ existe_tarea b' (tp_id t) = true
  /\ enlaces_de b' (tp_id t) = primeras sids
  /\ exists ts n ls m,
      b' = MkBase (clientes b) (carriers b) (servicios b) ts ls
                  (servicios_pendientes b) (sec_clientes b) (sec_carriers b)
                  n m (sec_pendientes b).
Proof.
  intros H. unfold crear_tarea_programada in H.
  pose proof H as H0.
  apply guardar_resultado in H0 as (b1 & H1 & H2).
  pose proof (guardar_tarea_existe _ _ _ _ _ _ _ _ _ _ _
                (buscar_tarea_In _ _ b) H1) as Ht.
  pose proof (reemplazar_enlaces_hecho _ _ _ _ H2) as (Et & _ & _ & L & _).
  cbn [fst] in *.
  split; [|split; [|split; [exact L|]]].
  - unfold guardar_tarea in H1.
    destruct (buscar_tarea c i b) as [h|].
    + injection H1 as _ <- _. cbn. auto 10.
    + destruct (_ && _); [|discriminate]. injection H1 as _ <- _. cbn.
      auto 10.
  - unfold existe_tarea in *. now rewrite Et.
  - unfold reemplazar_enlaces in H2.
    destruct (admite _ _ _); [|discriminate]. injection H2 as <-.
    unfold guardar_tarea in H1.
    destruct (buscar_tarea c i b) as [h|].
    + injection H1 as <- _ _. do 4 eexists. reflexivity.
    + destruct (_ && _); [|discriminate]. injection H1 as <- _ _.
      do 4 eexists. reflexivity.
Qed.

Lemma crear_tarea_In (b b' : base) (t : TareaProgramada) (creada : bool) :
  crear_tarea_programada fi ff tipo sids c ta desc i b
  = (b', inr (t, creada)) ->
  In t (tareas_programadas b').
Proof.
  intros H. unfold crear_tarea_programada in H.
  apply guardar_resultado in H as (b1 & H1 & H2).
  apply reemplazar_enlaces_hecho in H2 as (-> & _).
  unfold guardar_tarea in H1. cbn [fst] in *.
  destruct (buscar_tarea c i b) as [h|] eqn:B.
  - injection H1 as <- <- _. cbn [tareas_programadas con_tareas].
    apply buscar_tarea_In in B. apply in_map_iff. exists h.
    now rewrite Z.eqb_refl.
  - destruct (_ && _); [|discriminate]. injection H1 as <- <- _.
    cbn [tareas_programadas con_tareas]. apply in_or_app. right. now left.
Qed.

Lemma In_map_otra_tarea (f : TareaProgramada -> TareaProgramada) (n : Z)
      (u : TareaProgramada) (l : list TareaProgramada) :
  (forall x, tp_id (f x) = tp_id x) ->
  tp_id u <> n ->
  In u (map (fun x => if (tp_id x =? n)%Z then f x else x) l) <-> In u l.
Proof.
  intros Hf N. rewrite in_map_iff. split.
  - intros (x & E & Hx). destruct (tp_id x =? n)%Z eqn:X.
    + apply Z.eqb_eq in X. rewrite <- E, Hf in N. contradiction.
    + now subst.
  - intros Hu. exists u. split; [|exact Hu].
    apply Z.eqb_neq in N. now rewrite N.
Qed.

Lemma crear_tarea_otras (b b' : base) (t : TareaProgramada) (creada : bool) :
  crear_tarea_programada fi ff tipo sids c ta desc i b
  = (b', inr (t, creada)) ->
  forall u,
    tp_id u <> tp_id t ->
    (In u (tareas_programadas b') <-> In u (tareas_programadas b))
    /\ enlaces_de b' (tp_id u) = enlaces_de b (tp_id u).
Proof.
  intros H u N. unfold crear_tarea_programada in H.
  apply guardar_resultado in H as (b1 & H1 & H2).
  pose proof (guardar_tarea_enlaces _ _ _ _ _ _ _ _ _ _ _ H1) as (E1 & _).
  apply reemplazar_enlaces_hecho in H2 as (-> & _ & _ & _ & L).
  cbn [fst] in *. split.
  - unfold guardar_tarea in H1.
    destruct (buscar_tarea c i b) as [h|] eqn:B.
    + injection H1 as <- <- _. cbn [tareas_programadas con_tareas].
      apply In_map_otra_tarea; [reflexivity|exact N].
    + destruct (_ && _); [|discriminate]. injection H1 as <- <- _.
      cbn [tareas_programadas con_tareas]. rewrite in_app_iff. cbn.
      split; [|tauto]. intros [H|[<-|[]]]; [exact H|]. now contradiction N.
  - rewrite (L _ N). unfold enlaces_de. now rewrite E1.
Qed.

End Tarea.

Lemma resolver_ident_ext (b b' : base) (ident : string) :
  servicios b = servicios b' ->
  resolver_ident b ident = resolver_ident b' ident.
Proof.
  intros E. unfold resolver_ident, get_servicio, servicio_por_id_carrier.
  now rewrite E.
Qed.

Lemma resolver_ext (b b' : base) (ids : list string) :
  servicios b = servicios b' -> resolver b ids = resolver b' ids.
Proof.
  intros E. induction ids as [|x ids IH]; [reflexivity|].
  cbn [resolver]. now rewrite IH, (resolver_ident_ext b b' x E).
Qed.

Lemma servicio_por_id_carrier_In (b : base) (x : string) (s : Servicio) :
  servicio_por_id_carrier b x = Some s -> In s (servicios b).
Proof. intros H. now apply find_some in H. Qed.

Lemma resolver_ident_In (b : base) (ident : string) (s : Servicio) :
  resolver_ident b ident = Some s -> In s (servicios b).
Proof.
  unfold resolver_ident. intros H.
  repeat match type of H with
         | context [if ?c then _ else _] => destruct c
         | context [match get_servicio b ?n with _ => _ end] =>
             let G := fresh "G" in
             destruct (get_servicio b n) eqn:G;
             [apply get_servicio_clave in G as [G _]|]
         | context [match servicio_por_id_carrier b ?n with _ => _ end] =>
             let G := fresh "G" in
             destruct (servicio_por_id_carrier b n) eqn:G;
             [apply servicio_por_id_carrier_In in G|]
         end;
    try discriminate; try (injection H as <-; assumption);
    try (now apply servicio_por_id_carrier_In in H).
Qed.

Lemma In_existe_servicio (b : base) (s : Servicio) :
  In s (servicios b) -> existe_servicio b (srv_id s) = true.
Proof.
  intros H. apply existsb_exists. exists s. split; [exact H|apply Z.eqb_refl].
Qed.

Lemma resolver_In (b : base) (ids : list string) :
  Forall (fun s => In s (servicios b)) (fst (resolver b ids)).
Proof.
  induction ids as [|x ids IH]; [constructor|].
  cbn [resolver]. destruct (resolver b ids) as [ss ps].
  destruct (resolver_ident b x) as [s|] eqn:R; cbn [fst] in *; [|exact IH].
  constructor; [|exact IH]. now apply resolver_ident_In in R.
Qed.

Lemma con_pendientes_nada (b : base) :
  con_pendientes b (servicios_pendientes b ++ []) (sec_pendientes b + 0)%Z = b.
Proof. destruct b. unfold con_pendientes. cbn. now rewrite app_nil_r, Z.add_0_r. Qed.

Lemma crear_pendientes_hecho (tokens : list string) (tarea : Z) (b : base) :
  existe_tarea b tarea = true ->
  crear_pendientes tokens tarea b
  = (con_pendientes b
       (servicios_pendientes b
        ++ pendientes_de (sec_pendientes b) tarea tokens)
       (sec_pendientes b + Z.of_nat (List.length tokens))%Z,
     inr tt).
Proof.
  revert b. induction tokens as [|x r IH]; intros b H.
  - cbn. now rewrite con_pendientes_nada.
  - cbn [crear_pendientes]. unfold bind, crear_servicio_pendiente.
    rewrite H. rewrite IH by exact H.
    unfold con_pendientes. cbn [servicios_pendientes sec_pendientes clientes
      carriers servicios tareas_programadas tareas_servicio sec_clientes
      sec_carriers sec_tareas sec_tareas_servicio pendientes_de List.length].
    rewrite <- app_assoc. cbn [app].
    now rewrite Nat2Z.inj_succ, <- Z.add_1_l, Z.add_assoc.
Qed.

Lemma existsb_reasignados (carrier : option Carrier) (rs l : list Servicio)
      (n : Z) :
  existsb (fun s => (srv_id s =? n)%Z) (reasignados carrier rs l)
  = existsb (fun s => (srv_id s =? n)%Z) l.
Proof.
  destruct carrier as [c|]; [|reflexivity]. cbn [reasignados].
  induction l as [|x l IH]; [reflexivity|]. cbn [map existsb]. rewrite IH.
  now destruct (existsb _ rs).
Qed.

Section Registrar.

Variables (cliente_nombre : string) (carrier_nombre : option string)
          (inicio fin : datetime) (tipo : string) (ids_brutos : list string)
          (id_interno afectacion descripcion : option string).

Lemma carrier_o_nuevo_forma (b : base) :
  numerada b ->
  exists b2 carrier,
    carrier_o_nuevo carrier_nombre b = (b2, inr carrier)
    /\ carrier = carrier_de carrier_nombre b2
    /\ carriers b2 = carriers_con carrier_nombre b
    /\ (forall c, carrier = Some c ->
                  In c (carriers b2) /\ car_id c <> 0%Z)
    /\ numerada b2
    /\ exists n,
        b2 = MkBase (clientes b) (carriers b2) (servicios b)
                    (tareas_programadas b) (tareas_servicio b)
                    (servicios_pendientes b) (sec_clientes b) n
                    (sec_tareas b) (sec_tareas_servicio b)
                    (sec_pendientes b).
Proof.
  intros [N0 N]. unfold carrier_o_nuevo, carrier_de, carriers_con.
  assert (b = MkBase (clientes b) (carriers b) (servicios b)
                     (tareas_programadas b) (tareas_servicio b)
                     (servicios_pendientes b) (sec_clientes b)
                     (sec_carriers b) (sec_tareas b) (sec_tareas_servicio b)
                     (sec_pendientes b)) as Eb by now destruct b.
  destruct carrier_nombre as [nombre|].
  2:{ exists b, None. repeat split; auto; try discriminate. eauto. }
  destruct (vacia nombre) eqn:V.
  { exists b, None. repeat split; auto; try discriminate. eauto. }
  destruct (find _ (carriers b)) as [c|] eqn:F.
  - exists b, (Some c). rewrite F.
    apply find_some in F as [F _].
    split; [reflexivity|]. split; [reflexivity|]. split; [reflexivity|].
    split; [|split; [split; assumption|eauto]].
    intros c' [= <-]. split; [exact F|].
    rewrite Forall_forall in N. now apply N.
  - eexists _, _. split; [reflexivity|].
    unfold con_carriers. cbn [carriers sec_carriers].
    rewrite (find_app_ultimo _ _ (MkCarrier (sec_carriers b) nombre)
               (find_none_existsb _ _ F) (String.eqb_refl _)).
    split; [reflexivity|]. split; [reflexivity|].
    split; [|split; [split|]].
    + intros c' [= <-]. split; [apply in_or_app; right; now left|cbn; lia].
    + cbn. lia.
    + cbn. apply Forall_app. split; [exact N|].
      constructor; [cbn; lia|constructor].
    + eexists. reflexivity.
Qed.

Lemma cliente_o_nuevo_forma (b : base) :
  exists cl n,
    cliente_o_nuevo cliente_nombre b
    = (MkBase (clientes_con cliente_nombre b) (carriers b) (servicios b)
              (tareas_programadas b) (tareas_servicio b)
              (servicios_pendientes b) n (sec_carriers b) (sec_tareas b)
              (sec_tareas_servicio b) (sec_pendientes b),
       inr cl).
Proof.
  unfold cliente_o_nuevo, clientes_con.
  destruct (obtener_cliente_por_nombre cliente_nombre b) as [cl|].
  - exists cl, (sec_clientes b). now destruct b.
  - eexists _, _. reflexivity.
Qed.

Lemma clave_libre (b : base) (carrier : option Carrier) :
  (forall c, carrier = Some c -> In c (carriers b) /\ car_id c <> 0%Z) ->
  id_interno <> Some EmptyString ->
  cierto_Z (option_map car_id carrier) && cierto_s id_interno = true
  \/ existsb (misma_clave (option_map car_id carrier) id_interno)
             (tareas_programadas b) = false.
Proof.
  intros Hc Hi. destruct carrier as [c|]; cbn.
  - destruct id_interno as [[|x i]|]; [congruence| |].
    + left. destruct (Hc c eq_refl) as [_ N].
      apply Z.eqb_neq in N. now rewrite N.
    + right. induction (tareas_programadas b) as [|t l IH];
        [reflexivity|]. cbn. rewrite IH. unfold misma_clave, eq_os.
        destruct (Database.id_interno t); now rewrite andb_false_r.
  - right. induction (tareas_programadas b) as [|t l IH]; [reflexivity|].
    cbn. rewrite IH. unfold misma_clave, eq_oZ. now destruct (carrier_id t).
Qed.

Lemma reasignar_forma (carrier : option Carrier) (servs : list Servicio)
      (b : base) :
  reasignar carrier servs b
  = (con_servicios b (reasignados carrier servs (servicios b)), inr tt).
Proof.
  unfold reasignar, reasignados. destruct carrier; [reflexivity|].
  now destruct b.
Qed.

Lemma carrier_de_ext (nombre : option string) (b b' : base) :
  carriers b = carriers b' -> carrier_de nombre b = carrier_de nombre b'.
Proof. intros E. unfold carrier_de. now rewrite E. Qed.

Lemma registrar_forma (b : base) :
  numerada b ->
  id_interno <> Some EmptyString ->
  exists b' t creada,
    registrar cliente_nombre carrier_nombre inicio fin tipo ids_brutos
              id_interno afectacion descripcion b
    = (b', inr (t, creada, snd (resolver b ids_brutos)))
    /\ (fecha_inicio t = inicio /\ fecha_fin t = fin /\ tipo_tarea t = tipo
        /\ tiempo_afectacion t = afectacion
        /\ Database.descripcion t = descripcion)
    /\ existe_tarea b' (tp_id t) = true
    /\ enlaces_de b' (tp_id t)
       = primeras (map srv_id (fst (resolver b ids_brutos)))
    /\ clientes b' = clientes_con cliente_nombre b
    /\ carriers b' = carriers_con carrier_nombre b
    /\ servicios b'
       = reasignados (carrier_de carrier_nombre b')
                     (fst (resolver b ids_brutos)) (servicios b)
    /\ servicios_pendientes b'
       = servicios_pendientes b
         ++ pendientes_de (sec_pendientes b) (tp_id t)
                          (snd (resolver b ids_brutos))
    /\ numerada b'.
Proof.
  intros N Hi. unfold registrar, bind, get, ret.
  destruct (cliente_o_nuevo_forma b) as (cl & n1 & ->).
  match goal with |- context [carrier_o_nuevo _ ?x] => set (b1 := x) end.
  destruct (carrier_o_nuevo_forma b1 N) as (b2 & carrier & -> & Ec & Ecs & Hc
                                            & N2 & n2 & E2).
  cbn [b1 clientes carriers servicios tareas_programadas tareas_servicio
       servicios_pendientes sec_clientes sec_carriers sec_tareas
       sec_tareas_servicio sec_pendientes] in E2.
  assert (servicios b2 = servicios b) as Es by now rewrite E2.
  rewrite (resolver_ext b2 b ids_brutos Es).
  destruct (resolver b ids_brutos) as [servs pend] eqn:R. cbn [fst snd].
  assert (Forall (fun s => existe_servicio b2 s = true) (map srv_id servs))
    as Hs.
  { pose proof (resolver_In b ids_brutos) as HI. rewrite R in HI.
    cbn [fst] in HI. apply Forall_map. revert HI. apply Forall_impl.
    intros s HI. apply In_existe_servicio. now rewrite Es. }
  destruct (crear_tarea_pasa inicio fin tipo (map srv_id servs)
              (option_map car_id carrier) afectacion descripcion id_interno
              b2) as (b3 & t & creada & H3).
  { destruct carrier as [c|]; [|reflexivity]. cbn.
    destruct (Hc c eq_refl) as [I _]. apply existsb_exists.
    exists c. split; [exact I|apply Z.eqb_refl]. }
  { exact Hs. }
  { now apply clave_libre. }
  rewrite H3. cbn [fst snd].
  apply crear_tarea_forma in H3 as (Ht & Xt & Lt & ts & n3 & ls & m3 & E3).
  rewrite reasignar_forma.
  set (b4 := con_servicios b3 (reasignados carrier servs (servicios b3))).
  assert (existe_tarea b4 (tp_id t) = true) as X4 by exact Xt.
  rewrite (crear_pendientes_hecho pend (tp_id t) b4 X4).
  eexists _, t, creada. split; [reflexivity|].
  split; [exact Ht|]. split; [exact Xt|]. split; [exact Lt|].
  unfold con_pendientes, b4, con_servicios.
  cbn [clientes carriers servicios servicios_pendientes sec_pendientes].
  assert (carriers b3 = carriers b2) as C3 by now rewrite E3.
  assert (clientes b3 = clientes_con cliente_nombre b) as K3
      by now rewrite E3, E2.
  assert (servicios b3 = servicios b) as S3 by now rewrite E3, E2.
  assert (servicios_pendientes b3 = servicios_pendientes b) as P3
      by now rewrite E3, E2.
  assert (sec_pendientes b3 = sec_pendientes b) as Q3 by now rewrite E3, E2.
  assert (sec_carriers b3 = sec_carriers b2) as Q4 by now rewrite E3.
  split; [exact K3|]. split; [now rewrite C3, Ecs|].
  split.
  { rewrite S3. f_equal. rewrite Ec. apply carrier_de_ext.
    cbn [carriers]. now rewrite C3. }
  split; [now rewrite P3, Q3|].
  destruct N2 as [A B]. split; cbn [sec_carriers carriers].
  - now rewrite Q4.
  - now rewrite C3.
Qed.

End Registrar.









(** *** Lookups that do not depend on the order of the rows *)











Section Repetido.

Variables (cliente_nombre : string) (carrier_nombre : option string)
          (inicio fin : datetime) (tipo : string) (ids_brutos : list string)
          (id_interno afectacion descripcion : option string).



End Repetido.



Lemma crear_tarea_error (fi ff : datetime) (tipo : string)
      (sids : list Z) (c : option Z) (ta desc i : option string)
      (b b' : base) (e : error) :
  crear_tarea_programada fi ff tipo sids c ta desc i b = (b', inl e) ->
  e = IntegrityError.
Proof.
  unfold crear_tarea_programada, guardar, bind, ret, guardar_tarea,
    reemplazar_enlaces.
  destruct (buscar_tarea c i b) as [t|].
  - destruct (admite _ _ _); [discriminate|]. now intros [= _ <-].
  - destruct (existe_carrier b c && _); [|now intros [= _ <-]].
    destruct (admite _ _ _); [discriminate|]. now intros [= _ <-].
Qed.

Lemma crear_pendientes_error (tokens : list string) (tarea : Z)
      (b b' : base) (e : error) :
  crear_pendientes tokens tarea b = (b', inl e) -> e = IntegrityError.
Proof.
  revert b. induction tokens as [|x r IH]; intros b; [discriminate|].
  cbn [crear_pendientes]. unfold bind, crear_servicio_pendiente.
  destruct (existe_tarea b tarea); [apply IH|now intros [= _ <-]].
Qed.

(** The database stage raises nothing but IntegrityError. *)
Lemma registrar_error (cliente_nombre : string)
      (carrier_nombre : option string) (inicio fin : datetime)
      (tipo : string) (ids_brutos : list string)
      (id_interno afectacion descripcion : option string)
      (b b' : base) (e : error) :
  registrar cliente_nombre carrier_nombre inicio fin tipo ids_brutos
            id_interno afectacion descripcion b = (b', inl e) ->
  e = IntegrityError.
Proof.
  unfold registrar, bind, get, ret.
  destruct (cliente_o_nuevo_forma cliente_nombre b) as (cl & n1 & ->).
  match goal with |- context [carrier_o_nuevo _ ?x] =>
    destruct (carrier_o_nuevo carrier_nombre x) as [b2 [e2|car]] eqn:C
  end.
  { unfold carrier_o_nuevo in C. destruct carrier_nombre as [n|];
      [|discriminate]. destruct (vacia n); [discriminate|].
    destruct (find _ _); discriminate. }
  destruct (resolver b2 ids_brutos) as [servs pend].
  match goal with |- context [crear_tarea_programada ?a ?b ?c ?d ?e ?f ?g ?h
                                                     b2] =>
    destruct (crear_tarea_programada a b c d e f g h b2) as [b3 [e3|r]] eqn:T
  end.
  { intros [= _ <-]. now apply crear_tarea_error in T. }
  rewrite reasignar_forma.
  match goal with |- context [crear_pendientes ?t ?n ?x] =>
    destruct (crear_pendientes t n x) as [b5 [e5|[]]] eqn:P
  end; [|discriminate].
  intros [= _ <-]. now apply crear_pendientes_error in P.
Qed.

Section Proceso.

Variable servicio : nat -> string -> option string.
Variable procesar_json_response : string -> option datos.
Variable fromisoformat : string -> option fechahora.
Variable anio_actual : Z.
Variable hora_local : datetime -> Z -> datetime.

Lemma extraer_error (tl : string) (o : option datos) (g g' : Gpt.estado)
      (e : error) :
  extraer servicio procesar_json_response tl o g = (g', inl e) ->
  e = err_extraccion.
Proof.
  unfold extraer, validar, Gpt.consultar_gpt. destruct o; [discriminate|].
  repeat match goal with
         | |- context [match ?x with _ => _ end] => destruct x
         end; intros [= _ <-]; reflexivity.
Qed.

(** The errors of the pipeline itself: IndexError from the sniffer (a
    sender it cannot split), the extraction error, the two errors of the
    dates and the TypeError of comparing a naive date with an aware one.  A
    run that raises one of them has written nothing: they are all raised
    before the database stage.  A run that returns, from a base whose
    carriers are numbered from 1, leaves a task with a type, linked to
    services that exist, and one pending row more for every identifier it
    returns as pending. *)
Theorem proceso_errores_propios (texto cliente_nombre : string)
        (carrier_nombre : option string) (w : mundo) :
  let '(w', r) :=
    procesar_correo_a_tarea servicio procesar_json_response fromisoformat
                            anio_actual hora_local texto cliente_nombre
                            carrier_nombre w in
  match r with
  | inl e =>
      (e = IndexError \/ e = err_extraccion \/ e = err_formato
       \/ e = err_rango \/ e = TypeError) ->
      bd w' = bd w
  | inr (t, creada, ids_pendientes) =>
      numerada (bd w) ->
      vacia (tipo_tarea t) = false
      /\ existe_tarea (bd w') (tp_id t) = true
      /\ Forall (fun s => existe_servicio (bd w') s = true)
                (enlaces_de (bd w') (tp_id t))
      /\ servicios_pendientes (bd w')
         = servicios_pendientes (bd w)
           ++ pendientes_de (sec_pendientes (bd w)) (tp_id t) ids_pendientes
      /\ numerada (bd w')
  end.
Proof.
  unfold procesar_correo_a_tarea, bind, elevar, en_gpt, en_bd.
  destruct (_detectar_datos_correo (_limpiar_correo texto)) as [e|dd] eqn:D;
    [reflexivity|].
  destruct (extraer _ _ _ _ _) as [g [e|d]] eqn:X; [reflexivity|].
  destruct (fechas _ _ d) as [e|[i f]] eqn:F; [reflexivity|].
  cbn [bd gpt].
  match goal with |- context [registrar ?a1 ?a2 ?a3 ?a4 ?a5 ?a6 ?a7 ?a8 ?a9
                                         ?a10] =>
    pose proof (registrar_forma a1 a2 a3 a4 a5 a6 a7 a8 a9 a10) as K;
    destruct (registrar a1 a2 a3 a4 a5 a6 a7 a8 a9 a10)
      as [b' [e|[[t creada] ids_pendientes]]] eqn:R
  end.
  { cbn [bd]. apply registrar_error in R. subst e.
    intros [H|[H|[H|[H|H]]]]; discriminate. }
  cbn [bd]. intros N.
  destruct (K N) as (b1 & t1 & c1 & E & Ht & Xt & Lt & _ & _ & Es
                     & Ep & N').
  { now apply EmailProps.sniffer_id_interno in D. }
  injection E as -> -> -> ->.
  destruct Ht as (_ & _ & -> & _).
  split.
  { destruct (o_si_no _ _) as [x|]; [|reflexivity].
    destruct (vacia x) eqn:V; [reflexivity|exact V]. }
  split; [exact Xt|]. split; [|split; [exact Ep|exact N']].
  rewrite Lt. apply Forall_forall. intros s Hs.
  apply (proj1 (In_primeras _ _)) in Hs. apply in_map_iff in Hs as (x & <- & Hx).
  match type of Hx with In _ (fst (resolver ?b ?l)) =>
    pose proof (resolver_In b l) as HI end.
  rewrite Forall_forall in HI. apply HI in Hx.
  unfold existe_servicio. rewrite Es, existsb_reasignados.
  now apply In_existe_servicio.
Qed.

End Proceso.

(** The mail whose start is aware and whose end is naive: TypeError, and
    the base as it was. *)
Lemma proceso_errores_propios_ejemplo :
  procesar_correo_a_tarea Ejemplos.servicio_mudo Ejemplos.sin_json
                          Ejemplos.iso_ejemplo 2026 Ejemplos.sin_zona
                          Ejemplos.correo_con_zona "ACME" None
                          Ejemplos.mundo_ejemplo
  = (Ejemplos.mundo_ejemplo, inl TypeError)
  /\ bd (fst (procesar_correo_a_tarea
                Ejemplos.servicio_mudo Ejemplos.sin_json
                Ejemplos.iso_ejemplo 2026 Ejemplos.sin_zona
                Ejemplos.correo_con_zona "ACME" None
                Ejemplos.mundo_ejemplo))
     = bd Ejemplos.mundo_ejemplo.
Proof.
  pose proof (proceso_errores_propios
                Ejemplos.servicio_mudo Ejemplos.sin_json
                Ejemplos.iso_ejemplo 2026 Ejemplos.sin_zona
                Ejemplos.correo_con_zona "ACME" None
                Ejemplos.mundo_ejemplo) as H.
  assert (procesar_correo_a_tarea
            Ejemplos.servicio_mudo Ejemplos.sin_json
            Ejemplos.iso_ejemplo 2026 Ejemplos.sin_zona
            Ejemplos.correo_con_zona "ACME" None Ejemplos.mundo_ejemplo
          = (Ejemplos.mundo_ejemplo, inl TypeError)) as E
      by (vm_compute; reflexivity).
  rewrite E in H |- *. split; [reflexivity|]. cbn [fst]. apply H. tauto.
Defined.

End RegistroProps.

(** ** The service upsert and the queries on the tasks *)

Module ConsultasProps.
Import Py Fechas Database Consultas Spec.

Lemma o_la_de_idem {A : Type} (x y : option A) :
  o_la_de x (o_la_de x y) = o_la_de x y.
Proof. now destruct x. Qed.

Lemma o_la_de_misma {A : Type} (x : option A) : o_la_de x x = x.
Proof. now destruct x. Qed.

Lemma con_servicios_mismos (b : base) : con_servicios b (servicios b) = b.
Proof. now destruct b. Qed.

Lemma find_map_otra (f : Servicio -> Servicio) (n m : Z)
      (l : list Servicio) :
  m <> n ->
  (forall x, srv_id (f x) = srv_id x) ->
  find (fun s => (srv_id s =? m)%Z)
       (map (fun x => if (srv_id x =? n)%Z then f x else x) l)
  = find (fun s => (srv_id s =? m)%Z) l.
Proof.
  intros N H. induction l as [|x l IH]; [reflexivity|]. cbn [map find].
  destruct (srv_id x =? n)%Z eqn:E.
  - rewrite H. apply Z.eqb_eq in E.
    assert ((srv_id x =? m)%Z = false) as -> by (apply Z.eqb_neq; lia).
    exact IH.
  - destruct (srv_id x =? m)%Z; [reflexivity|exact IH].
Qed.

Lemma find_map_esa (f : Servicio -> Servicio) (n : Z) (l : list Servicio) :
  (forall x, srv_id (f x) = srv_id x) ->
  find (fun s => (srv_id s =? n)%Z)
       (map (fun x => if (srv_id x =? n)%Z then f x else x) l)
  = option_map f (find (fun s => (srv_id s =? n)%Z) l).
Proof.
  intros H. induction l as [|x l IH]; [reflexivity|]. cbn [map find].
  destruct (srv_id x =? n)%Z eqn:E.
  - now rewrite H, E.
  - now rewrite E.
Qed.

Lemma map_map_esa (f : Servicio -> Servicio) (n : Z) (l : list Servicio) :
  (forall x, srv_id (f x) = srv_id x) ->
  (forall x, f (f x) = f x) ->
  map (fun x => if (srv_id x =? n)%Z then f x else x)
      (map (fun x => if (srv_id x =? n)%Z then f x else x) l)
  = map (fun x => if (srv_id x =? n)%Z then f x else x) l.
Proof.
  intros H1 H2. rewrite map_map. apply map_ext. intros x.
  destruct (srv_id x =? n)%Z eqn:E; [now rewrite H1, E, H2|now rewrite E].
Qed.

Lemma map_sin_esa (f : Servicio -> Servicio) (n : Z) (l : list Servicio) :
  find (fun s => (srv_id s =? n)%Z) l = None ->
  map (fun x => if (srv_id x =? n)%Z then f x else x) l = l.
Proof.
  induction l as [|x l IH]; [reflexivity|]. cbn [map find].
  destruct (srv_id x =? n)%Z; [discriminate|]. intros H. now rewrite IH.
Qed.

(** [registrar_servicio] is an upsert on the primary key.  It fails, with
    IntegrityError and no change, exactly when a carrier is given that does
    not exist.  Otherwise the service with that id is afterwards the row
    returned; the values given are stored and a value not given keeps what
    the row had, so no column can be emptied this way; the other services
    are untouched; a row is added only if the id was new; and the same call
    once more changes nothing. *)
Theorem registrar_servicio_upsert (id_servicio : Z)
        (id_carrier : option string) (carrier_id : option Z) (b : base) :
  let previo := get_servicio b id_servicio in
  (existe_carrier b carrier_id = false ->
   registrar_servicio id_servicio id_carrier carrier_id b
   = (b, inl IntegrityError))
  /\ (existe_carrier b carrier_id = true ->
      exists b' s,
        registrar_servicio id_servicio id_carrier carrier_id b
        = (b', inr s)
        /\ get_servicio b' id_servicio = Some s
        /\ srv_id s = id_servicio
        /\ srv_id_carrier s
           = o_la_de id_carrier
                     (match previo with
                      | Some p => srv_id_carrier p
                      | None => None
                      end)
        /\ srv_carrier_id s
           = o_la_de carrier_id
                     (match previo with
                      | Some p => srv_carrier_id p
                      | None => None
                      end)
        /\ (forall m, m <> id_servicio ->
                      get_servicio b' m = get_servicio b m)
        /\ List.length (servicios b')
           = (List.length (servicios b)
              + match previo with Some _ => 0 | None => 1 end)%nat
        /\ registrar_servicio id_servicio id_carrier carrier_id b'
           = (b', inr s)).
Proof.
  cbv zeta. unfold registrar_servicio. split; [now intros ->|].
  intros Hc. rewrite Hc. cbn [negb].
  set (f := fun s => MkServicio (srv_id s) (srv_carrier s)
                                (o_la_de id_carrier (srv_id_carrier s))
                                (o_la_de carrier_id (srv_carrier_id s))).
  assert (forall x, srv_id (f x) = srv_id x) as F1 by reflexivity.
  assert (forall x, f (f x) = f x) as F2.
  { intros x. unfold f. cbn. now rewrite !o_la_de_idem. }
  destruct (get_servicio b id_servicio) as [p|] eqn:G.
  - eexists _, _. split; [reflexivity|].
    pose proof (get_servicio_clave _ _ _ G) as [_ Ep].
    unfold get_servicio in *. unfold con_servicios. cbn [servicios carriers].
    rewrite find_map_esa, G by exact F1. cbn [option_map].
    split; [reflexivity|]. split; [exact Ep|]. split; [reflexivity|].
    split; [reflexivity|]. split; [|split].
    + intros m N. now apply find_map_otra.
    + rewrite length_map. lia.
    + unfold existe_carrier in *. cbn [carriers]. rewrite Hc.
      cbn [negb clientes carriers servicios tareas_programadas
           tareas_servicio servicios_pendientes sec_clientes sec_carriers
           sec_tareas sec_tareas_servicio sec_pendientes].
      pose proof (map_map_esa f id_servicio (servicios b) F1 F2) as MM.
      pose proof (F2 p) as Fp. unfold f in MM, Fp. cbn beta in MM, Fp.
      rewrite MM. cbn [srv_id srv_carrier srv_id_carrier srv_carrier_id] in *.
      now rewrite !o_la_de_idem.
  - eexists _, _. split; [reflexivity|].
    unfold get_servicio in *. unfold con_servicios. cbn [servicios carriers].
    assert (find (fun s => (srv_id s =? id_servicio)%Z)
                 (servicios b
                  ++ [MkServicio id_servicio None id_carrier carrier_id])
            = Some (MkServicio id_servicio None id_carrier carrier_id)) as G'.
    { apply find_app_ultimo; [now apply find_none_existsb|].
      cbn. apply Z.eqb_refl. }
    rewrite G'.
    split; [reflexivity|]. split; [reflexivity|].
    split; [now destruct id_carrier|]. split; [now destruct carrier_id|].
    split; [|split].
    + intros m N. clear G G'.
      induction (servicios b) as [|x l IH]; cbn [app find srv_id].
      * now assert ((id_servicio =? m)%Z = false) as ->
            by (apply Z.eqb_neq; lia).
      * now destruct (srv_id x =? m)%Z.
    + rewrite length_app. reflexivity.
    + unfold existe_carrier in *. cbn [carriers]. rewrite Hc.
      cbn [negb clientes carriers servicios tareas_programadas
           tareas_servicio servicios_pendientes sec_clientes sec_carriers
           sec_tareas sec_tareas_servicio sec_pendientes srv_id srv_carrier
           srv_id_carrier srv_carrier_id].
      pose proof (map_sin_esa f _ _ G) as MM. unfold f in MM.
      cbn beta in MM.
      rewrite !o_la_de_misma, map_app, MM.
      cbn [map srv_id srv_carrier srv_id_carrier srv_carrier_id].
      rewrite Z.eqb_refl. now rewrite !o_la_de_misma.
Qed.

Lemma registrar_servicio_sin_carrier :
  registrar_servicio 9 None (Some 7%Z) Ejemplos.base_ejemplo
  = (Ejemplos.base_ejemplo, inl IntegrityError).
Proof.
  apply (proj1 (registrar_servicio_upsert 9 None (Some 7%Z)
                                          Ejemplos.base_ejemplo)).
  reflexivity.
Defined.

Lemma In_insertar_por_inicio (desc : bool) (t x : TareaProgramada)
      (l : list TareaProgramada) :
  In x (insertar_por_inicio desc t l) <-> x = t \/ In x l.
Proof.
  induction l as [|y l IH]; cbn [insertar_por_inicio].
  - cbn. intuition congruence.
  - destruct (va_antes _ _ _); cbn [In]; [rewrite IH|]; intuition congruence.
Qed.

Lemma In_ordenar_por_inicio (desc : bool) (x : TareaProgramada)
      (l : list TareaProgramada) :
  In x (ordenar_por_inicio desc l) <-> In x l.
Proof.
  induction l as [|y l IH]; [reflexivity|]. cbn [ordenar_por_inicio].
  rewrite In_insertar_por_inicio, IH. cbn. intuition congruence.
Qed.

Lemma In_tareas_de_servicio (s : Z) (b : base) (t : TareaProgramada) :
  In t (tareas_de_servicio s b)
  <-> In t (tareas_programadas b) /\ In s (enlaces_de b (tp_id t)).
Proof.
  unfold tareas_de_servicio, enlaces_de. rewrite in_flat_map. split.
  - intros (u & Hu & H). apply in_map_iff in H as (l & <- & Hl).
    apply filter_In in Hl as (Hl & E). apply andb_prop in E as [E1 E2].
    apply Z.eqb_eq in E1, E2. split; [exact Hu|].
    apply in_map_iff. exists l. split; [exact E2|].
    apply filter_In. split; [exact Hl|now apply Z.eqb_eq].
  - intros (Ht & H). apply in_map_iff in H as (l & E2 & Hl).
    apply filter_In in Hl as (Hl & E1). exists t. split; [exact Ht|].
    apply in_map_iff. exists l. split; [reflexivity|].
    apply filter_In. split; [exact Hl|]. rewrite E1.
    now apply Z.eqb_eq.
Qed.

(** A task stored for a list of services is found by the query of a
    service exactly when the service is in that list: the links of an
    earlier version of the task no longer count.  For the other tasks the
    query answers as before. *)
Theorem tarea_en_consulta (fi ff : datetime) (tipo : string)
        (sids : list Z) (c : option Z) (ta desc i : option string)
        (b b' : base) (t : TareaProgramada) (creada : bool) :
  crear_tarea_programada fi ff tipo sids c ta desc i b
  = (b', inr (t, creada)) ->
  forall (s : Z) (orden : bool),
  exists l l',
    obtener_tareas_servicio (Some s) orden b = inr l
    /\ obtener_tareas_servicio (Some s) orden b' = inr l'
    /\ (In t l' <-> In s sids)
    /\ (forall u, tp_id u <> tp_id t -> (In u l' <-> In u l)).
Proof.
  intros H s orden. eexists _, _. split; [reflexivity|].
  split; [reflexivity|].
  pose proof (RegistroProps.crear_tarea_In _ _ _ _ _ _ _ _ _ _ _ _ H) as I.
  pose proof (RegistroProps.crear_tarea_forma _ _ _ _ _ _ _ _ _ _ _ _ H)
    as (_ & _ & L & _).
  split.
  - rewrite In_ordenar_por_inicio, In_tareas_de_servicio.
    rewrite L, In_primeras. tauto.
  - intros u N.
    destruct (RegistroProps.crear_tarea_otras _ _ _ _ _ _ _ _ _ _ _ _ H u N)
      as [Iu Lu].
    rewrite !In_ordenar_por_inicio, !In_tareas_de_servicio, Lu. tauto.
Qed.

Lemma tarea_en_consulta_ejemplo :
  exists l l',
    obtener_tareas_servicio (Some 2%Z) true Ejemplos.base_ejemplo = inr l
    /\ obtener_tareas_servicio (Some 2%Z) true Casos.base_con_tarea = inr l'
    /\ (In Casos.tarea_swx l' <-> In 2%Z [1; 2]%Z)
    /\ (forall u, tp_id u <> tp_id Casos.tarea_swx ->
                  (In u l' <-> In u l)).
Proof.
  apply (tarea_en_consulta Ejemplos.d_0800 Ejemplos.d_1000 "Mantenimiento"
           [1; 2]%Z (Some 1%Z) None None (Some "SWX0000001")
           Ejemplos.base_ejemplo Casos.base_con_tarea Casos.tarea_swx true).
  reflexivity.
Defined.

Lemma lex_ltb_trans (a b c : list Z) :
  lex_ltb a b = true -> lex_ltb b c = true -> lex_ltb a c = true.
Proof.
  revert b c. induction a as [|x a IH]; intros [|y b] [|z c]; cbn;
    try discriminate; try reflexivity.
  rewrite !orb_true_iff, !andb_true_iff, !Z.ltb_lt, !Z.eqb_eq.
  intros [H1|[H1 H2]] [H3|[H3 H4]]; try (left; lia).
  right. split; [lia|]. now apply (IH b c).
Qed.

Lemma lex_ltb_total (a b : list Z) :
  lex_ltb a b = false -> lex_ltb b a = false -> a = b.
Proof.
  revert b. induction a as [|x a IH]; intros [|y b]; cbn;
    try discriminate; try reflexivity.
  rewrite !orb_false_iff, !andb_false_iff, !Z.ltb_ge, !Z.eqb_neq.
  intros [H1 H2] [H3 H4].
  assert (x = y) as -> by lia. f_equal. apply IH.
  - destruct H2 as [H2|H2]; [congruence|exact H2].
  - destruct H4 as [H4|H4]; [congruence|exact H4].
Qed.

Lemma dt_ltb_paso (u x t : datetime) :
  dt_ltb u x = false -> dt_ltb x t = false -> dt_ltb u t = false.
Proof.
  unfold dt_ltb. intros H1 H2.
  destruct (lex_ltb (tupla u) (tupla t)) eqn:E; [|reflexivity].
  destruct (lex_ltb (tupla t) (tupla x)) eqn:F.
  - now rewrite (lex_ltb_trans _ _ _ E F) in H1.
  - rewrite <- (lex_ltb_total _ _ H2 F) in E. congruence.
Qed.

Lemma dt_ltb_asim (a b : datetime) :
  dt_ltb a b = true -> dt_ltb b a = false.
Proof.
  intros H. destruct (dt_ltb b a) eqn:E; [|reflexivity].
  unfold dt_ltb in *. pose proof (lex_ltb_trans _ _ _ H E) as K.
  fold (dt_ltb a a) in K. now rewrite dt_ltb_irrefl in K.
Qed.

Lemma primera_por_inicio (l : list TareaProgramada) (h : TareaProgramada)
      (r : list TareaProgramada) :
  ordenar_por_inicio false l = h :: r ->
  forall u, In u l -> dt_ltb (fecha_inicio u) (fecha_inicio h) = false.
Proof.
  revert h r. induction l as [|t l IH]; intros h r; [discriminate|].
  cbn [ordenar_por_inicio].
  destruct (ordenar_por_inicio false l) as [|x s] eqn:S.
  - intros [= <- <-] u [<-|Hu]; [apply dt_ltb_irrefl|].
    apply (In_ordenar_por_inicio false) in Hu. rewrite S in Hu.
    contradiction.
  - specialize (IH x s eq_refl). cbn [insertar_por_inicio va_antes].
    destruct (dt_ltb (fecha_inicio x) (fecha_inicio t)) eqn:X.
    + intros [= <- <-] u [<-|Hu]; [now apply dt_ltb_asim|now apply IH].
    + intros [= <- <-] u [<-|Hu]; [apply dt_ltb_irrefl|].
      apply (dt_ltb_paso _ (fecha_inicio x)); [now apply IH|exact X].
Qed.

(** [obtener_proxima_tarea] gives no task exactly when every task starts
    before now; otherwise it gives a task of the table that starts now or
    later, and no task that starts now or later starts before it. *)
Theorem proxima_tarea (ahora : datetime) (b : base) :
  match obtener_proxima_tarea ahora b with
  | None =>
      forall t, In t (tareas_programadas b) ->
                dt_ltb (fecha_inicio t) ahora = true
  | Some t =>
      In t (tareas_programadas b)
      /\ dt_ltb (fecha_inicio t) ahora = false
      /\ (forall u,
             In u (tareas_programadas b) ->
             dt_ltb (fecha_inicio u) ahora = false ->
             dt_ltb (fecha_inicio u) (fecha_inicio t) = false)
  end.
Proof.
  unfold obtener_proxima_tarea.
  set (futuras := filter _ (tareas_programadas b)).
  assert (forall u, In u futuras
                    <-> In u (tareas_programadas b)
                        /\ dt_ltb (fecha_inicio u) ahora = false) as F.
  { intros u. unfold futuras. rewrite filter_In. unfold dt_geb.
    now rewrite negb_true_iff. }
  destruct (ordenar_por_inicio false futuras) as [|h r] eqn:S;
    cbn [hd_error].
  - intros t Ht. destruct (dt_ltb (fecha_inicio t) ahora) eqn:E;
      [reflexivity|].
    assert (In t futuras) as Hf by now apply F.
    apply (In_ordenar_por_inicio false) in Hf. rewrite S in Hf.
    contradiction.
  - assert (In h futuras) as Hh.
    { apply (In_ordenar_por_inicio false). rewrite S. now left. }
    apply F in Hh as [H1 H2]. split; [exact H1|]. split; [exact H2|].
    intros u Hu Eu. apply (primera_por_inicio _ _ _ S). now apply F.
Qed.

Lemma proxima_tarea_ejemplo :
  obtener_proxima_tarea Ejemplos.d_0800 Casos.base_con_tarea
  = Some Casos.tarea_swx
  /\ dt_ltb (fecha_inicio Casos.tarea_swx) Ejemplos.d_0800 = false.
Proof.
  pose proof (proxima_tarea Ejemplos.d_0800 Casos.base_con_tarea) as H.
  assert (obtener_proxima_tarea Ejemplos.d_0800 Casos.base_con_tarea
          = Some Casos.tarea_swx) as E by reflexivity.
  rewrite E in H. split; [exact E|exact (proj1 (proj2 H))].
Defined.

End ConsultasProps.

(** ** Removal of the claims with a repeated number *)

Module DepuracionProps.
Import Py Fechas Database Inventario Lectura.

Lemma mismo_numero_refl (r : Reclamo) : mismo_numero (rec_numero r) r = true.
Proof. unfold mismo_numero. destruct (rec_numero r); [apply String.eqb_refl|reflexivity]. Qed.

Lemma mismo_numero_sym (r x : Reclamo) :
  mismo_numero (rec_numero r) x = mismo_numero (rec_numero x) r.
Proof.
  unfold mismo_numero. destruct (rec_numero r), (rec_numero x);
    try reflexivity. apply String.eqb_sym.
Qed.

Lemma mismo_numero_trans (n : option string) (r x : Reclamo) :
  mismo_numero n r = true ->
  mismo_numero n x = mismo_numero (rec_numero r) x.
Proof.
  unfold mismo_numero. destruct n as [n|], (rec_numero r) as [m|];
    try discriminate; [|reflexivity].
  intros H. apply String.eqb_eq in H. now subst.
Qed.

Lemma misma_fila (l : list Reclamo) (x y : Reclamo) :
  NoDup (map rec_id l) -> In x l -> In y l -> rec_id x = rec_id y -> x = y.
Proof.
  induction l as [|z l IH]; [contradiction|]. cbn [map].
  intros N. inversion N as [|? ? Hz Nl]; subst.
  intros [<-|Hx] [<-|Hy] E; try reflexivity.
  - exfalso. apply Hz. rewrite E. now apply in_map.
  - exfalso. apply Hz. rewrite <- E. now apply in_map.
  - now apply IH.
Qed.

Lemma insertar_desc_perm (r : Reclamo) (l : list Reclamo) :
  Permutation (insertar_desc r l) (r :: l).
Proof.
  induction l as [|x l IH]; cbn [insertar_desc]; [reflexivity|].
  destruct (rec_id x <=? rec_id r)%Z; [reflexivity|].
  rewrite IH. apply perm_swap.
Qed.

Lemma ordenar_desc_perm (l : list Reclamo) : Permutation (ordenar_desc l) l.
Proof.
  induction l as [|x l IH]; cbn [ordenar_desc]; [reflexivity|].
  rewrite insertar_desc_perm. now constructor.
Qed.

Lemma primera_desc (l : list Reclamo) (h : Reclamo) (r : list Reclamo) :
  ordenar_desc l = h :: r ->
  forall x, In x l -> (rec_id x <= rec_id h)%Z.
Proof.
  revert h r. induction l as [|t l IH]; intros h r; [discriminate|].
  cbn [ordenar_desc].
  destruct (ordenar_desc l) as [|y s] eqn:S.
  - intros [= <- <-] x [<-|Hx]; [lia|].
    apply (Permutation_in _ (Permutation_sym (ordenar_desc_perm l))) in Hx.
    rewrite S in Hx. contradiction.
  - specialize (IH y s eq_refl). cbn [insertar_desc].
    destruct (rec_id y <=? rec_id t)%Z eqn:Y.
    + apply Z.leb_le in Y. intros [= <- <-] x [<-|Hx]; [lia|].
      specialize (IH x Hx). lia.
    + apply Z.leb_gt in Y. intros [= <- <-] x [<-|Hx]; [lia|].
      now apply IH.
Qed.

(** The rows deleted for one number: those of the number that a row with
    a greater id makes redundant. *)
Lemma victimas_de (numero : option string) (cur : list Reclamo)
      (r : Reclamo) :
  NoDup (map rec_id cur) ->
  In r cur ->
  In r (tl (ordenar_desc (filter (mismo_numero numero) cur)))
  <-> mismo_numero numero r = true /\ superado cur r = true.
Proof.
  intros N Hr.
  set (g := filter (mismo_numero numero) cur).
  pose proof (ordenar_desc_perm g) as P.
  assert (NoDup (ordenar_desc g)) as Ns.
  { apply (Permutation_NoDup (Permutation_sym P)).
    apply NoDup_filter. now apply NoDup_map_inv in N. }
  destruct (ordenar_desc g) as [|h s] eqn:S.
  - cbn [tl]. split; [contradiction|]. intros [M _].
    assert (In r g) as Hg by (apply filter_In; auto).
    apply (Permutation_in _ (Permutation_sym P)) in Hg. contradiction.
  - cbn [tl].
    assert (In h g) as Hh by (apply (Permutation_in _ P); now left).
    apply filter_In in Hh as [Hh Mh].
    pose proof (primera_desc g h s S) as Mx.
    inversion Ns as [|? ? Nh Ns']; subst. split.
    + intros Hs.
      assert (In r g) as Hg by (apply (Permutation_in _ P); now right).
      apply filter_In in Hg as [_ Mr]. split; [exact Mr|].
      unfold superado. apply existsb_exists. exists h. split; [exact Hh|].
      rewrite <- (mismo_numero_trans _ _ _ Mr), Mh. cbn [andb].
      apply Z.ltb_lt.
      assert (rec_id r <= rec_id h)%Z as L by (apply Mx, filter_In; auto).
      assert (rec_id r <> rec_id h) as D.
      { intros E. apply Nh. now rewrite <- (misma_fila cur r h N Hr Hh E). }
      lia.
    + intros [Mr Sr]. unfold superado in Sr.
      apply existsb_exists in Sr as (x & Hx & E).
      apply andb_prop in E as [E1 E2]. apply Z.ltb_lt in E2.
      assert (In x g) as Hxg.
      { apply filter_In. split; [exact Hx|].
        now rewrite (mismo_numero_trans _ _ _ Mr). }
      assert (In r g) as Hg by (apply filter_In; auto).
      apply (Permutation_in _ (Permutation_sym P)) in Hg.
      destruct Hg as [<-|Hg]; [|exact Hg].
      specialize (Mx x Hxg). lia.
Qed.

(** Rows with distinct keys still have distinct keys after a selection. *)
Lemma claves_tras_filtrar {A : Type} (clave : A -> Z) (filas : list A)
      (p : A -> bool) :
  NoDup (map clave filas) -> NoDup (map clave (filter p filas)).
Proof.
  induction filas as [|x l IH]; [trivial|]. cbn [map filter].
  intros N. inversion N as [|? ? Hx Nl]; subst.
  destruct (p x); [|now apply IH]. cbn [map]. constructor; [|now apply IH].
  intros H. apply Hx. apply in_map_iff in H as (y & E & Hy).
  apply filter_In in Hy as [Hy _]. apply in_map_iff. now exists y.
Qed.

Lemma victimas_en (numero : option string) (cur : list Reclamo)
      (r : Reclamo) :
  In r (tl (ordenar_desc (filter (mismo_numero numero) cur))) -> In r cur.
Proof.
  intros H.
  assert (In r (ordenar_desc (filter (mismo_numero numero) cur))) as H'.
  { destruct (ordenar_desc _); [contradiction|now right]. }
  apply (Permutation_in _ (ordenar_desc_perm _)) in H'.
  now apply filter_In in H'.
Qed.

Lemma borrar_victimas (numero : option string) (cur : list Reclamo) :
  NoDup (map rec_id cur) ->
  borrar (tl (ordenar_desc (filter (mismo_numero numero) cur))) cur
  = filter (fun r => negb (mismo_numero numero r && superado cur r)) cur.
Proof.
  intros N. unfold borrar. apply filter_ext_in. intros r Hr. f_equal.
  apply eq_true_iff_eq. rewrite andb_true_iff, <- (victimas_de numero cur r N Hr).
  rewrite existsb_exists. split.
  - intros (v & Hv & E). apply Z.eqb_eq in E.
    now rewrite <- (misma_fila cur v r N (victimas_en _ _ _ Hv) Hr E).
  - intros H. exists r. split; [exact H|apply Z.eqb_refl].
Qed.

Lemma largo_victimas (numero : option string) (cur : list Reclamo) :
  NoDup (map rec_id cur) ->
  let victimas := tl (ordenar_desc (filter (mismo_numero numero) cur)) in
  (List.length (borrar victimas cur) + List.length victimas
   = List.length cur)%nat.
Proof.
  intros N victimas. unfold victimas at 1. rewrite (borrar_victimas _ _ N).
  rewrite <- (filter_length
                (fun r => mismo_numero numero r && superado cur r) cur).
  rewrite Nat.add_comm. f_equal. apply Permutation_length.
  apply Permutation_sym.
  apply NoDup_Permutation.
  - apply NoDup_filter. now apply NoDup_map_inv in N.
  - assert (NoDup (ordenar_desc (filter (mismo_numero numero) cur))) as Ns.
    { apply (Permutation_NoDup (Permutation_sym (ordenar_desc_perm _))).
      apply NoDup_filter. now apply NoDup_map_inv in N. }
    unfold victimas. destruct (ordenar_desc _); [constructor|].
    now inversion Ns.
  - intros r. rewrite filter_In, andb_true_iff. split.
    + intros [Hr H]. now apply victimas_de.
    + intros H. pose proof (victimas_en _ _ _ H) as Hr.
      split; [exact Hr|]. now apply victimas_de.
Qed.

Lemma superado_incl (l l' : list Reclamo) (r : Reclamo) :
  incl l' l -> superado l' r = true -> superado l r = true.
Proof.
  unfold superado. rewrite !existsb_exists. intros I (x & Hx & E).
  exists x. split; [now apply I|exact E].
Qed.

Lemma filter_filter {A : Type} (p q : A -> bool) (l : list A) :
  filter q (filter p l) = filter (fun x => p x && q x) l.
Proof.
  induction l as [|x l IH]; [reflexivity|]. cbn [filter].
  destruct (p x); cbn [filter andb]; now rewrite IH.
Qed.

(** The loop over the repeated numbers. *)
Lemma depurar_forma (numeros : list (option string)) (cur : list Reclamo)
      (e : nat) :
  NoDup (map rec_id cur) ->
  let queda :=
    filter (fun r =>
              negb (existsb (fun n => mismo_numero n r) numeros
                    && superado cur r)) cur in
  depurar numeros cur e
  = (queda, (e + (List.length cur - List.length queda))%nat).
Proof.
  revert cur e. induction numeros as [|numero resto IH]; intros cur e N.
  - cbn. assert (filter (fun _ => true) cur = cur) as ->.
    { clear. induction cur as [|x l IH]; [reflexivity|]. cbn.
      now rewrite IH. }
    now rewrite Nat.sub_diag, Nat.add_0_r.
  - cbv zeta. cbn [depurar].
    pose proof (largo_victimas numero cur N) as L. cbv zeta in L.
    set (victimas := tl (ordenar_desc (filter (mismo_numero numero) cur)))
      in *.
    pose proof (borrar_victimas numero cur N) as B. fold victimas in B.
    rewrite (IH (borrar victimas cur) _) by (rewrite B; now apply claves_tras_filtrar).
    assert (filter (fun r =>
                      negb (existsb (fun n => mismo_numero n r) resto
                            && superado (borrar victimas cur) r))
                   (borrar victimas cur)
            = filter (fun r =>
                        negb (existsb (fun n => mismo_numero n r)
                                      (numero :: resto)
                              && superado cur r)) cur) as E.
    { set (q := fun r =>
                  negb (existsb (fun n => mismo_numero n r) resto
                        && superado (borrar victimas cur) r)).
      rewrite B. subst q. rewrite filter_filter. apply filter_ext_in.
      intros r Hr. cbn [existsb].
      destruct (mismo_numero numero r) eqn:M; cbn [andb orb].
      - destruct (superado cur r) eqn:S; cbn [negb andb].
        + reflexivity.
        + destruct (superado (borrar victimas cur) r) eqn:S';
            [|now rewrite andb_false_r].
          apply (superado_incl cur) in S'; [congruence|].
          intros x Hx. rewrite B in Hx. now apply filter_In in Hx.
      - cbn [negb andb]. f_equal. f_equal.
        apply eq_true_iff_eq. split; [|].
        + apply superado_incl. intros x Hx. rewrite B in Hx.
          now apply filter_In in Hx.
        + unfold superado. rewrite !existsb_exists.
          intros (x & Hx & Ex). exists x. split; [|exact Ex].
          rewrite B. apply filter_In. split; [exact Hx|].
          apply andb_prop in Ex as [Ex _].
          rewrite mismo_numero_sym in Ex.
          destruct (mismo_numero numero x) eqn:Mx; [|reflexivity].
          rewrite <- (mismo_numero_trans _ _ _ Mx) in Ex. congruence. }
    rewrite E. f_equal.
    assert (List.length
              (filter (fun r =>
                         negb (existsb (fun n => mismo_numero n r)
                                       (numero :: resto)
                               && superado cur r)) cur)
            <= List.length (borrar victimas cur))%nat as Le.
    { rewrite <- E. apply filter_length_le. }
    lia.
Qed.

Lemma grupo_igual (todos : list Reclamo) (x r : Reclamo) :
  mismo_numero (rec_numero x) r = true ->
  filter (mismo_numero (rec_numero x)) todos
  = filter (mismo_numero (rec_numero r)) todos.
Proof.
  intros M. apply filter_ext. intros y. now apply mismo_numero_trans.
Qed.

Lemma repetidos_completo (todos pendientes : list Reclamo)
      (vistos : list (option string)) (r : Reclamo) :
  In r pendientes ->
  1 < List.length (filter (mismo_numero (rec_numero r)) todos) ->
  existsb (fun v => mismo_numero v r) vistos = true
  \/ existsb (fun n => mismo_numero n r)
             (repetidos vistos pendientes todos) = true.
Proof.
  revert vistos. induction pendientes as [|x l IH]; intros vistos;
    [contradiction|].
  intros [->|Hr] G; cbn [repetidos].
  - destruct (existsb (fun v => mismo_numero v r) vistos) eqn:V; [now left|].
    right. apply Nat.ltb_lt in G. rewrite G. cbn [existsb].
    now rewrite mismo_numero_refl.
  - destruct (existsb (fun v => mismo_numero v x) vistos) eqn:V;
      [now apply IH|].
    destruct (1 <? _) eqn:Gx.
    + destruct (IH (rec_numero x :: vistos) Hr G) as [H|H].
      * cbn [existsb] in H. apply orb_prop in H as [H|H]; [|now left].
        right. cbn [existsb]. now rewrite H.
      * right. cbn [existsb]. now rewrite H, orb_true_r.
    + destruct (IH (rec_numero x :: vistos) Hr G) as [H|H]; [|now right].
      cbn [existsb] in H. apply orb_prop in H as [H|H]; [|now left].
      exfalso. rewrite (grupo_igual todos x r H) in Gx.
      apply Nat.ltb_ge in Gx. lia.
Qed.

Lemma dos_en_grupo (l : list Reclamo) (r x : Reclamo) :
  In r l -> In x l -> r <> x ->
  mismo_numero (rec_numero r) x = true ->
  1 < List.length (filter (mismo_numero (rec_numero r)) l).
Proof.
  intros Hr Hx D M.
  assert (In r (filter (mismo_numero (rec_numero r)) l)) as Gr.
  { apply filter_In. split; [exact Hr|apply mismo_numero_refl]. }
  assert (In x (filter (mismo_numero (rec_numero r)) l)) as Gx.
  { apply filter_In. now split. }
  destruct (filter _ l) as [|a [|b g]]; cbn; [contradiction| |lia].
  destruct Gr as [<-|[]]. destruct Gx as [E|[]]. now contradiction D.
Qed.

Lemma depurar_cerrado (l : list Reclamo) :
  NoDup (map rec_id l) ->
  let queda := filter (fun r => negb (superado l r)) l in
  depurar (repetidos [] l l) l 0
  = (queda, List.length l - List.length queda).
Proof.
  intros N. cbv zeta. rewrite (depurar_forma _ _ _ N). cbv zeta.
  assert (filter (fun r =>
                    negb (existsb (fun n => mismo_numero n r)
                                  (repetidos [] l l)
                          && superado l r)) l
          = filter (fun r => negb (superado l r)) l) as ->.
  { apply filter_ext_in. intros r Hr. f_equal.
    destruct (superado l r) eqn:S; [|apply andb_false_r].
    rewrite andb_true_r. unfold superado in S.
    apply existsb_exists in S as (x & Hx & E).
    apply andb_prop in E as [M Lt]. apply Z.ltb_lt in Lt.
    destruct (repetidos_completo l l [] r Hr) as [H|H];
      [|discriminate|exact H].
    apply (dos_en_grupo l r x Hr Hx); [|exact M].
    intros ->. lia. }
  reflexivity.
Qed.

(** Once the rows have distinct ids, [depurar_reclamos_duplicados] removes
    exactly the claims that share their number with a claim of greater id
    (the claims without number count as one number), touches nothing else
    and returns how many rows it removed.  Afterwards no two claims have
    the same number, every number that was there still is, with its latest
    claim, and a second pass removes nothing. *)
Theorem depurar_reclamos (t : tablas) :
  NoDup (map rec_id (reclamos t)) ->
  let '(t', eliminados) := depurar_reclamos_duplicados t in
  reclamos t' = filter (fun r => negb (superado (reclamos t) r)) (reclamos t)
  /\ eliminados
     = (List.length (reclamos t) - List.length (reclamos t'))%nat
  /\ camaras t' = camaras t
  /\ (forall r x,
         In r (reclamos t') -> In x (reclamos t') ->
         mismo_numero (rec_numero r) x = true -> r = x)
  /\ (forall r,
         In r (reclamos t) ->
         exists x,
           In x (reclamos t')
           /\ mismo_numero (rec_numero r) x = true
           /\ (rec_id r <= rec_id x)%Z)
  /\ depurar_reclamos_duplicados t' = (t', 0).
Proof.
  intros N. unfold depurar_reclamos_duplicados.
  rewrite (depurar_cerrado _ N). cbv zeta. cbn [reclamos camaras].
  set (l := reclamos t) in *.
  set (l' := filter (fun r => negb (superado l r)) l).
  assert (forall r, In r l' <-> In r l /\ superado l r = false) as I.
  { intros r. unfold l'. rewrite filter_In. now rewrite negb_true_iff. }
  split; [reflexivity|]. split; [reflexivity|]. split; [reflexivity|].
  split; [|split].
  - intros r x Hr Hx M. apply I in Hr as [Hr Sr]. apply I in Hx as [Hx Sx].
    apply (misma_fila l r x N Hr Hx).
    destruct (Z.lt_trichotomy (rec_id r) (rec_id x)) as [Lt|[E|Lt]];
      [|exact E|]; exfalso.
    + assert (superado l r = true); [|congruence].
      apply existsb_exists. exists x. split; [exact Hx|].
      rewrite M. now apply Z.ltb_lt.
    + assert (superado l x = true); [|congruence].
      apply existsb_exists. exists r. split; [exact Hr|].
      rewrite mismo_numero_sym, M. now apply Z.ltb_lt.
  - intros r Hr.
    set (g := filter (mismo_numero (rec_numero r)) l).
    assert (In r g) as Gr.
    { apply filter_In. split; [exact Hr|apply mismo_numero_refl]. }
    pose proof (ordenar_desc_perm g) as P.
    destruct (ordenar_desc g) as [|h s] eqn:S.
    { apply (Permutation_in _ (Permutation_sym P)) in Gr. contradiction. }
    assert (In h g) as Gh by (apply (Permutation_in _ P); now left).
    pose proof (primera_desc g h s S) as Mx.
    apply filter_In in Gh as [Hh Mh].
    exists h. split; [|split; [exact Mh|now apply Mx]].
    apply I. split; [exact Hh|].
    destruct (superado l h) eqn:Sh; [|reflexivity]. exfalso.
    apply existsb_exists in Sh as (x & Hx & E).
    apply andb_prop in E as [M Lt]. apply Z.ltb_lt in Lt.
    assert (In x g) as Gx.
    { apply filter_In. split; [exact Hx|].
      now rewrite (mismo_numero_trans _ _ _ Mh). }
    specialize (Mx x Gx). lia.
  - assert (NoDup (map rec_id l')) as N' by now apply claves_tras_filtrar.
    rewrite (depurar_cerrado _ N'). cbv zeta.
    assert (filter (fun r => negb (superado l' r)) l' = l') as ->.
    { apply forallb_filter_id. apply forallb_forall. intros r Hr.
      destruct (superado l' r) eqn:S'; [|reflexivity].
      apply (superado_incl l) in S'.
      - apply I in Hr as [_ Sr]. congruence.
      - intros x Hx. now apply I in Hx. }
    now rewrite Nat.sub_diag.
Qed.

Lemma depurar_reclamos_ejemplo :
  let '(t', eliminados) :=
    depurar_reclamos_duplicados Casos.tablas_reclamos in
  map rec_id (reclamos t') = [2; 3]%Z /\ eliminados = 1.
Proof.
  pose proof (depurar_reclamos Casos.tablas_reclamos) as H.
  destruct (depurar_reclamos_duplicados Casos.tablas_reclamos)
    as [t' eliminados].
  destruct H as (E & N & _).
  - repeat (constructor; [cbn; intuition discriminate|]). constructor.
  - rewrite N, E. split; reflexivity.
Defined.

End DepuracionProps.

(** ** Removal of the tasks with a repeated key *)

Module MigracionProps.
Import Py Fechas Database Migracion Lectura.

Lemma quitar_duplicadas_correr (uix : bool) (k : Z) (ds : list Z) (b : base) :
  quitar_duplicadas uix k ds b = correr uix (map (fun d => (k, d)) ds) b.
Proof.
  revert b. induction ds as [|d r IH]; intros b; [reflexivity|].
  cbn [quitar_duplicadas map correr fst snd]. unfold bind.
  destruct (quitar_duplicada uix k d b) as [b1 [e|[]]]; [reflexivity|].
  apply IH.
Qed.

Lemma correr_app (uix : bool) (a r : list (Z * Z)) (b : base) :
  correr uix (a ++ r) b = (correr uix a ;;; correr uix r)%m b.
Proof.
  revert b. induction a as [|m a IH]; intros b; [reflexivity|].
  cbn [app correr]. unfold bind in *.
  destruct (quitar_duplicada uix (fst m) (snd m) b) as [b1 [e|[]]];
    [reflexivity|].
  apply IH.
Qed.

Lemma lleva_fuera (ms : list (Z * Z)) (n : Z) :
  ~ In n (map snd ms) -> lleva ms n = n.
Proof.
  induction ms as [|m r IH]; [reflexivity|]. cbn [map In lleva].
  intros H. destruct (Z.eqb_spec n (snd m)) as [->|N]; [tauto|].
  apply IH. tauto.
Qed.

Lemma se_juntan_por_nada (ls : list TareaServicio) :
  se_juntan_por [] ls = false.
Proof.
  unfold se_juntan_por. cbn [lleva].
  destruct (existsb _ ls) eqn:E; [|reflexivity].
  apply existsb_exists in E as (e & _ & E).
  apply existsb_exists in E as (x & _ & E).
  apply andb_prop in E as [E E3]. apply andb_prop in E as [E1 E2].
  apply Z.eqb_eq in E3. apply negb_true_iff, Z.eqb_neq in E1. contradiction.
Qed.

Lemma se_juntan_paso (k d : Z) (r : list (Z * Z)) (ls : list TareaServicio) :
  k <> d ->
  ~ In k (map snd r) ->
  se_juntan_por ((k, d) :: r) ls
  = choca k d ls || se_juntan_por r (map (mover_enlace k d) ls).
Proof.
  intros Nkd Nk. pose proof (lleva_fuera r k Nk) as Lk.
  assert (forall e, tarea_id (mover_enlace k d e)
                    = if (tarea_id e =? d)%Z then k else tarea_id e) as T.
  { intros e. unfold mover_enlace. now destruct (tarea_id e =? d)%Z. }
  assert (forall e, servicio_id (mover_enlace k d e) = servicio_id e) as S.
  { intros e. unfold mover_enlace. now destruct (tarea_id e =? d)%Z. }
  assert (forall e, lleva r (tarea_id (mover_enlace k d e))
                    = lleva ((k, d) :: r) (tarea_id e)) as L.
  { intros e. rewrite T. cbn [lleva fst snd].
    now destruct (tarea_id e =? d)%Z. }
  apply eq_true_iff_eq. rewrite orb_true_iff. unfold se_juntan_por, choca.
  rewrite !existsb_exists. split.
  - intros (e & He & E). apply existsb_exists in E as (x & Hx & E).
    apply andb_prop in E as [E E3]. apply andb_prop in E as [E1 E2].
    apply negb_true_iff, Z.eqb_neq in E1.
    destruct (Z.eqb_spec (tarea_id (mover_enlace k d e))
                         (tarea_id (mover_enlace k d x))) as [Q|Q].
    + left. rewrite !T in Q.
      destruct (Z.eqb_spec (tarea_id e) d) as [Ed|Ed],
               (Z.eqb_spec (tarea_id x) d) as [Xd|Xd]; try congruence.
      * exists e. split; [exact He|]. rewrite Ed, Z.eqb_refl. cbn [andb].
        apply existsb_exists. exists x. split; [exact Hx|].
        rewrite <- Q, Z.eqb_refl. cbn [andb]. apply Z.eqb_eq in E2.
        now rewrite E2, Z.eqb_refl.
      * exists x. split; [exact Hx|]. rewrite Xd, Z.eqb_refl. cbn [andb].
        apply existsb_exists. exists e. split; [exact He|].
        now rewrite Q, Z.eqb_refl.
    + right. exists (mover_enlace k d e). split; [now apply in_map|].
      apply existsb_exists. exists (mover_enlace k d x).
      split; [now apply in_map|].
      rewrite !S, !L, E2, E3. apply Z.eqb_neq in Q. now rewrite Q.
  - intros [(e & He & E)|(e' & He' & E)].
    + apply andb_prop in E as [Ed E]. apply Z.eqb_eq in Ed.
      apply existsb_exists in E as (x & Hx & E).
      apply andb_prop in E as [Xk E2]. apply Z.eqb_eq in Xk.
      exists e. split; [exact He|]. apply existsb_exists. exists x.
      split; [exact Hx|]. cbn [lleva fst snd].
      rewrite Ed, Xk, Z.eqb_refl.
      assert ((d =? k)%Z = false) as -> by (apply Z.eqb_neq; congruence).
      assert ((k =? d)%Z = false) as -> by (apply Z.eqb_neq; congruence).
      rewrite Lk, Z.eqb_refl, andb_true_r. cbn [negb andb].
      rewrite Z.eqb_sym. exact E2.
    + apply in_map_iff in He' as (e & <- & He).
      apply existsb_exists in E as (x' & Hx' & E).
      apply in_map_iff in Hx' as (x & <- & Hx).
      rewrite !S, !L in E.
      apply andb_prop in E as [E E3]. apply andb_prop in E as [E1 E2].
      exists e. split; [exact He|]. apply existsb_exists. exists x.
      split; [exact Hx|]. rewrite E2, E3, !andb_true_r.
      apply negb_true_iff, Z.eqb_neq in E1. apply negb_true_iff, Z.eqb_neq.
      intros Q. apply E1. now rewrite !T, Q.
Qed.

Lemma filter_todos {A : Type} (l : list A) : filter (fun _ => true) l = l.
Proof. induction l as [|x l IH]; [reflexivity|]. cbn. now rewrite IH. Qed.

Lemma tras_nada (b : base) : tras [] b = b.
Proof.
  unfold tras. cbn [map snd existsb negb lleva]. rewrite filter_todos.
  assert (forall ls : list TareaServicio,
             map (fun e => MkTareaServicio (ts_id e) (tarea_id e)
                                           (servicio_id e)) ls = ls) as E1.
  { induction ls as [|[] ls IH]; [reflexivity|]. cbn. now rewrite IH. }
  assert (forall ps : list ServicioPendiente,
             map (fun p => MkPendiente (sp_id p) (sp_tarea_id p)
                                       (sp_id_carrier p)) ps = ps) as E2.
  { induction ps as [|[] ps IH]; [reflexivity|]. cbn. now rewrite IH. }
  rewrite E1, E2. now destruct b.
Qed.

Lemma tras_paso (k d : Z) (r : list (Z * Z)) (b : base) :
  ~ In k (map snd r) ->
  tras r
    (MkBase (clientes b) (carriers b) (servicios b)
            (filter (fun t => negb (tp_id t =? d)%Z) (tareas_programadas b))
            (map (mover_enlace k d) (tareas_servicio b))
            (map (mover_pendiente k d) (servicios_pendientes b))
            (sec_clientes b) (sec_carriers b) (sec_tareas b)
            (sec_tareas_servicio b) (sec_pendientes b))
  = tras ((k, d) :: r) b.
Proof.
  intros Nk. pose proof (lleva_fuera r k Nk) as Lk.
  unfold tras.
  cbn [clientes carriers servicios tareas_programadas tareas_servicio
       servicios_pendientes sec_clientes sec_carriers sec_tareas
       sec_tareas_servicio sec_pendientes].
  f_equal.
  - rewrite DepuracionProps.filter_filter. apply filter_ext. intros t.
    cbn [map snd existsb]. rewrite negb_orb. reflexivity.
  - rewrite map_map. apply map_ext. intros e. unfold mover_enlace.
    cbn [lleva fst snd].
    destruct (tarea_id e =? d)%Z; cbn [ts_id tarea_id servicio_id];
      [now rewrite Lk|reflexivity].
  - rewrite map_map. apply map_ext. intros p. unfold mover_pendiente.
    cbn [lleva fst snd].
    destruct (sp_tarea_id p =? d)%Z;
      cbn [sp_id sp_tarea_id sp_id_carrier]; [now rewrite Lk|reflexivity].
Qed.

(** A run over moves in order: it fails exactly when the constraint is
    there and two links would be brought together. *)
Lemma correr_forma (uix : bool) (ms : list (Z * Z)) (b : base) :
  en_orden ms ->
  if uix && se_juntan_por ms (tareas_servicio b)
  then exists b', correr uix ms b = (b', inl IntegrityError)
  else correr uix ms b = (tras ms b, inr tt).
Proof.
  revert b. induction ms as [|[k d] r IH]; intros b.
  - intros _. rewrite se_juntan_por_nada, andb_false_r, tras_nada.
    reflexivity.
  - cbn [en_orden fst snd]. intros (Nkd & Nk & Hr).
    rewrite (se_juntan_paso k d r _ Nkd Nk).
    cbn [correr fst snd]. unfold bind, quitar_duplicada.
    destruct uix; cbn [andb].
    + destruct (choca k d (tareas_servicio b)); cbn [orb]; [eauto|].
      match goal with |- context [correr true r ?x] =>
        specialize (IH x Hr) end.
      cbn [tareas_servicio andb] in IH.
      destruct (se_juntan_por r (map (mover_enlace k d) (tareas_servicio b))).
      * destruct IH as (b' & ->). eauto.
      * rewrite IH. now rewrite tras_paso.
    + match goal with |- context [correr false r ?x] =>
        specialize (IH x Hr) end.
      cbn [andb] in IH. rewrite IH. now rewrite tras_paso.
Qed.

(** *** The moves of the code are those of the first state *)

Lemma misma_tarea (l : list TareaProgramada) (x y : TareaProgramada) :
  NoDup (map tp_id l) -> In x l -> In y l -> tp_id x = tp_id y -> x = y.
Proof.
  induction l as [|z l IH]; [contradiction|]. cbn [map].
  intros N. inversion N as [|? ? Hz Nl]; subst.
  intros [<-|Hx] [<-|Hy] E; try reflexivity.
  - exfalso. apply Hz. rewrite E. now apply in_map.
  - exfalso. apply Hz. rewrite <- E. now apply in_map.
  - now apply IH.
Qed.

Lemma de_clave_campos (k : clave) (t : TareaProgramada) :
  de_clave k t = true <->
  carrier_id t = Some (fst k) /\ id_interno t = Some (snd k).
Proof.
  unfold de_clave, misma_clave, eq_oZ, eq_os.
  destruct (carrier_id t) as [c|], (id_interno t) as [i|]; cbn;
    try rewrite andb_false_r;
    try (split; [discriminate|intros [? ?]; discriminate]).
  rewrite andb_true_iff, Z.eqb_eq, String.eqb_eq. split.
  - now intros [-> ->].
  - now intros [[= ->] [= ->]].
Qed.

Lemma de_clave_unica (k k' : clave) (t : TareaProgramada) :
  de_clave k t = true -> de_clave k' t = true -> k = k'.
Proof.
  rewrite !de_clave_campos. intros [C I] [C' I'].
  destruct k, k'. cbn in *. congruence.
Qed.

Lemma In_movimientos_de (l : list TareaProgramada) (f : clave * Z)
      (m : Z * Z) :
  In m (movimientos_de l f)
  <-> exists u, In u l /\ de_clave (fst f) u = true /\ tp_id u <> snd f
                /\ m = (snd f, tp_id u).
Proof.
  unfold movimientos_de. rewrite in_map_iff. split.
  - intros (u & <- & H). apply filter_In in H as [Hu H].
    apply andb_prop in H as [H1 H2].
    apply negb_true_iff, Z.eqb_neq in H2. exists u. auto.
  - intros (u & Hu & H1 & H2 & ->). exists u. split; [reflexivity|].
    apply filter_In. split; [exact Hu|]. rewrite H1.
    apply Z.eqb_neq in H2. now rewrite H2.
Qed.

Lemma correr_tareas (uix : bool) (ms : list (Z * Z)) (b b1 : base) :
  correr uix ms b = (b1, inr tt) ->
  tareas_programadas b1
  = filter (fun t => negb (existsb (Z.eqb (tp_id t)) (map snd ms)))
           (tareas_programadas b).
Proof.
  revert b. induction ms as [|m r IH]; intros b.
  - intros [= <-]. cbn. now rewrite filter_todos.
  - cbn [correr]. unfold bind, quitar_duplicada.
    destruct (uix && _); [discriminate|]. intros H.
    rewrite (IH _ H). cbn [tareas_programadas].
    rewrite DepuracionProps.filter_filter. apply filter_ext. intros t.
    cbn [map existsb]. now rewrite negb_orb.
Qed.

Lemma movimientos_estables (l : list TareaProgramada) (f f' : clave * Z) :
  NoDup (map tp_id l) ->
  fst f <> fst f' ->
  movimientos_de
    (filter (fun t => negb (existsb (Z.eqb (tp_id t))
                                    (map snd (movimientos_de l f)))) l)
    f'
  = movimientos_de l f'.
Proof.
  intros N D. unfold movimientos_de at 1 3. f_equal.
  rewrite DepuracionProps.filter_filter. apply filter_ext_in.
  intros t Ht.
  destruct (de_clave (fst f') t && negb (tp_id t =? snd f')%Z) eqn:Q;
    [|apply andb_false_r].
  rewrite andb_true_r. apply negb_true_iff.
  destruct (existsb _ _) eqn:X; [|reflexivity]. exfalso.
  apply existsb_exists in X as (n & Hn & E). apply Z.eqb_eq in E. subst n.
  apply in_map_iff in Hn as (m & E & Hm).
  apply In_movimientos_de in Hm as (u & Hu & K & _ & ->). cbn [snd] in E.
  rewrite (misma_tarea l u t N Hu Ht E) in K.
  apply andb_prop in Q as [K' _]. apply D. eapply de_clave_unica; eassumption.
Qed.

Lemma depurar_claves_correr (uix : bool) (fs : list (clave * Z)) (b : base) :
  NoDup (map tp_id (tareas_programadas b)) ->
  NoDup (map fst fs) ->
  depurar_claves uix fs b
  = correr uix (flat_map (movimientos_de (tareas_programadas b)) fs) b.
Proof.
  revert b. induction fs as [|f r IH]; intros b N Nf; [reflexivity|].
  cbn [depurar_claves flat_map]. rewrite correr_app. unfold bind.
  assert (depurar_clave uix f b
          = correr uix (movimientos_de (tareas_programadas b) f) b) as E.
  { unfold depurar_clave. rewrite quitar_duplicadas_correr.
    unfold movimientos_de. now rewrite map_map. }
  rewrite E.
  destruct (correr uix (movimientos_de (tareas_programadas b) f) b)
    as [b1 [e|[]]] eqn:C; [reflexivity|].
  pose proof (correr_tareas _ _ _ _ C) as T.
  cbn [map] in Nf. inversion Nf as [|? ? Hf Nr]; subst.
  rewrite IH; [|rewrite T; now apply DepuracionProps.claves_tras_filtrar
               |exact Nr].
  f_equal. rewrite T. clear IH E C Nf Nr.
  induction r as [|f' r IHr]; [reflexivity|]. cbn [flat_map].
  rewrite movimientos_estables, IHr; [reflexivity| |exact N|].
  - intros H. apply Hf. now right.
  - intros H. apply Hf. left. now symmetry.
Qed.

(** *** The rows of the first query *)

Lemma minimo_pliegue (r : list TareaProgramada) (m0 : Z) :
  let m := fold_left (fun m x => Z.min m (tp_id x)) r m0 in
  (m = m0 \/ In m (map tp_id r))
  /\ (m <= m0)%Z
  /\ (forall x, In x r -> (m <= tp_id x)%Z).
Proof.
  revert m0. induction r as [|t r IH]; intros m0; cbn [fold_left].
  - cbv zeta. split; [now left|]. split; [lia|contradiction].
  - specialize (IH (Z.min m0 (tp_id t))). cbv zeta in *.
    destruct IH as (H1 & H2 & H3). split; [|split].
    + destruct H1 as [H1|H1]; [|right; now right].
      rewrite H1.
      destruct (Z.min_spec m0 (tp_id t)) as [[_ E]|[_ E]]; rewrite E;
        [now left|right; now left].
    + lia.
    + intros x [<-|Hx]; [lia|now apply H3].
Qed.

Lemma minimo_de (g : list TareaProgramada) :
  g <> [] ->
  (exists v, In v g /\ tp_id v = minimo g)
  /\ (forall x, In x g -> (minimo g <= tp_id x)%Z).
Proof.
  destruct g as [|t r]; [congruence|]. intros _. unfold minimo.
  pose proof (minimo_pliegue r (tp_id t)) as (H1 & H2 & H3). cbv zeta in *.
  split.
  - destruct H1 as [H1|H1].
    + exists t. split; [now left|now symmetry].
    + apply in_map_iff in H1 as (v & E & Hv). exists v.
      split; [now right|exact E].
  - intros x [<-|Hx]; [exact H2|now apply H3].
Qed.

Lemma In_filas (l : list TareaProgramada) (f : clave * Z) :
  In f (filas l)
  <-> In (fst f) (claves l)
      /\ 1 < List.length (filter (de_clave (fst f)) l)
      /\ snd f = minimo (filter (de_clave (fst f)) l).
Proof.
  unfold filas. rewrite in_flat_map. split.
  - intros (k & Hk & H). cbv zeta in H.
    destruct (1 <? _) eqn:G; [|contradiction]. destruct H as [<-|[]].
    cbn [fst snd]. apply Nat.ltb_lt in G. auto.
  - intros (Hk & G & E). exists (fst f). split; [exact Hk|]. cbv zeta.
    apply Nat.ltb_lt in G. rewrite G. left. destruct f. cbn in *.
    now rewrite E.
Qed.

Lemma claves_filas (l : list TareaProgramada) : NoDup (map fst (filas l)).
Proof.
  unfold filas. pose proof (NoDup_nodup clave_dec (flat_map clave_de l)) as N.
  fold (claves l) in N. induction (claves l) as [|k ks IH]; [constructor|].
  inversion N as [|? ? Hk Nk]; subst. cbn [flat_map]. cbv zeta.
  rewrite map_app. destruct (1 <? _); cbn [map app fst]; [|now apply IH].
  constructor; [|now apply IH]. intros H. apply Hk.
  apply in_map_iff in H as (f & <- & Hf).
  apply in_flat_map in Hf as (k' & Hk' & H). cbv zeta in H.
  destruct (1 <? _); [|contradiction]. now destruct H as [<-|[]].
Qed.

Lemma en_orden_app (a r : list (Z * Z)) :
  en_orden a -> en_orden r ->
  (forall m, In m a -> ~ In (fst m) (map snd r)) ->
  en_orden (a ++ r).
Proof.
  induction a as [|m a IH]; intros Ha Hr H; [exact Hr|].
  cbn [app en_orden] in *. destruct Ha as (H1 & H2 & H3).
  split; [exact H1|]. split.
  - rewrite map_app, in_app_iff. intros [K|K]; [now apply H2|].
    apply (H m); [now left|exact K].
  - apply IH; auto. intros m' Hm'. apply H. now right.
Qed.

Lemma en_orden_de (l : list TareaProgramada) (f : clave * Z) :
  en_orden (movimientos_de l f).
Proof.
  assert (forall ms : list (Z * Z),
             (forall m, In m ms -> fst m = snd f /\ snd m <> snd f) ->
             en_orden ms) as G.
  { induction ms as [|m ms IH]; intros H; [exact I|]. cbn [en_orden].
    destruct (H m (or_introl eq_refl)) as [E1 E2].
    split; [congruence|]. split.
    - intros K. apply in_map_iff in K as (m' & E & Hm').
      destruct (H m' (or_intror Hm')) as [_ E3]. congruence.
    - apply IH. intros m' Hm'. apply H. now right. }
  apply G. intros m Hm.
  apply In_movimientos_de in Hm as (u & _ & _ & D & ->). cbn. auto.
Qed.

Lemma en_orden_movimientos (l : list TareaProgramada) :
  NoDup (map tp_id l) -> en_orden (movimientos l).
Proof.
  intros N. unfold movimientos.
  pose proof (claves_filas l) as Nf.
  assert (forall f, In f (filas l) -> In f (filas l)) as Hf by auto.
  revert Nf Hf. generalize (filas l) at 1 2 4. intros fs.
  induction fs as [|f r IH]; intros Nf Hf; [exact I|].
  cbn [flat_map map] in *. inversion Nf as [|? ? Hk Nr]; subst.
  apply en_orden_app.
  - apply en_orden_de.
  - apply IH; [exact Nr|]. intros f' Hf'. apply Hf. now right.
  - intros m Hm K.
    apply In_movimientos_de in Hm as (u & _ & _ & _ & ->). cbn [fst] in K.
    apply in_map_iff in K as (m' & E & Hm').
    apply in_flat_map in Hm' as (f' & Hf' & Hm').
    apply In_movimientos_de in Hm' as (u' & Hu' & K' & _ & ->).
    cbn [snd] in E.
    destruct (proj1 (In_filas l f) (Hf f (or_introl eq_refl)))
      as (_ & G & Emin).
    destruct (minimo_de (filter (de_clave (fst f)) l)) as ((v & Hv & Ev) & _).
    { intros Z0. rewrite Z0 in G. cbn in G. lia. }
    apply filter_In in Hv as [Hv Kv].
    assert (u' = v) as ->.
    { apply (misma_tarea l); auto. congruence. }
    apply Hk. apply in_map_iff. exists f'. split; [|exact Hf'].
    eapply de_clave_unica; eassumption.
Qed.

(** *** What the moves are, said on the first state *)

Lemma misma_clave_de_clave (k : clave) (t u : TareaProgramada) :
  de_clave k t = true ->
  misma_clave (carrier_id t) (id_interno t) u = de_clave k u.
Proof.
  intros H. apply de_clave_campos in H as [-> ->]. reflexivity.
Qed.

Lemma misma_clave_completa (t u : TareaProgramada) :
  misma_clave (carrier_id t) (id_interno t) u = true ->
  exists k, de_clave k t = true /\ de_clave k u = true.
Proof.
  unfold misma_clave, eq_oZ, eq_os. intros H.
  apply andb_prop in H as [H1 H2].
  destruct (carrier_id u) as [cu|] eqn:Cu; [|discriminate].
  destruct (carrier_id t) as [c|] eqn:C; [|discriminate].
  destruct (id_interno u) as [iu|] eqn:Iu; [|discriminate].
  destruct (id_interno t) as [i|] eqn:I; [|discriminate].
  apply Z.eqb_eq in H1. apply String.eqb_eq in H2. subst.
  exists (c, i). split; apply de_clave_campos; cbn; auto.
Qed.

Lemma In_claves (l : list TareaProgramada) (k : clave)
      (t : TareaProgramada) :
  In t l -> de_clave k t = true -> In k (claves l).
Proof.
  intros Ht H. unfold claves. apply nodup_In. apply in_flat_map.
  exists t. split; [exact Ht|]. apply de_clave_campos in H as [C I].
  unfold clave_de. rewrite C, I. left. now destruct k.
Qed.

Lemma dos_en_lista {A : Type} (g : list A) (x y : A) :
  In x g -> In y g -> x <> y -> 1 < List.length g.
Proof.
  destruct g as [|a [|b g]]; cbn; [contradiction| |lia].
  intros [<-|[]] [<-|[]] D. now contradiction D.
Qed.

Lemma In_dups (l : list TareaProgramada) (n : Z) :
  In n (map snd (movimientos l))
  <-> exists f u,
        In f (filas l) /\ In u l /\ de_clave (fst f) u = true
        /\ tp_id u <> snd f /\ tp_id u = n.
Proof.
  unfold movimientos. rewrite in_map_iff. split.
  - intros (m & E & Hm). apply in_flat_map in Hm as (f & Hf & Hm).
    apply In_movimientos_de in Hm as (u & Hu & K & D & ->).
    exists f, u. auto.
  - intros (f & u & Hf & Hu & K & D & E). exists (snd f, tp_id u).
    split; [exact E|]. apply in_flat_map. exists f. split; [exact Hf|].
    apply In_movimientos_de. exists u. auto.
Qed.

Lemma sobra_movimientos (l : list TareaProgramada) (t : TareaProgramada) :
  NoDup (map tp_id l) ->
  In t l ->
  existsb (Z.eqb (tp_id t)) (map snd (movimientos l)) = sobra l t.
Proof.
  intros N Ht. apply eq_true_iff_eq. unfold sobra.
  rewrite !existsb_exists. split.
  - intros (n & Hn & E). apply Z.eqb_eq in E. subst n.
    apply In_dups in Hn as (f & u & Hf & Hu & K & D & E).
    rewrite (misma_tarea l u t N Hu Ht E) in *. clear u Hu E.
    apply In_filas in Hf as (_ & G & Emin).
    destruct (minimo_de (filter (de_clave (fst f)) l))
      as ((v & Hv & Ev) & Hmin).
    { intros Z0. rewrite Z0 in G. cbn in G. lia. }
    assert (minimo (filter (de_clave (fst f)) l) <= tp_id t)%Z as L.
    { apply Hmin. apply filter_In. auto. }
    apply filter_In in Hv as [Hv Kv]. exists v. split; [exact Hv|].
    rewrite (misma_clave_de_clave _ _ _ K), Kv. cbn [andb].
    apply Z.ltb_lt. lia.
  - intros (u & Hu & E). apply andb_prop in E as [M Lt].
    apply Z.ltb_lt in Lt.
    destruct (misma_clave_completa _ _ M) as (k & Kt & Ku).
    exists (tp_id t). split; [|apply Z.eqb_refl].
    set (g := filter (de_clave k) l).
    assert (In t g) as Gt by (apply filter_In; auto).
    assert (In u g) as Gu by (apply filter_In; auto).
    assert (1 < List.length g) as G.
    { apply (dos_en_lista g t u Gt Gu). intros ->. lia. }
    destruct (minimo_de g) as (_ & Hmin).
    { intros Z0. rewrite Z0 in Gt. contradiction. }
    apply In_dups. exists (k, minimo g), t. cbn [fst snd].
    split; [|split; [exact Ht|split; [exact Kt|split; [|reflexivity]]]].
    + apply In_filas. cbn [fst snd]. split; [|split; [exact G|reflexivity]].
      now apply (In_claves l k t).
    + specialize (Hmin u Gu). lia.
Qed.

Lemma lleva_en (ms : list (Z * Z)) (n : Z) :
  In n (map snd ms) -> In (lleva ms n, n) ms.
Proof.
  induction ms as [|m r IH]; [contradiction|]. cbn [map In lleva].
  intros H. destruct (Z.eqb_spec n (snd m)) as [->|D].
  - left. now destruct m.
  - right. apply IH. destruct H as [H|H]; [congruence|exact H].
Qed.

Lemma movimiento_destino (l : list TareaProgramada) (k n : Z) :
  NoDup (map tp_id l) ->
  In (k, n) (movimientos l) -> k = destino l n.
Proof.
  intros N H.
  assert (In n (map snd (movimientos l))) as Hn.
  { apply in_map_iff. now exists (k, n). }
  unfold movimientos in H. apply in_flat_map in H as (f & Hf & Hm).
  apply In_movimientos_de in Hm as (u & Hu & K & D & [= -> ->]).
  unfold destino.
  destruct (find _ l) as [t|] eqn:F.
  - apply find_some in F as [Ht E]. apply Z.eqb_eq in E.
    rewrite (misma_tarea l t u N Ht Hu E) in *.
    rewrite <- (sobra_movimientos l u N Hu).
    assert (existsb (Z.eqb (tp_id u)) (map snd (movimientos l)) = true)
      as ->.
    { apply existsb_exists. exists (tp_id u). split; [exact Hn|].
      apply Z.eqb_refl. }
    apply In_filas in Hf as (_ & _ & ->). f_equal. apply filter_ext.
    intros x. symmetry. now apply misma_clave_de_clave.
  - exfalso. apply (find_none _ _ F) in Hu. now rewrite Z.eqb_refl in Hu.
Qed.

Lemma lleva_destino (l : list TareaProgramada) (n : Z) :
  NoDup (map tp_id l) -> lleva (movimientos l) n = destino l n.
Proof.
  intros N.
  destruct (in_dec Z.eq_dec n (map snd (movimientos l))) as [H|H].
  - apply (movimiento_destino l _ n N). now apply lleva_en.
  - rewrite (lleva_fuera _ _ H). unfold destino.
    destruct (find _ l) as [t|] eqn:F; [|reflexivity].
    apply find_some in F as [Ht E]. apply Z.eqb_eq in E.
    rewrite <- (sobra_movimientos l t N Ht).
    destruct (existsb _ _) eqn:X; [|reflexivity]. exfalso. apply H.
    apply existsb_exists in X as (n' & Hn' & E').
    apply Z.eqb_eq in E'. congruence.
Qed.

Lemma se_juntan_igual (l : list TareaProgramada) (ls : list TareaServicio) :
  NoDup (map tp_id l) -> se_juntan_por (movimientos l) ls = se_juntan l ls.
Proof.
  intros N. unfold se_juntan_por, se_juntan.
  assert (forall (A : Type) (p q : A -> bool) (xs : list A),
             (forall x, p x = q x) -> existsb p xs = existsb q xs) as X.
  { intros A p q xs H. induction xs as [|x xs IH]; [reflexivity|].
    cbn. now rewrite H, IH. }
  apply X. intros e. apply X. intros x.
  now rewrite !(lleva_destino l _ N).
Qed.

Lemma misma_clave_sym (t u : TareaProgramada) :
  misma_clave (carrier_id t) (id_interno t) u = true ->
  misma_clave (carrier_id u) (id_interno u) t = true.
Proof.
  intros M. destruct (misma_clave_completa _ _ M) as (k & Kt & Ku).
  now rewrite (misma_clave_de_clave k u t Ku).
Qed.

Lemma sin_repetidas (l : list TareaProgramada) :
  NoDup l ->
  (forall t u, In t l -> In u l ->
               misma_clave (carrier_id t) (id_interno t) u = true -> t = u) ->
  filas l = [].
Proof.
  intros N U. unfold filas.
  induction (claves l) as [|k ks IH]; [reflexivity|]. cbn [flat_map].
  cbv zeta. rewrite IH, app_nil_r.
  destruct (1 <? _) eqn:G; [|reflexivity]. exfalso.
  apply Nat.ltb_lt in G.
  pose proof (NoDup_filter (de_clave k) N) as Ng.
  destruct (filter (de_clave k) l) as [|x [|y g]] eqn:E;
    cbn in G; try lia.
  assert (In x (filter (de_clave k) l)) as Hx by (rewrite E; now left).
  assert (In y (filter (de_clave k) l))
    as Hy by (rewrite E; right; now left).
  apply filter_In in Hx as [Hx Kx]. apply filter_In in Hy as [Hy Ky].
  assert (x = y) as ->.
  { apply U; auto. now rewrite (misma_clave_de_clave k x y Kx). }
  inversion Ng as [|? ? Hn _]. apply Hn. now left.
Qed.

(** With distinct ids in the table, [eliminar_duplicados_tareas] fails,
    with IntegrityError, exactly when the store has the constraint
    [uix_tarea_servicio] and two tasks with the same key are linked to the
    same service.  Otherwise it deletes exactly the tasks that share both
    parts of their key with a task of smaller id, and points the links and
    the pending services of the deleted tasks to the task kept for their
    key; afterwards no two tasks have the same key, what referred to a task
    of the table refers to a task that is left, and a second run changes
    nothing. *)
Theorem eliminar_duplicados (uix : bool) (b : base) :
  NoDup (map tp_id (tareas_programadas b)) ->
  let l := tareas_programadas b in
  if uix && se_juntan l (tareas_servicio b)
  then exists b', eliminar_duplicados_tareas uix b = (b', inl IntegrityError)
  else
    exists b',
      eliminar_duplicados_tareas uix b = (b', inr tt)
      /\ tareas_programadas b' = filter (fun t => negb (sobra l t)) l
      /\ tareas_servicio b' = map (llevar_enlace l) (tareas_servicio b)
      /\ servicios_pendientes b'
         = map (llevar_pendiente l) (servicios_pendientes b)
      /\ (forall t u,
             In t (tareas_programadas b') -> In u (tareas_programadas b') ->
             misma_clave (carrier_id t) (id_interno t) u = true -> t = u)
      /\ (forall n, existe_tarea b n = true ->
                    existe_tarea b' (destino l n) = true)
      /\ eliminar_duplicados_tareas uix b' = (b', inr tt).
Proof.
  intros N l. unfold eliminar_duplicados_tareas at 1 2.
  rewrite (depurar_claves_correr uix _ b N (claves_filas _)).
  fold l. fold (movimientos l).
  pose proof (correr_forma uix (movimientos l) b
                (en_orden_movimientos l N)) as C.
  rewrite (se_juntan_igual l _ N) in C.
  destruct (uix && se_juntan l (tareas_servicio b)); [exact C|].
  exists (tras (movimientos l) b). split; [exact C|].
  assert (tareas_programadas (tras (movimientos l) b)
          = filter (fun t => negb (sobra l t)) l) as T.
  { unfold tras. cbn [tareas_programadas]. apply filter_ext_in.
    intros t Ht. now rewrite (sobra_movimientos l t N Ht). }
  assert (forall t, In t (tareas_programadas (tras (movimientos l) b))
                    <-> In t l /\ sobra l t = false) as I.
  { intros t. rewrite T, filter_In. now rewrite negb_true_iff. }
  assert (forall t u,
             In t (tareas_programadas (tras (movimientos l) b)) ->
             In u (tareas_programadas (tras (movimientos l) b)) ->
             misma_clave (carrier_id t) (id_interno t) u = true -> t = u)
    as U.
  { intros t u Ht Hu M. apply I in Ht as [Ht St]. apply I in Hu as [Hu Su].
    apply (misma_tarea l t u N Ht Hu).
    destruct (Z.lt_trichotomy (tp_id t) (tp_id u)) as [Lt|[E|Lt]];
      [|exact E|]; exfalso.
    - assert (sobra l u = true); [|congruence].
      apply existsb_exists. exists t. split; [exact Ht|].
      rewrite (misma_clave_sym _ _ M). now apply Z.ltb_lt.
    - assert (sobra l t = true); [|congruence].
      apply existsb_exists. exists u. split; [exact Hu|].
      rewrite M. now apply Z.ltb_lt. }
  split; [exact T|]. split; [|split; [|split; [exact U|split]]].
  - unfold tras. cbn [tareas_servicio]. apply map_ext. intros e.
    unfold llevar_enlace. now rewrite (lleva_destino l _ N).
  - unfold tras. cbn [servicios_pendientes]. apply map_ext. intros p.
    unfold llevar_pendiente. now rewrite (lleva_destino l _ N).
  - intros n X. unfold existe_tarea in *.
    apply existsb_exists in X as (t0 & Ht0 & E0). fold l in Ht0.
    apply existsb_exists. unfold destino.
    destruct (find _ l) as [t|] eqn:F.
    2:{ apply (find_none _ _ F) in Ht0. congruence. }
    apply find_some in F as [Ht E]. apply Z.eqb_eq in E.
    destruct (sobra l t) eqn:S.
    + set (g := filter (misma_clave (carrier_id t) (id_interno t)) l).
      apply existsb_exists in S as (u & Hu & Su).
      apply andb_prop in Su as [Mu _].
      destruct (minimo_de g) as ((v & Hv & Ev) & Hmin).
      { intros Z0. assert (In u g) as Gu by (apply filter_In; auto).
        rewrite Z0 in Gu. contradiction. }
      exists v. split; [|now apply Z.eqb_eq].
      apply filter_In in Hv as [Hv Mv]. apply I. split; [exact Hv|].
      destruct (sobra l v) eqn:Sv; [|reflexivity]. exfalso.
      apply existsb_exists in Sv as (w & Hw & Sw).
      apply andb_prop in Sw as [Mw Lt]. apply Z.ltb_lt in Lt.
      assert (In w g) as Gw.
      { apply filter_In. split; [exact Hw|].
        destruct (misma_clave_completa _ _ Mv) as (k & Kt & Kv).
        rewrite (misma_clave_de_clave k t w Kt).
        now rewrite <- (misma_clave_de_clave k v w Kv). }
      specialize (Hmin w Gw). lia.
    + exists t. split; [|now apply Z.eqb_eq]. apply I. auto.
  - unfold eliminar_duplicados_tareas.
    rewrite sin_repetidas; [reflexivity| |exact U].
    rewrite T. apply NoDup_filter. now apply NoDup_map_inv in N.
Qed.

Lemma eliminar_duplicados_ejemplo :
  exists b',
    eliminar_duplicados_tareas true Casos.base_duplicada
    = (b', inl IntegrityError).
Proof.
  pose proof (eliminar_duplicados true Casos.base_duplicada) as H.
  cbv zeta in H.
  assert (true && se_juntan (tareas_programadas Casos.base_duplicada)
                            (tareas_servicio Casos.base_duplicada) = true)
    as E by reflexivity.
  rewrite E in H. apply H.
  repeat (constructor; [cbn; intuition discriminate|]). constructor.
Defined.

End MigracionProps.

(** ** Dates without year *)

Module CalendarioProps.
Import Py Re Fechas.

Lemma valor_de_ausente (d : nat) (ds : list ascii) (gs : list string)
      (def : Z) :
  (forall x, In x ds -> es d x = false) -> valor_de d ds gs def = def.
Proof.
  revert gs. induction ds as [|x ds IH]; intros gs H; [reflexivity|].
  destruct gs as [|g gs]; [reflexivity|]. cbn [valor_de].
  rewrite (H x (or_introl eq_refl)). apply IH. intros y Hy. apply H.
  now right.
Qed.

Lemma strptime_valida (valor fmt : string) (dt : datetime) :
  strptime valor fmt = Some dt ->
  valida dt = true
  /\ ((forall x, In x (directivas fmt) -> es 89 x = false) ->
      year dt = 1900%Z).
Proof.
  unfold strptime. destruct (match_ _ valor) as [h|]; [|discriminate].
  destruct (negb (vacia (resto h))); [discriminate|]. cbv zeta.
  destruct (valida _) eqn:V; [|discriminate]. intros [= <-].
  split; [exact V|]. intros H. cbn [year]. now apply valor_de_ausente.
Qed.

Lemma sin_29_de_febrero (dt : datetime) :
  valida dt = true -> year dt = 1900%Z -> month dt = 2%Z ->
  (day dt <= 28)%Z.
Proof.
  unfold valida. intros V Y M. rewrite Y, M in V.
  repeat (apply andb_prop in V as [V ?]).
  change (dias_del_mes 1900 2) with 28%Z in *. now apply Z.leb_le.
Qed.

(** The 29th of February is accepted only when the text gives the year
    (or by [fromisoformat]): the two formats without year are read in the
    year 1900, which has no such day, before the current year is put in,
    so a date like "29/02 08:00" is refused by them even in a leap year. *)
Theorem febrero_sin_anio (fromisoformat : string -> option fechahora)
        (anio_actual : Z) (valor : string) (x : fechahora) :
  _parse_fecha fromisoformat anio_actual valor = Some x ->
  month (campos x) = 2%Z ->
  day (campos x) = 29%Z ->
  let v := strip (smap t_a_blanco valor) in
  (exists fmt, In fmt formatos /\ contiene "%Y" fmt = true
               /\ strptime v fmt = Some (campos x) /\ utcoffset x = None)
  \/ fromisoformat v = Some x.
Proof.
  intros P M D v. unfold _parse_fecha in P. fold v in P.
  apply probar_formatos_origen in P as [P|[P|P]]; [now left| |now right].
  exfalso. destruct P as (fmt & dt0 & Hf & Y & S & R & _).
  apply replace_year_campos in R as (_ & M0 & D0 & _).
  apply strptime_valida in S as [V Y0].
  assert (year dt0 = 1900%Z) as Y1.
  { apply Y0. unfold formatos in Hf. cbn [In] in Hf.
    destruct Hf as [<-|[<-|[<-|[<-|[<-|[<-|[]]]]]]];
      try (vm_compute in Y; discriminate);
      intros y Hy; vm_compute in Hy;
      repeat (destruct Hy as [<-|Hy]; [reflexivity|]); contradiction. }
  pose proof (sin_29_de_febrero dt0 V Y1) as L. lia.
Qed.

Lemma febrero_con_anio :
  (exists fmt, In fmt formatos /\ contiene "%Y" fmt = true
               /\ strptime (strip (smap t_a_blanco "29/02/2024 08:00")) fmt
                  = Some (Datetime 2024 2 29 8 0 0 0)
               /\ utcoffset (naive (Datetime 2024 2 29 8 0 0 0)) = None)
  \/ Ejemplos.sin_iso (strip (smap t_a_blanco "29/02/2024 08:00"))
     = Some (naive (Datetime 2024 2 29 8 0 0 0)).
Proof.
  apply (febrero_sin_anio Ejemplos.sin_iso 2024 "29/02/2024 08:00"
                          (naive (Datetime 2024 2 29 8 0 0 0))).
  - vm_compute. reflexivity.
  - reflexivity.
  - reflexivity.
Defined.

Lemma smap_app (f : ascii -> ascii) (a b : string) :
  smap f (a ++ b) = (smap f a ++ smap f b)%string.
Proof. induction a as [|c a IH]; cbn; [reflexivity|now rewrite IH]. Qed.

Lemma t_a_blanco_idem (c : ascii) : t_a_blanco (t_a_blanco c) = t_a_blanco c.
Proof. unfold t_a_blanco. destruct (es 84 c) eqn:E; [reflexivity|now rewrite E]. Qed.

Lemma smap_t_a_blanco_idem (s : string) :
  smap t_a_blanco (smap t_a_blanco s) = smap t_a_blanco s.
Proof.
  induction s as [|c s IH]; cbn; [reflexivity|].
  now rewrite t_a_blanco_idem, IH.
Qed.

Lemma blanco_tras_t (c : ascii) : isspace c = true -> isspace (t_a_blanco c) = true.
Proof. unfold t_a_blanco. now destruct (es 84 c). Qed.

Lemma smap_blancos (s : string) :
  forallb_s isspace s = true -> forallb_s isspace (smap t_a_blanco s) = true.
Proof.
  induction s as [|c s IH]; cbn; [reflexivity|]. intros H.
  apply andb_prop in H as [H1 H2]. now rewrite (blanco_tras_t c H1), IH.
Qed.

Lemma lstrip_blancos (a s : string) :
  forallb_s isspace a = true -> lstrip (a ++ s) = lstrip s.
Proof.
  induction a as [|c a IH]; cbn; [reflexivity|]. intros H.
  apply andb_prop in H as [-> H]. now apply IH.
Qed.

Lemma rstrip_solo_blancos (b : string) :
  forallb_s isspace b = true -> rstrip b = EmptyString.
Proof.
  induction b as [|c b IH]; cbn; [reflexivity|]. intros H.
  apply andb_prop in H as [H1 H2]. now rewrite (IH H2), H1.
Qed.

Lemma rstrip_blancos (s b : string) :
  forallb_s isspace b = true -> rstrip (s ++ b) = rstrip s.
Proof.
  intros H. induction s as [|c s IH]; cbn [append rstrip].
  - now apply rstrip_solo_blancos.
  - now rewrite IH.
Qed.

Lemma lstrip_app_resto (s b : string) :
  exists s', lstrip (s ++ b) = (s' ++ b)%string /\ lstrip s = s'
  \/ forallb_s isspace s = true.
Proof.
  induction s as [|c s IH]; cbn [append lstrip].
  - exists EmptyString. now right.
  - destruct (isspace c) eqn:E.
    + destruct IH as (s' & [[H1 H2]|H]).
      * exists s'. left. auto.
      * exists EmptyString. right. cbn. now rewrite E.
    + exists (String c s). left. auto.
Qed.

Lemma strip_blancos (a s b : string) :
  forallb_s isspace a = true -> forallb_s isspace b = true ->
  strip (a ++ s ++ b) = strip s.
Proof.
  intros Ha Hb. unfold strip. rewrite (lstrip_blancos a _ Ha).
  destruct (lstrip_app_resto s b) as (s' & [[H1 H2]|H]).
  - rewrite H1, H2. now apply rstrip_blancos.
  - assert (forallb_s isspace (s ++ b) = true) as Hsb.
    { now rewrite forallb_s_app, H, Hb. }
    assert (forall x, forallb_s isspace x = true -> lstrip x = EmptyString)
      as L.
    { induction x as [|c x IH]; cbn; [reflexivity|]. intros K.
      apply andb_prop in K as [-> K]. now apply IH. }
    now rewrite (L _ Hsb), (L _ H).
Qed.

(** For [_parse_fecha] white space around the text makes no difference,
    whatever white space it is (the no-break space and NEL as well as the
    blank), and neither does writing T for a blank: "2024-01-02T08:00" is
    read as "2024-01-02 08:00". *)
Theorem parse_fecha_blancos (fromisoformat : string -> option fechahora)
        (anio_actual : Z) (a valor b : string) :
  forallb_s isspace a = true ->
  forallb_s isspace b = true ->
  _parse_fecha fromisoformat anio_actual (a ++ valor ++ b)
  = _parse_fecha fromisoformat anio_actual valor
  /\ _parse_fecha fromisoformat anio_actual (smap t_a_blanco valor)
     = _parse_fecha fromisoformat anio_actual valor.
Proof.
  intros Ha Hb. unfold _parse_fecha. split.
  - rewrite !smap_app.
    now rewrite (strip_blancos _ _ _ (smap_blancos a Ha) (smap_blancos b Hb)).
  - now rewrite smap_t_a_blanco_idem.
Qed.

(** A no-break space before the date, NEL and a blank after it. *)
Lemma parse_fecha_blancos_ejemplo :
  _parse_fecha Ejemplos.sin_iso 2024
               (String (ascii_of_nat 160) EmptyString
                ++ "2024-01-02T08:00"
                ++ String (ascii_of_nat 133) " ")
  = Some (naive (Datetime 2024 1 2 8 0 0 0)).
Proof.
  rewrite (proj1 (parse_fecha_blancos
                    Ejemplos.sin_iso 2024
                    (String (ascii_of_nat 160) EmptyString)
                    "2024-01-02T08:00" (String (ascii_of_nat 133) " ")
                    eq_refl eq_refl)).
  vm_compute. reflexivity.
Defined.

End CalendarioProps.

(** ** The constraints of the store are kept by the task upsert *)

Module IntegridadProps.
Import Py Fechas Database Lectura.

Lemma relaciones_ids (n t : Z) (sids : list Z) :
  Forall (fun e => (n <= ts_id e < n + Z.of_nat (List.length sids))%Z)
         (relaciones n t sids)
  /\ NoDup (map ts_id (relaciones n t sids)).
Proof.
  revert n. induction sids as [|s r IH]; intros n; cbn [relaciones].
  - split; constructor.
  - destruct (IH (n + 1)%Z) as [F N]. cbn [List.length map ts_id]. split.
    + constructor; [cbn; lia|]. revert F. apply Forall_impl.
      intros e. lia.
    + constructor; [|exact N]. intros H.
      apply in_map_iff in H as (e & E & He).
      rewrite Forall_forall in F. specialize (F e He). lia.
Qed.

Lemma relaciones_tarea (n t : Z) (sids : list Z) :
  Forall (fun e => tarea_id e = t) (relaciones n t sids).
Proof.
  revert n. induction sids as [|s r IH]; intros n; cbn [relaciones];
    constructor; [reflexivity|apply IH].
Qed.

Lemma admite_integra (b : base) (nuevas ls : list TareaServicio) :
  admite b ls nuevas = true ->
  Forall (fun e => existe_tarea b (tarea_id e) = true
                   /\ existe_servicio b (servicio_id e) = true) nuevas
  /\ (NoDup (map par ls) -> NoDup (map par (ls ++ nuevas))).
Proof.
  revert ls. induction nuevas as [|e r IH]; intros ls; cbn [admite].
  - intros _. split; [constructor|]. now rewrite app_nil_r.
  - intros H. apply andb_prop in H as [H A]. apply andb_prop in H as [H C].
    apply andb_prop in H as [T S]. destruct (IH _ A) as [F N]. split.
    + constructor; auto.
    + intros Nl. change (e :: r) with ([e] ++ r). rewrite app_assoc.
      apply N. rewrite map_app. apply NoDup_app; [exact Nl| |].
      * cbn. constructor; [tauto|constructor].
      * intros p Hp [<-|[]]. apply negb_true_iff in C.
        apply in_map_iff in Hp as (x & E & Hx).
        unfold choca_enlace in C.
        assert (existsb (fun x => (tarea_id x =? tarea_id e)%Z
                                  && (servicio_id x =? servicio_id e)%Z) ls
                = true); [|congruence].
        apply existsb_exists. exists x. split; [exact Hx|].
        unfold par in E. injection E as -> ->. now rewrite !Z.eqb_refl.
Qed.

Lemma sin_repetir_tras_filtrar {A B : Type} (p : A -> bool) (f : A -> B)
      (l : list A) (N : NoDup (map f l)) :
  NoDup (map f (filter p l)).
Proof.
  induction l as [|x l IH]; cbn [filter map] in *; [exact N|].
  inversion N as [|? ? Hx Nl]; subst. specialize (IH Nl).
  destruct (p x); [|exact IH]. cbn [map]. constructor; [|exact IH].
  intros H. apply Hx. apply in_map_iff in H as (y & E & Hy).
  apply filter_In in Hy as [Hy _]. apply in_map_iff. now exists y.
Qed.

Section Upsert.

Variables (fi ff : datetime) (tipo : string) (sids : list Z) (c : option Z)
          (ta desc i : option string).

Lemma guardar_tarea_integra (b b1 : base)
      (r : error + TareaProgramada * bool) :
  integra b ->
  guardar_tarea fi ff tipo c ta desc i (buscar_tarea c i b) b = (b1, r) ->
  integra b1.
Proof.
  intros (N & S & U & Fc & Fl & Np & Ni & Si & Fp). unfold guardar_tarea.
  destruct (buscar_tarea c i b) as [h|] eqn:B.
  - intros [= <- _].
    set (f := fun t => if (tp_id t =? tp_id h)%Z
                       then actualizada fi ff tipo ta desc t else t).
    assert (forall t, tp_id (f t) = tp_id t) as F1.
    { intros t. unfold f. now destruct (_ =? _)%Z. }
    assert (forall t, carrier_id (f t) = carrier_id t) as F2.
    { intros t. unfold f. now destruct (_ =? _)%Z. }
    assert (forall t, id_interno (f t) = id_interno t) as F3.
    { intros t. unfold f. now destruct (_ =? _)%Z. }
    assert (map tp_id (map f (tareas_programadas b))
            = map tp_id (tareas_programadas b)) as M.
    { rewrite map_map. now apply map_ext. }
    assert (forall n, existe_tarea
                        (con_tareas b (map f (tareas_programadas b))
                                    (sec_tareas b)) n
                      = existe_tarea b n) as X.
    { intros n. unfold existe_tarea. cbn [tareas_programadas con_tareas].
      now apply existsb_map_id. }
    unfold integra.
    cbn [con_tareas tareas_programadas tareas_servicio servicios_pendientes
         sec_tareas sec_tareas_servicio].
    split; [now rewrite M|]. split.
    { apply Forall_forall. intros t' Ht'.
      apply in_map_iff in Ht' as (t & <- & Ht). rewrite F1.
      rewrite Forall_forall in S. now apply S. }
    split.
    { intros t' u' Ht' Hu' Mk.
      apply in_map_iff in Ht' as (t & <- & Ht).
      apply in_map_iff in Hu' as (u & <- & Hu).
      rewrite F2, F3 in Mk. unfold misma_clave in Mk.
      rewrite F2, F3 in Mk. now rewrite (U t u Ht Hu Mk). }
    split.
    { apply Forall_forall. intros t' Ht'.
      apply in_map_iff in Ht' as (t & <- & Ht). rewrite F2.
      rewrite Forall_forall in Fc. now apply Fc. }
    split.
    { revert Fl. apply Forall_impl. intros e [H1 H2]. now rewrite X. }
    split; [exact Np|]. split; [exact Ni|]. split; [exact Si|].
    revert Fp. apply Forall_impl. intros p H. now rewrite X.
  - destruct (existe_carrier b c && _) eqn:G; [|now intros [= <- _]].
    apply andb_prop in G as [Gc Gk]. apply negb_true_iff in Gk.
    intros [= <- _].
    set (nueva := MkTarea (sec_tareas b) fi ff tipo ta desc c i).
    assert (forall n, existe_tarea b n = true ->
                      existe_tarea
                        (con_tareas b (tareas_programadas b ++ [nueva])
                                    (sec_tareas b + 1)) n = true) as X.
    { intros n H. unfold existe_tarea in *.
      cbn [tareas_programadas con_tareas]. rewrite existsb_app, H.
      reflexivity. }
    assert (forall u, In u (tareas_programadas b) ->
                      misma_clave c i u = false) as K.
    { intros u Hu. destruct (misma_clave c i u) eqn:E; [|reflexivity].
      assert (existsb (misma_clave c i) (tareas_programadas b) = true);
        [|congruence].
      apply existsb_exists. now exists u. }
    unfold integra.
    cbn [con_tareas tareas_programadas tareas_servicio servicios_pendientes
         sec_tareas sec_tareas_servicio].
    split.
    { rewrite map_app. apply NoDup_app; [exact N| |].
      - cbn. constructor; [tauto|constructor].
      - intros n Hn [<-|[]]. apply in_map_iff in Hn as (t & E & Ht).
        rewrite Forall_forall in S. specialize (S t Ht). cbn in E. lia. }
    split.
    { apply Forall_app. split.
      - revert S. apply Forall_impl. intros t. lia.
      - constructor; [cbn; lia|constructor]. }
    split.
    { intros t u Ht Hu Mk. apply in_app_iff in Ht, Hu.
      destruct Ht as [Ht|[<-|[]]], Hu as [Hu|[<-|[]]].
      - now apply U.
      - apply MigracionProps.misma_clave_sym in Mk. cbn in Mk.
        now rewrite (K t Ht) in Mk.
      - cbn in Mk. now rewrite (K u Hu) in Mk.
      - reflexivity. }
    split.
    { apply Forall_app. split; [exact Fc|].
      constructor; [exact Gc|constructor]. }
    split.
    { revert Fl. apply Forall_impl. intros e [H1 H2]. split; auto. }
    split; [exact Np|]. split; [exact Ni|]. split; [exact Si|].
    revert Fp. apply Forall_impl. intros p H. now apply X.
Qed.

Lemma reemplazar_enlaces_integra (t : TareaProgramada) (b b2 : base)
      (r : error + unit) :
  integra b ->
  reemplazar_enlaces sids t b = (b2, r) ->
  integra b2.
Proof.
  intros (N & S & U & Fc & Fl & Np & Ni & Si & Fp). unfold reemplazar_enlaces.
  destruct (admite b _ _) eqn:A; [|intros [= <- _]; repeat split; auto].
  intros [= <- _].
  apply admite_integra in A as [Fn Nn].
  unfold integra.
  cbn [con_enlaces tareas_programadas tareas_servicio servicios_pendientes
       sec_tareas sec_tareas_servicio].
  split; [exact N|]. split; [exact S|]. split; [exact U|].
  split; [exact Fc|].
  set (quedan := filter (fun l => negb (tarea_id l =? tp_id t)%Z)
                        (tareas_servicio b)) in *.
  assert (Forall (fun e => (ts_id e < sec_tareas_servicio b)%Z) quedan) as Sq.
  { apply Forall_forall. intros e He. apply filter_In in He as [He _].
    rewrite Forall_forall in Si. now apply Si. }
  destruct (relaciones_ids (sec_tareas_servicio b) (tp_id t)
                           (sin_repetir sids)) as [Ri Rn].
  split.
  { apply Forall_app. split; [|exact Fn].
    apply Forall_forall. intros e He. apply filter_In in He as [He _].
    rewrite Forall_forall in Fl. now apply Fl. }
  split; [apply Nn; now apply sin_repetir_tras_filtrar|].
  split.
  { rewrite map_app. apply NoDup_app.
    - now apply sin_repetir_tras_filtrar.
    - exact Rn.
    - intros n H1 H2. apply in_map_iff in H1 as (e & E & He).
      apply in_map_iff in H2 as (e' & E' & He').
      rewrite Forall_forall in Sq, Ri.
      specialize (Sq e He). specialize (Ri e' He'). lia. }
  split; [|exact Fp].
  apply Forall_app. split.
  - revert Sq. apply Forall_impl. intros e. lia.
  - revert Ri. apply Forall_impl. intros e. lia.
Qed.

Lemma crear_tarea_guarda (b b' : base)
      (r : error + TareaProgramada * bool) :
  integra b ->
  crear_tarea_programada fi ff tipo sids c ta desc i b = (b', r) ->
  integra b'.
Proof.
  intros H. unfold crear_tarea_programada, guardar, bind, ret.
  destruct (guardar_tarea _ _ _ _ _ _ _ _ b) as [b1 [e|x]] eqn:G.
  - intros [= <- _]. eapply guardar_tarea_integra; eassumption.
  - pose proof (guardar_tarea_integra _ _ _ H G) as H1.
    destruct (reemplazar_enlaces sids (fst x) b1) as [b2 [e|[]]] eqn:R;
      intros [= <- _]; eapply reemplazar_enlaces_integra; eassumption.
Qed.

(** Whatever [crear_tarea_programada] returns, a task or IntegrityError,
    it leaves a store that satisfies its constraints if it found one: the
    ids of the tasks and of the links are distinct, no two tasks share a
    complete key, no task has two links to one service, and every link,
    task and pending service refers to rows that exist. *)
Theorem crear_tarea_integra (b : base) :
  integra b ->
  integra (fst (crear_tarea_programada fi ff tipo sids c ta desc i b)).
Proof.
  intros H.
  destruct (crear_tarea_programada fi ff tipo sids c ta desc i b)
    as [b' r] eqn:E.
  cbn [fst]. eapply crear_tarea_guarda; eassumption.
Qed.

End Upsert.

Lemma crear_tarea_integra_ejemplo : integra Casos.base_con_tarea.
Proof.
  apply (crear_tarea_integra Ejemplos.d_0800 Ejemplos.d_1000 "Mantenimiento"
           [1; 2]%Z (Some 1%Z) None None (Some "SWX0000001")
           Ejemplos.base_ejemplo).
  unfold integra. cbn. repeat split; try constructor. contradiction.
Defined.

Lemma integra_ext (b b' : base) :
  tareas_programadas b' = tareas_programadas b ->
  sec_tareas b' = sec_tareas b ->
  tareas_servicio b' = tareas_servicio b ->
  sec_tareas_servicio b' = sec_tareas_servicio b ->
  (forall c, existe_carrier b c = true -> existe_carrier b' c = true) ->
  (forall n, existe_servicio b' n = existe_servicio b n) ->
  Forall (fun p => existe_tarea b' (sp_tarea_id p) = true)
         (servicios_pendientes b') ->
  integra b -> integra b'.
Proof.
  intros Et Est El Esl Hc Hs Hp (N & S & U & Fc & Fl & Np & Ni & Si & Fp).
  assert (forall n, existe_tarea b' n = existe_tarea b n) as X.
  { intros n. unfold existe_tarea. now rewrite Et. }
  unfold integra. rewrite Et, Est, El, Esl.
  repeat (split; [assumption|]).
  split; [|split].
  - revert Fc. apply Forall_impl. intros t. apply Hc.
  - revert Fl. apply Forall_impl. intros e [H1 H2]. now rewrite X, Hs.
  - repeat (split; [assumption|]). exact Hp.
Qed.

Lemma pendientes_ext (b b' : base) :
  tareas_programadas b' = tareas_programadas b ->
  Forall (fun p => existe_tarea b (sp_tarea_id p) = true)
         (servicios_pendientes b) ->
  Forall (fun p => existe_tarea b' (sp_tarea_id p) = true)
         (servicios_pendientes b).
Proof.
  intros E. apply Forall_impl. intros p. unfold existe_tarea. now rewrite E.
Qed.

Lemma cliente_o_nuevo_integra (nombre : string) (b : base) :
  integra b -> integra (fst (Pipeline.cliente_o_nuevo nombre b)).
Proof.
  intros H. unfold Pipeline.cliente_o_nuevo.
  destruct (obtener_cliente_por_nombre nombre b); [exact H|].
  cbn [fst]. apply (integra_ext b); auto. apply H.
Qed.

Lemma carrier_o_nuevo_integra (nombre : option string) (b : base) :
  integra b -> integra (fst (Pipeline.carrier_o_nuevo nombre b)).
Proof.
  intros H. unfold Pipeline.carrier_o_nuevo.
  destruct nombre as [n|]; [|exact H].
  destruct (vacia n); [exact H|].
  destruct (find _ (carriers b)); [exact H|].
  cbn [fst]. apply (integra_ext b); auto; [|apply H].
  intros [c|]; [|reflexivity]. unfold existe_carrier.
  cbn [con_carriers carriers]. rewrite existsb_app. now intros ->.
Qed.

Lemma reasignar_integra (carrier : option Carrier) (rs : list Servicio)
      (b : base) :
  integra b -> integra (fst (Pipeline.reasignar carrier rs b)).
Proof.
  intros H. rewrite RegistroProps.reasignar_forma. cbn [fst].
  apply (integra_ext b); auto; [|apply H].
  intros n. unfold existe_servicio. cbn [con_servicios servicios].
  apply RegistroProps.existsb_reasignados.
Qed.

Lemma crear_pendientes_integra (tokens : list string) (tarea : Z)
      (b : base) :
  integra b -> integra (fst (Pipeline.crear_pendientes tokens tarea b)).
Proof.
  revert b. induction tokens as [|x r IH]; intros b H; [exact H|].
  cbn [Pipeline.crear_pendientes]. unfold bind, crear_servicio_pendiente.
  destruct (existe_tarea b tarea) eqn:X; [|exact H].
  match goal with |- context [Pipeline.crear_pendientes r tarea ?b1] =>
    specialize (IH b1);
    destruct (Pipeline.crear_pendientes r tarea b1) as [b2 [e|[]]] end;
    cbn [fst] in *; apply IH;
    (apply (integra_ext b); auto;
     cbn [con_pendientes servicios_pendientes];
     apply Forall_app; split;
     [apply (pendientes_ext b); [reflexivity|apply H]
     |constructor; [exact X|constructor]]).
Qed.

Section Proceso.

Variable servicio : nat -> string -> option string.
Variable procesar_json_response : string -> option EmailUtils.datos.
Variable fromisoformat : string -> option fechahora.
Variable anio_actual : Z.
Variable hora_local : datetime -> Z -> datetime.

Lemma registrar_integra (cliente_nombre : string)
      (carrier_nombre : option string) (inicio fin : datetime)
      (tipo : string) (ids_brutos : list string)
      (id_interno afectacion descripcion : option string) (b : base) :
  integra b ->
  integra (fst (Pipeline.registrar cliente_nombre carrier_nombre inicio fin
                                   tipo ids_brutos id_interno afectacion
                                   descripcion b)).
Proof.
  intros H. unfold Pipeline.registrar, bind, get, ret.
  pose proof (cliente_o_nuevo_integra cliente_nombre b H) as H1.
  destruct (Pipeline.cliente_o_nuevo cliente_nombre b) as [b1 [e|cl]];
    cbn [fst] in *; [exact H1|].
  pose proof (carrier_o_nuevo_integra carrier_nombre b1 H1) as H2.
  destruct (Pipeline.carrier_o_nuevo carrier_nombre b1) as [b2 [e|car]];
    cbn [fst] in *; [exact H2|].
  destruct (Pipeline.resolver b2 ids_brutos) as [servs pend].
  match goal with |- context [crear_tarea_programada ?a ?b ?c ?d ?e ?f ?g ?h
                                                     b2] =>
    destruct (crear_tarea_programada a b c d e f g h b2) as [b3 r3] eqn:C3
  end.
  pose proof (crear_tarea_guarda _ _ _ _ _ _ _ _ _ _ _ H2 C3) as H3.
  destruct r3 as [e'|r]; cbn [fst] in *; [exact H3|].
  pose proof (reasignar_integra car servs b3 H3) as H4.
  destruct (Pipeline.reasignar car servs b3) as [b4 [e'|[]]];
    cbn [fst] in *; [exact H4|].
  pose proof (crear_pendientes_integra pend (tp_id (fst r)) b4 H4) as H5.
  destruct (Pipeline.crear_pendientes pend (tp_id (fst r)) b4)
    as [b5 [e'|[]]]; cbn [fst] in *; exact H5.
Qed.

(** A run of the pipeline, whatever it returns, leaves a store that
    satisfies the constraints on the tasks, their links and the pending
    services if it found one. *)
Theorem proceso_integra (texto cliente_nombre : string)
        (carrier_nombre : option string) (w : Pipeline.mundo) :
  integra (Pipeline.bd w) ->
  integra
    (Pipeline.bd
       (fst (Pipeline.procesar_correo_a_tarea
               servicio procesar_json_response fromisoformat anio_actual
               hora_local texto cliente_nombre carrier_nombre w))).
Proof.
  intros H.
  unfold Pipeline.procesar_correo_a_tarea, bind, Pipeline.elevar,
    Pipeline.en_gpt, Pipeline.en_bd.
  destruct (EmailUtils._detectar_datos_correo _) as [e|dd]; [exact H|].
  destruct (Pipeline.extraer _ _ _ _ _) as [g [e|d]]; [exact H|].
  destruct (Pipeline.fechas _ _ d) as [e|[i f]]; [exact H|].
  cbn [Pipeline.bd Pipeline.gpt].
  match goal with
  | |- context [Pipeline.registrar ?a ?b ?c ?d ?e ?f ?g ?h ?i ?j] =>
      pose proof (registrar_integra a b c d e f g h i j H) as R;
      destruct (Pipeline.registrar a b c d e f g h i j) as [b' r]
  end.
  exact R.
Qed.

End Proceso.

Lemma proceso_integra_ejemplo :
  integra
    (Pipeline.bd
       (fst (Pipeline.procesar_correo_a_tarea
               Ejemplos.servicio_mudo Ejemplos.sin_json Ejemplos.sin_iso 2024
               Ejemplos.sin_zona Ejemplos.correo_campos "Cliente" None
               Ejemplos.mundo_ejemplo))).
Proof.
  apply (proceso_integra Ejemplos.servicio_mudo Ejemplos.sin_json
           Ejemplos.sin_iso 2024 Ejemplos.sin_zona Ejemplos.correo_campos
           "Cliente" None Ejemplos.mundo_ejemplo).
  unfold integra. cbn. repeat split; try constructor. contradiction.
Defined.

End IntegridadProps.
